(** * AstroPsyche: response analysis and profile aggregation

    A shallow embedding of the text heuristics of the questionnaire
    components ([PsychologicalQuestionnaire.tsx],
    [EnhancedPsychQuestionnaire.tsx], [conversationalAI.ts]) and of the
    psychology session service, together with the properties their
    specification states about them.

    Modelling conventions.
    - A JavaScript [number] is an IEEE 754 binary64 value: Rocq's primitive
      [float], whose operations are the ones the JavaScript engine runs.
    - Array lengths and keyword-match counters are non-negative integers
      below 2^32; they are [nat] here and become a [float] (exactly) where
      the source divides them.
    - A string is a sequence of code units in the Latin-1 range (Rocq's
      [string]); [toLowerCase] and the white space class [\s] are the
      restrictions of the ECMAScript ones to that range.
    - Reading the wall clock ([new Date()]) is an explicit argument. *)

From Stdlib Require Import ZArith Floats Reals Psatz List String Ascii Bool Sorted.
From Stdlib Require Uint63.
Import ListNotations.
Set Warnings "-inexact-float".

(** ** JavaScript numbers *)

Module JS.

Definition number := float.
Bind Scope float_scope with number.

(** [a > b] and [a < b] on numbers: false as soon as one side is NaN. *)
Definition gt (a b : number) : bool := (b <? a)%float.
Definition lt (a b : number) : bool := (a <? b)%float.

(** [Math.min(a, b)]: NaN if an argument is NaN, and -0 is below +0. *)
Definition Math_min (a b : number) : number :=
  if is_nan a || is_nan b then nan
  else if (a <? b)%float then a
  else if (b <? a)%float then b
  else if is_zero a && get_sign b then b else a.

(** [Math.max(a, b)]: NaN if an argument is NaN, and +0 is above -0. *)
Definition Math_max (a b : number) : number :=
  if is_nan a || is_nan b then nan
  else if (a <? b)%float then b
  else if (b <? a)%float then a
  else if is_zero a && get_sign a then b else a.

(** The number whose value is the integer [z] (exact for |z| < 2^53). *)
Definition of_Z (z : Z) : number :=
  match z with
  | Z0 => PrimFloat.zero
  | Zpos _ => of_uint63 (Uint63.of_Z z)
  | Zneg p => (- of_uint63 (Uint63.of_Z (Zpos p)))%float
  end.

(** An array length, as a number. *)
Definition of_nat (n : nat) : number := of_Z (Z.of_nat n).

(** The integer closest to [(-1)^s * m * 2^e], ties towards +infinity. *)
Definition round_half_up (s : bool) (m : positive) (e : Z) : Z :=
  let d := Z.pow 2 (- e) in
  let n := if s then Zneg m else Zpos m in
  Z.div (2 * n + d) (2 * d).

(** [Math.round(x)]: NaN, the infinities, the zeros and the integers are
    returned as they are; a result of zero keeps the sign of [x]. *)
Definition Math_round (x : number) : number :=
  match Prim2SF x with
  | S754_finite s m e =>
      if (0 <=? e)%Z then x
      else
        let k := round_half_up s m e in
        if (k =? 0)%Z then (if s then PrimFloat.neg_zero else PrimFloat.zero) else of_Z k
  | _ => x
  end.

(** [Math.round(x * 100) / 100], the two-decimal rounding of the analyzers. *)
Definition round2 (x : number) : number := (Math_round (x * 100) / 100)%float.

(** *** Strings *)

Definition code (c : ascii) : nat := nat_of_ascii c.

(** The class [\s] of regular expressions, within Latin-1:
    TAB, LF, VT, FF, CR, SPACE and NO-BREAK SPACE. *)
Definition isWhiteSpace (c : ascii) : bool :=
  let n := code c in
  ((9 <=? n) && (n <=? 13)) || (n =? 32) || (n =? 160).

(** [toLowerCase] on one code unit: A-Z, and the Latin-1 capitals
    U+00C0..U+00DE other than the multiplication sign U+00D7. *)
Definition toLowerChar (c : ascii) : ascii :=
  let n := code c in
  if ((65 <=? n) && (n <=? 90)) || ((192 <=? n) && (n <=? 222) && negb (n =? 215))
  then ascii_of_nat (n + 32) else c.

Fixpoint toLowerCase (s : string) : string :=
  match s with
  | EmptyString => EmptyString
  | String c r => String (toLowerChar c) (toLowerCase r)
  end.

(** [s.split(/\s+/)]: the pieces between maximal runs of white space,
    the empty pieces at both ends included. [inrun] tells that the previous
    code unit was white space; [tok] is the piece being read. *)
Fixpoint split_run (inrun : bool) (tok : string) (s : string) : list string :=
  match s with
  | EmptyString => [tok]
  | String c r =>
      if isWhiteSpace c then
        if inrun then split_run true tok r
        else tok :: split_run true EmptyString r
      else split_run false (tok ++ String c EmptyString) r
  end.

Definition split_whitespace (s : string) : list string :=
  split_run false EmptyString s.

(** [s.split(' ')]: every single space separates two pieces. *)
Fixpoint split_on (sep : ascii) (tok : string) (s : string) : list string :=
  match s with
  | EmptyString => [tok]
  | String c r =>
      if Ascii.eqb c sep then tok :: split_on sep EmptyString r
      else split_on sep (tok ++ String c EmptyString) r
  end.

Definition split_space (s : string) : list string :=
  split_on " "%char EmptyString s.

(** [word.includes(keyword)]: [keyword] occurs in [word]. *)
Fixpoint includes (word keyword : string) : bool :=
  if String.prefix keyword word then true
  else match word with
       | EmptyString => false
       | String _ r => includes r keyword
       end.

(** [array.includes(x)] on an array of strings. *)
Definition array_includes (l : list string) (x : string) : bool :=
  existsb (String.eqb x) l.

(** *** Objects used as dictionaries

    An object literal or an accumulating [Record<string, number>] is an
    association list in insertion order, which is the order
    [Object.entries], [Object.keys] and [Object.values] enumerate for keys
    that are neither array indices nor names inherited from
    [Object.prototype]; the emotion labels are neither. *)

Definition object (V : Type) := list (string * V).

Fixpoint get {V} (o : object V) (k : string) : option V :=
  match o with
  | [] => None
  | (k', v) :: r => if String.eqb k' k then Some v else get r k
  end.

(** [o[k] = v]: update in place, or append a new key. *)
Fixpoint set {V} (o : object V) (k : string) (v : V) : object V :=
  match o with
  | [] => [(k, v)]
  | (k', v') :: r => if String.eqb k' k then (k', v) :: r else (k', v') :: set r k v
  end.

(** [array.sort(compare)]: the sort is stable, so for a consistent
    comparator its result is the stable insertion sort. [compare a b] is
    [true] when the comparator's result is positive ([a] goes after [b]). *)
Fixpoint sort_insert {A} (after : A -> A -> bool) (x : A) (l : list A) : list A :=
  match l with
  | [] => [x]
  | y :: r => if after x y then y :: sort_insert after x r else x :: y :: r
  end.

Definition sort {A} (after : A -> A -> bool) (l : list A) : list A :=
  fold_right (sort_insert after) [] l.

(** A call either returns a value or throws. *)
Inductive completion (A : Type) : Type :=
| Return (a : A)
| Throw (message : string).
Arguments Return {A} a.
Arguments Throw {A} message.

End JS.

Import JS.
Local Open Scope string_scope.

(** ** The analysis result shared by the questionnaire flows *)

Record ToneAnalysis : Type := {
  confidence : number;
  energy : number;
  verbosity : number;
  hesitation : number;
  authenticity : number
}.

Record Analysis : Type := {
  emotion : string;
  tone : ToneAnalysis
}.

(** ** The loops every analyzer repeats *)

Module Heuristics.

(** [keywords.filter(keyword => words.some(word => word.includes(keyword))).length] *)
Definition keywordMatches (words keywords : list string) : nat :=
  List.length (filter (fun keyword => existsb (fun word => includes word keyword) words) keywords).

(** One turn of the loop over [Object.entries(emotionKeywords)]. *)
Definition detectStep (words : list string) (st : string * nat)
    (entry : string * list string) : string * nat :=
  let '(detectedEmotion, maxMatches) := st in
  let '(emotion, keywords) := entry in
  let matches := keywordMatches words keywords in
  if (maxMatches <? matches)%nat then (emotion, matches) else (detectedEmotion, maxMatches).

(** The loop, started from [detectedEmotion = 'neutral'], [maxMatches = 0]. *)
Definition detectLoop (emotionKeywords : object (list string)) (words : list string)
    : string * nat :=
  fold_left (detectStep words) emotionKeywords ("neutral", 0).

Definition detectEmotion (emotionKeywords : object (list string)) (words : list string)
    : string :=
  fst (detectLoop emotionKeywords words).

(** [words.filter(word => markers.some(marker => word.includes(marker))).length] *)
Definition countContaining (words markers : list string) : nat :=
  List.length (filter (fun word => existsb (fun marker => includes word marker) markers) words).

(** [text.toLowerCase().split(/\s+/).filter(word => word.length > 0)] *)
Definition tokens (text : string) : list string :=
  filter (fun word => (0 <? String.length word)%nat) (split_whitespace (toLowerCase text)).

End Heuristics.
Import Heuristics.

(** ** PsychologicalQuestionnaire.tsx *)

Module PsychologicalQuestionnaire.

Definition emotionKeywords : object (list string) :=
  [ ("joy", ["happy"; "excited"; "love"; "amazing"; "wonderful"; "great"; "fantastic"; "joy"; "delighted"]);
    ("sadness", ["sad"; "disappointed"; "hurt"; "lonely"; "depressed"; "down"; "melancholy"; "grief"]);
    ("anger", ["angry"; "frustrated"; "annoyed"; "mad"; "furious"; "irritated"; "rage"; "upset"]);
    ("fear", ["scared"; "worried"; "anxious"; "nervous"; "afraid"; "concerned"; "terrified"; "panic"]);
    ("surprise", ["surprised"; "shocked"; "unexpected"; "amazed"; "wow"; "astonished"]);
    ("contemplative", ["think"; "reflect"; "consider"; "ponder"; "wonder"; "contemplate"; "introspect"]);
    ("neutral", ["okay"; "fine"; "normal"; "usual"; "regular"; "alright"; "standard"]) ].

Definition energetic : list string :=
  ["very"; "really"; "extremely"; "absolutely"; "totally"; "completely"; "definitely"].

Definition hesitant : list string :=
  ["maybe"; "perhaps"; "think"; "probably"; "might"; "sort"; "kind"; "somewhat"; "possibly"].

Definition analyzeResponse (text : string) : Analysis :=
  let words := tokens text in
  let wordCount := List.length words in
  let detectedEmotion := detectEmotion emotionKeywords words in
  let confidence := Math_min 1 (of_nat wordCount / 15) in
  let energy :=
    (of_nat (countContaining words energetic) / Math_max (of_nat wordCount) 1)%float in
  let verbosity := Math_min 1 (of_nat wordCount / 30) in
  let hesitation :=
    (of_nat (countContaining words hesitant) / Math_max (of_nat wordCount) 1)%float in
  let authenticity :=
    Math_max 0.3
      (1 - (hesitation * 0.4) + (confidence * 0.3) - (if gt energy 0.3 then 0.1 else 0))%float in
  {| emotion := detectedEmotion;
     tone := {| confidence := round2 confidence;
                energy := round2 energy;
                verbosity := round2 verbosity;
                hesitation := round2 hesitation;
                authenticity := round2 (Math_max 0 (Math_min 1 authenticity)) |} |}.

Record Answer : Type := {
  questionId : number;
  question : string;
  answer : string;
  responseTime : number;
  wordCount : number;
  emotionDetected : string;
  toneAnalysis : ToneAnalysis
}.

Record ResponsePatterns : Type := {
  avg_word_count : number;
  avg_response_time : number;
  emotional_range : number;
  dominant_emotion : string
}.

Record PsychProfile : Type := {
  archetype : string;
  core_traits : list string;
  motivational_type : string;
  shadow_traits : list string;
  emotion_profile : string;
  honesty_index : number;
  communication_mode : string;
  tone_signature : string;
  response_patterns : ResponsePatterns
}.

Record ExtractedData : Type := {
  name : string;
  psych_profile : PsychProfile;
  answers : list Answer;
  data_consent : bool;
  session_completed_at : string
}.

(** [answers.reduce((sum, answer) => sum + f(answer), 0)] *)
Definition total (f : Answer -> number) (answers : list Answer) : number :=
  fold_left (fun sum answer => (sum + f answer)%float) answers 0%float.

(** [answers.reduce((sum, answer) => sum + f(answer), 0) / answers.length] *)
Definition average (f : Answer -> number) (answers : list Answer) : number :=
  (total f answers / of_nat (List.length answers))%float.

(** The histogram: [acc[emotion] = (acc[emotion] || 0) + 1] over the emotions.
    The accumulator of the code is a plain object. The list holds what that
    object holds, in the order [Object.entries] lists it, for keys that are
    neither integer-like nor names of [Object.prototype] ('__proto__',
    'constructor', ...); the labels of the closed set are such keys. *)
Definition countEmotions (emotions : list string) : object nat :=
  fold_left
    (fun acc emotion =>
       set acc emotion ((match get acc emotion with Some n => n | None => 0 end) + 1))
    emotions [].

(** [Object.entries(emotionCounts).sort(([,a], [,b]) => b - a)[0]?.[0] || 'neutral'] *)
Definition dominantOf (emotionCounts : object nat) : string :=
  match sort (fun x y => (snd x <? snd y)%nat) emotionCounts with
  | [] => "neutral"
  | (emotion, _) :: _ => if String.eqb emotion "" then "neutral" else emotion
  end.

(** The three labels the if-chain assigns together. *)
Definition classify (avgVerbosity avgAuthenticity avgConfidence avgHesitation : number)
    (dominantEmotion : string) : string * string * string :=
  if gt avgVerbosity 0.6 && gt avgAuthenticity 0.7 then
    ("The Reflective Storyteller", "narrative-driven introspector", "expressive and detailed")
  else if gt avgConfidence 0.7 && lt avgHesitation 0.3 then
    ("The Decisive Visionary", "action-oriented leader", "direct and confident")
  else if gt avgHesitation 0.4 && gt avgAuthenticity 0.6 then
    ("The Thoughtful Analyst", "careful contemplator", "measured and considerate")
  else if String.eqb dominantEmotion "contemplative" || String.eqb dominantEmotion "neutral" then
    ("The Philosophical Observer", "wisdom-seeking observer", "analytical and reserved")
  else
    ("The Balanced Explorer", "balanced seeker", "thoughtful").

(** [if (test) traits.push(label)] *)
Definition pushIf (test : bool) (label : string) (traits : list string) : list string :=
  if test then (traits ++ [label])%list else traits.

(** The component's closure holds [userName]; [now] is what
    [new Date().toISOString()] reads at the call. The body has no [throw]
    and calls nothing that throws. *)
Definition generatePsychologicalProfile (userName now : string)
    (answers : list Answer) (dataConsent : bool) : completion ExtractedData :=
  let totalWords := total wordCount answers in
  let avgResponseTime := average responseTime answers in
  let avgAuthenticity := average (fun a => authenticity (toneAnalysis a)) answers in
  let avgConfidence := average (fun a => confidence (toneAnalysis a)) answers in
  let avgVerbosity := average (fun a => verbosity (toneAnalysis a)) answers in
  let avgHesitation := average (fun a => hesitation (toneAnalysis a)) answers in
  let emotions := map emotionDetected answers in
  let emotionCounts := countEmotions emotions in
  let dominantEmotion := dominantOf emotionCounts in
  let '(archetype, motivationalType, communicationMode) :=
    classify avgVerbosity avgAuthenticity avgConfidence avgHesitation dominantEmotion in
  let coreTraits :=
    pushIf (gt totalWords 200) "articulate"
      (pushIf (String.eqb dominantEmotion "contemplative") "introspective"
        (pushIf (gt avgHesitation 0.4) "thoughtful"
          (pushIf (gt avgConfidence 0.6) "self-assured"
            (pushIf (gt avgVerbosity 0.5) "expressive"
              (pushIf (gt avgAuthenticity 0.7) "authentic" []))))) in
  let shadowTraits :=
    pushIf (gt avgResponseTime 60) "perfectionist tendencies"
      (pushIf (lt avgVerbosity 0.3) "communication guardedness"
        (pushIf (lt avgConfidence 0.4) "self-doubt patterns"
          (pushIf (gt avgHesitation 0.5) "tendency to overthink" []))) in
  Return
    {| name := userName;
       psych_profile :=
         {| archetype := archetype;
            core_traits := coreTraits;
            motivational_type := motivationalType;
            shadow_traits := shadowTraits;
            emotion_profile :=
              dominantEmotion ++ " dominant with "
                ++ (if gt avgAuthenticity 0.7 then "high" else "moderate") ++ " authenticity";
            honesty_index := avgAuthenticity;
            communication_mode := communicationMode;
            tone_signature :=
              (if gt avgVerbosity 0.5 then "verbose" else "concise") ++ ", "
                ++ (if gt avgConfidence 0.6 then "confident" else "measured");
            response_patterns :=
              {| avg_word_count := Math_round (totalWords / of_nat (List.length answers));
                 avg_response_time := Math_round avgResponseTime;
                 emotional_range := of_nat (List.length emotionCounts);
                 dominant_emotion := dominantEmotion |} |};
       answers := answers;
       data_consent := dataConsent;
       session_completed_at := now |}.

End PsychologicalQuestionnaire.

(** ** EnhancedPsychQuestionnaire.tsx *)

Module EnhancedPsychQuestionnaire.

Definition emotionKeywords : object (list string) :=
  [ ("joy", ["happy"; "excited"; "love"; "amazing"; "wonderful"; "great"; "fantastic"; "joy"; "delighted"; "thrilled"; "passionate"]);
    ("sadness", ["sad"; "disappointed"; "hurt"; "lonely"; "depressed"; "down"; "melancholy"; "grief"; "loss"; "empty"]);
    ("anger", ["angry"; "frustrated"; "annoyed"; "mad"; "furious"; "irritated"; "rage"; "upset"; "resentful"; "bitter"]);
    ("fear", ["scared"; "worried"; "anxious"; "nervous"; "afraid"; "concerned"; "terrified"; "panic"; "overwhelmed"]);
    ("surprise", ["surprised"; "shocked"; "unexpected"; "amazed"; "wow"; "astonished"; "stunned"; "bewildered"]);
    ("contemplative", ["think"; "reflect"; "consider"; "ponder"; "wonder"; "contemplate"; "introspect"; "analyze"; "understand"]);
    ("confident", ["confident"; "sure"; "certain"; "believe"; "know"; "trust"; "strong"; "capable"; "determined"]);
    ("vulnerable", ["vulnerable"; "uncertain"; "confused"; "lost"; "struggling"; "questioning"; "doubt"; "insecure"]);
    ("neutral", ["okay"; "fine"; "normal"; "usual"; "regular"; "alright"; "standard"; "typical"]) ].

Definition energetic : list string :=
  ["very"; "really"; "extremely"; "absolutely"; "totally"; "completely"; "definitely"; "incredibly"; "deeply"].

Definition hesitant : list string :=
  ["maybe"; "perhaps"; "think"; "probably"; "might"; "sort"; "kind"; "somewhat"; "possibly"; "guess"; "suppose"].

Definition pronouns : list string := ["i"; "me"; "my"; "myself"].

Definition analyzeResponse (text : string) : Analysis :=
  let words := tokens text in
  let wordCount := List.length words in
  let detectedEmotion := detectEmotion emotionKeywords words in
  let confidence := Math_min 1 (of_nat wordCount / 15) in
  let energy :=
    (of_nat (countContaining words energetic) / Math_max (of_nat wordCount) 1)%float in
  let verbosity := Math_min 1 (of_nat wordCount / 30) in
  let hesitation :=
    (of_nat (countContaining words hesitant) / Math_max (of_nat wordCount) 1)%float in
  let personalPronouns := List.length (filter (array_includes pronouns) words) in
  let specificDetails :=
    List.length (filter (fun word => (6 <? String.length word)%nat) words) in
  let emotionalWords := keywordMatches words (List.concat (map snd emotionKeywords)) in
  let authenticity :=
    Math_max 0.3
      ((of_nat personalPronouns / Math_max (of_nat wordCount) 1) * 0.3 +
       (of_nat specificDetails / Math_max (of_nat wordCount) 1) * 0.3 +
       (of_nat emotionalWords / Math_max (of_nat wordCount) 1) * 0.2 +
       (1 - hesitation) * 0.2)%float in
  {| emotion := detectedEmotion;
     tone := {| confidence := round2 confidence;
                energy := round2 energy;
                verbosity := round2 verbosity;
                hesitation := round2 hesitation;
                authenticity := round2 (Math_max 0 (Math_min 1 authenticity)) |} |}.

End EnhancedPsychQuestionnaire.

(** ** conversationalAI.ts *)

Module ConversationalAI.

Definition emotionKeywords : object (list string) :=
  [ ("joy", ["happy"; "excited"; "love"; "amazing"; "wonderful"; "great"; "fantastic"]);
    ("sadness", ["sad"; "disappointed"; "hurt"; "lonely"; "depressed"; "down"]);
    ("anger", ["angry"; "frustrated"; "annoyed"; "mad"; "furious"; "irritated"]);
    ("fear", ["scared"; "worried"; "anxious"; "nervous"; "afraid"; "concerned"]);
    ("surprise", ["surprised"; "shocked"; "unexpected"; "amazed"; "wow"]);
    ("neutral", ["okay"; "fine"; "normal"; "usual"; "regular"; "alright"]) ].

Definition energetic : list string :=
  ["very"; "really"; "extremely"; "absolutely"; "!"; "totally"].

Definition hesitant : list string :=
  ["maybe"; "perhaps"; "i think"; "probably"; "might"; "sort of"].

Definition analyzeUserResponse (message : string) : Analysis :=
  let words := split_space (toLowerCase message) in
  let wordCount := List.length words in
  let detectedEmotion := detectEmotion emotionKeywords words in
  let confidence := Math_min 1 (of_nat wordCount / 15) in
  let energy := (of_nat (countContaining words energetic) / of_nat wordCount)%float in
  let verbosity := Math_min 1 (of_nat wordCount / 30) in
  let hesitation := (of_nat (countContaining words hesitant) / of_nat wordCount)%float in
  let authenticity := (1 - (hesitation * 0.3) + (confidence * 0.2))%float in
  {| emotion := detectedEmotion;
     tone := {| confidence := round2 confidence;
                energy := round2 energy;
                verbosity := round2 verbosity;
                hesitation := round2 hesitation;
                authenticity := round2 (Math_max 0 (Math_min 1 authenticity)) |} |}.

End ConversationalAI.

(** ** The psychology session service *)

Module PsychologySession.

Record PsychQuestion : Type := {
  id : number;
  question : string;
  category : string;
  followUpQuestions : option (list string);
  psychologicalTarget : string;
  difficultyLevel : number
}.

Inductive ResponseMethod : Type := text | voice.

Record PsychAnswer : Type := {
  questionId : number;
  questionText : string; (* the field [question] of the interface *)
  answer : string;
  responseMethod : ResponseMethod;
  responseTimeSeconds : option number;
  emotionDetected : option string;
  toneAnalysis : option ToneAnalysis
}.

(** The private fields of the class. *)
Record t : Type := {
  sessionId : string;
  userId : string;
  questions : list PsychQuestion;
  responses : list PsychAnswer;
  currentQuestionIndex : nat
}.

(** [constructor(userId)], with the identifier [uuidv4()] returned. *)
Definition new (uuid userId : string) : t :=
  {| sessionId := uuid; userId := userId; questions := []; responses := [];
     currentQuestionIndex := 0 |}.

Definition getCurrentQuestion (s : t) : option PsychQuestion :=
  if (List.length (questions s) <=? currentQuestionIndex s)%nat then None
  else nth_error (questions s) (currentQuestionIndex s).

Definition getResponses (s : t) : list PsychAnswer := responses s.

(** [this.responses.length >= Math.min(8, this.questions.length)] *)
Definition isComplete (s : t) : bool :=
  (Nat.min 8 (List.length (questions s)) <=? List.length (responses s))%nat.

(** [Math.round((this.responses.length / Math.min(8, this.questions.length)) * 100)] *)
Definition getProgress (s : t) : number :=
  Math_round
    (of_nat (List.length (responses s))
       / of_nat (Nat.min 8 (List.length (questions s))) * 100)%float.

End PsychologySession.

(** ** Notions used to state the properties *)

Module Spec.

Import PsychologicalQuestionnaire.

(** The number of words the two questionnaire analyzers see in a text. *)
Definition wordCountOf (text : string) : nat := List.length (tokens text).

(** The number of code units in a list of words. *)
Fixpoint total_length (l : list string) : nat :=
  match l with
  | [] => 0
  | w :: r => String.length w + total_length r
  end.

(** The closed set of emotion labels. *)
Definition emotionLabels : list string :=
  ["joy"; "sadness"; "anger"; "fear"; "surprise"; "contemplative";
   "confident"; "vulnerable"; "neutral"].

(** [0 <= x <= 1] as the program would test it; false for NaN. *)
Definition in_unit (x : number) : bool := (0 <=? x)%float && (x <=? 1)%float.

Definition tone_in_unit (t : ToneAnalysis) : bool :=
  in_unit (confidence t) && in_unit (energy t) && in_unit (verbosity t)
  && in_unit (hesitation t) && in_unit (authenticity t).

(** The match count of each emotion, in the order of the mapping. *)
Definition matchCounts (emotionKeywords : object (list string)) (words : list string)
    : list nat :=
  map (fun entry => keywordMatches words (snd entry)) emotionKeywords.

(** The first emotion of the mapping whose match count is [n]. *)
Definition firstWith (words : list string) (table : object (list string)) (n : nat)
    : string :=
  match find (fun entry => (keywordMatches words (snd entry) =? n)%nat) table with
  | Some (emotion, _) => emotion
  | None => "neutral"
  end.

(** The label the detection loop is meant to return: 'neutral' when no
    keyword matches, otherwise the first emotion of the mapping, in its
    order, whose match count is the greatest. *)
Definition firstMaximal (emotionKeywords : object (list string)) (words : list string)
    : string :=
  let best := list_max (matchCounts emotionKeywords words) in
  if (best =? 0)%nat then "neutral" else firstWith words emotionKeywords best.

(** Position of the first occurrence of [e] in [l] ([length l] if none). *)
Fixpoint firstIndex (e : string) (l : list string) : nat :=
  match l with
  | [] => 0
  | x :: r => if String.eqb x e then 0 else S (firstIndex e r)
  end.

Definition occurrences (e : string) (l : list string) : nat :=
  count_occ string_dec l e.

(** What the histogram holds after the emotions [es]: one entry per
    distinct emotion, with its number of occurrences, the entries in the
    order the emotions were first met. *)
Definition histogram_of (es : list string) (o : object nat) : Prop :=
  (forall k v, In (k, v) o -> In k es /\ v = occurrences k es) /\
  (forall k, In k es -> In (k, occurrences k es) o) /\
  StronglySorted (fun k1 k2 => firstIndex k1 es < firstIndex k2 es) (map fst o).

(** What the archetype rules read: the four averaged tone metrics and the
    dominant emotion. *)
Record Means : Type := {
  avgVerbosity : number;
  avgAuthenticity : number;
  avgConfidence : number;
  avgHesitation : number;
  dominantEmotion : string
}.

Definition meansOf (answers : list Answer) : Means :=
  {| avgVerbosity := average (fun a => verbosity (toneAnalysis a)) answers;
     avgAuthenticity := average (fun a => authenticity (toneAnalysis a)) answers;
     avgConfidence := average (fun a => confidence (toneAnalysis a)) answers;
     avgHesitation := average (fun a => hesitation (toneAnalysis a)) answers;
     dominantEmotion := dominantOf (countEmotions (map emotionDetected answers)) |}.

Definition Labels : Type := string * string * string.

(** The three rules that are thresholds on the averaged tone metrics. *)
Definition toneRules : list ((Means -> bool) * Labels) :=
  [ (fun m => gt (avgVerbosity m) 0.6 && gt (avgAuthenticity m) 0.7,
     ("The Reflective Storyteller", "narrative-driven introspector", "expressive and detailed"));
    (fun m => gt (avgConfidence m) 0.7 && lt (avgHesitation m) 0.3,
     ("The Decisive Visionary", "action-oriented leader", "direct and confident"));
    (fun m => gt (avgHesitation m) 0.4 && gt (avgAuthenticity m) 0.6,
     ("The Thoughtful Analyst", "careful contemplator", "measured and considerate")) ].

(** The fourth rule reads the dominant emotion, not a tone metric. *)
Definition emotionRule : (Means -> bool) * Labels :=
  (fun m => String.eqb (dominantEmotion m) "contemplative"
            || String.eqb (dominantEmotion m) "neutral",
   ("The Philosophical Observer", "wisdom-seeking observer", "analytical and reserved")).

Definition archetypeRules : list ((Means -> bool) * Labels) :=
  (toneRules ++ [emotionRule])%list.

Definition defaultLabels : Labels :=
  ("The Balanced Explorer", "balanced seeker", "thoughtful").

(** An ordered decision list: the first rule whose test holds wins. *)
Fixpoint firstMatch (rules : list ((Means -> bool) * Labels)) (m : Means) : Labels :=
  match rules with
  | [] => defaultLabels
  | (test, labels) :: rest => if test m then labels else firstMatch rest m
  end.

Definition noneMatches (rules : list ((Means -> bool) * Labels)) (m : Means) : bool :=
  forallb (fun rule => negb (fst rule m)) rules.

Definition labelsOf (p : PsychProfile) : Labels :=
  (archetype p, motivational_type p, communication_mode p).

(** A one-answer session with the given emotion and every tone metric 0.5. *)
Definition answerWith (e : string) (x : number) : Answer :=
  {| questionId := 1; question := "q"; answer := "a"; responseTime := 5;
     wordCount := 10; emotionDetected := e;
     toneAnalysis := {| confidence := x; energy := x; verbosity := x;
                        hesitation := x; authenticity := x |} |}.

End Spec.

(** ** Real values of binary64 numbers *)

Module Binary64.

(** [2^e] as a real number. *)
Definition bpow (e : Z) : R := powerRZ 2 e.

(** The real value of a zero or of a positive finite number. *)
Definition valR (x : spec_float) : R :=
  match x with
  | S754_finite false m e => IZR (Zpos m) * bpow e
  | _ => 0
  end.

Definition val (x : number) : R := valR (Prim2SF x).

(** [x] is a zero or a positive finite number. *)
Definition nonneg_finite (x : number) : Prop :=
  match Prim2SF x with
  | S754_zero _ => True
  | S754_finite false _ _ => True
  | _ => False
  end.

(** [x] is a zero or a finite number of either sign. *)
Definition finite (x : number) : Prop :=
  match Prim2SF x with
  | S754_zero _ => True
  | S754_finite _ _ _ => True
  | _ => False
  end.

Definition not_nan (x : number) : Prop := Prim2SF x <> S754_nan.

(** [c] is a rounding of the real [x]: within two units in the last place
    (a crude but sufficient bound on the rounding error). *)
Definition rounds (c x : R) : Prop :=
  (Rabs (c - x) <= bpow (-51) * c + bpow (-1073))%R.

(** [x] is non-negative, finite and at most [2^E]. *)
Definition below (E : Z) (x : number) : Prop :=
  nonneg_finite x /\ (val x <= bpow E)%R.

End Binary64.

(** ** Sample data *)

Module Samples.
Import PsychologySession.

Definition sampleQuestion (n : number) : PsychQuestion :=
  {| id := n; question := "q"; category := "c"; followUpQuestions := None;
     psychologicalTarget := "t"; difficultyLevel := 1 |}.

Definition sampleAnswer (n : number) : PsychAnswer :=
  {| questionId := n; questionText := "q"; answer := "a"; responseMethod := text;
     responseTimeSeconds := None; emotionDetected := None; toneAnalysis := None |}.

(** A bank of three questions, all three answered. *)
Definition shortSession : PsychologySession.t :=
  {| sessionId := "s"; userId := "u";
     questions := [sampleQuestion 1; sampleQuestion 2; sampleQuestion 3];
     responses := [sampleAnswer 1; sampleAnswer 2; sampleAnswer 3];
     currentQuestionIndex := 3 |}.

End Samples.

(** ** Further built-ins of the language *)

Module Builtins.

(** [Math.floor(x)]: NaN, the infinities, the zeros and the integers are
    returned as they are. *)
Definition Math_floor (x : number) : number :=
  match Prim2SF x with
  | S754_finite s m e =>
      if (0 <=? e)%Z then x
      else
        let k := Z.div (if s then Zneg m else Zpos m) (Z.pow 2 (- e)) in
        if (k =? 0)%Z then PrimFloat.zero else of_Z k
  | _ => x
  end.

(** [s.trim()]: the white space stripped at both ends is the class [\s]. *)
Fixpoint trimStart (s : string) : string :=
  match s with
  | EmptyString => EmptyString
  | String c r => if isWhiteSpace c then trimStart r else s
  end.

Fixpoint trimEnd (s : string) : string :=
  match s with
  | EmptyString => EmptyString
  | String c r =>
      match trimEnd r with
      | EmptyString => if isWhiteSpace c then EmptyString else String c EmptyString
      | r' => String c r'
      end
  end.

Definition trim (s : string) : string := trimEnd (trimStart s).

(** [!s] on a string: only the empty string is falsy. *)
Definition falsy (s : string) : bool :=
  match s with EmptyString => true | _ => false end.

(** [array.join(sep)] on an array of strings. *)
Fixpoint join (sep : string) (l : list string) : string :=
  match l with
  | [] => EmptyString
  | x :: r => match r with [] => x | _ => x ++ sep ++ join sep r end
  end.

(** The array index a number denotes as a property key: a non-negative
    integer ([-0] is index 0); no index for the other numbers. *)
Definition index_of (x : number) : option nat :=
  match Prim2SF x with
  | S754_zero _ => Some 0
  | S754_finite false m e =>
      if (0 <=? e)%Z then Some (Z.to_nat (Zpos m * 2 ^ e))
      else if (Zpos m mod 2 ^ (- e) =? 0)%Z then Some (Z.to_nat (Zpos m / 2 ^ (- e)))
      else None
  | _ => None
  end.

(** [array[x]]: [None] is [undefined]. *)
Definition elementAt {A} (array : list A) (x : number) : option A :=
  match index_of x with
  | Some i => nth_error array i
  | None => None
  end.

(** The decimal digits of a count, as a template literal prints it. *)
Fixpoint digitsOf (fuel n : nat) (acc : string) : string :=
  match fuel with
  | 0 => acc
  | S fuel' =>
      let acc' := String (ascii_of_nat (48 + n mod 10)) acc in
      if (n / 10 =? 0)%nat then acc' else digitsOf fuel' (n / 10) acc'
  end.

Definition toStringNat (n : nat) : string := digitsOf (S n) n EmptyString.

End Builtins.
Import Builtins.

(** ** psychologyService.ts: the methods of [PsychologySession] that
    analyse and store an answer *)

Module PsychologyService.
Import PsychologySession.

Definition emotionKeywords : object (list string) :=
  [ ("joy", ["happy"; "excited"; "love"; "amazing"; "wonderful"; "great"]);
    ("sadness", ["sad"; "disappointed"; "hurt"; "lonely"; "depressed"]);
    ("anger", ["angry"; "frustrated"; "annoyed"; "mad"; "furious"]);
    ("fear", ["scared"; "worried"; "anxious"; "nervous"; "afraid"]);
    ("surprise", ["surprised"; "shocked"; "unexpected"; "amazed"]);
    ("neutral", ["okay"; "fine"; "normal"; "usual"; "regular"]) ].

Definition energetic : list string :=
  ["very"; "really"; "extremely"; "absolutely"; "!"].

Definition hesitant : list string :=
  ["maybe"; "perhaps"; "i think"; "probably"; "might"].

(** What the private method [analyzeResponse] returns. *)
Record ResponseAnalysis : Type := {
  emotion : string;
  tone : ToneAnalysis;
  honestyScore : number;
  confidenceLevel : number
}.

(** [method] is not read by the body. *)
Definition analyzeResponse (answer : string) (method : ResponseMethod) : ResponseAnalysis :=
  let words := split_space (toLowerCase answer) in
  let wordCount := List.length words in
  let detectedEmotion := detectEmotion emotionKeywords words in
  let confidence := Math_min 1 (of_nat wordCount / 20) in
  let energy := (of_nat (countContaining words energetic) / of_nat wordCount)%float in
  let verbosity := Math_min 1 (of_nat wordCount / 50) in
  let hesitation := (of_nat (countContaining words hesitant) / of_nat wordCount)%float in
  let authenticity := (1 - (hesitation * 0.3) + (confidence * 0.2))%float in
  {| emotion := detectedEmotion;
     tone := {| confidence := round2 confidence;
                energy := round2 energy;
                verbosity := round2 verbosity;
                hesitation := round2 hesitation;
                authenticity := round2 (Math_max 0 (Math_min 1 authenticity)) |};
     honestyScore := round2 (Math_max 0.3 authenticity);
     confidenceLevel := round2 confidence |}.

(** The row [submitAnswer] offers to the table [psych_responses]. *)
Record ResponseRow : Type := {
  user_id : string;
  session_id : string;
  question_id : number;
  question : string;
  answer : string;
  response_method : ResponseMethod;
  tone_analysis : ToneAnalysis;
  emotion_detected : string;
  honesty_score : number;
  confidence_level : number;
  response_time_seconds : option number;
  word_count : number
}.

(** [submitAnswer(answer)]. [reply] is what awaiting the insertion yields:
    the [error] field of the result ([None] for [null]), or an exception of
    the client. The method returns the session as it leaves it, the row it
    offered, and how it completes. *)
Definition submitAnswer (reply : completion (option string)) (s : PsychologySession.t)
    (a : PsychAnswer) : PsychologySession.t * ResponseRow * completion unit :=
  let analysis := analyzeResponse (PsychologySession.answer a) (responseMethod a) in
  let enhancedAnswer :=
    {| questionId := questionId a;
       questionText := questionText a;
       PsychologySession.answer := PsychologySession.answer a;
       responseMethod := responseMethod a;
       responseTimeSeconds := responseTimeSeconds a;
       emotionDetected := Some (emotion analysis);
       toneAnalysis := Some (tone analysis) |} in
  let pushed :=
    {| sessionId := sessionId s; userId := userId s; questions := questions s;
       responses := (responses s ++ [enhancedAnswer])%list;
       currentQuestionIndex := currentQuestionIndex s |} in
  let responseData :=
    {| user_id := userId s;
       session_id := sessionId s;
       question_id := questionId a;
       question := questionText a;
       answer := PsychologySession.answer a;
       response_method := responseMethod a;
       tone_analysis := tone analysis;
       emotion_detected := emotion analysis;
       honesty_score := honestyScore analysis;
       confidence_level := confidenceLevel analysis;
       response_time_seconds := responseTimeSeconds a;
       word_count := of_nat (List.length (split_space (PsychologySession.answer a))) |} in
  match reply with
  | Throw e => (pushed, responseData, Throw e)
  | Return (Some message) =>
      (pushed, responseData, Throw ("Failed to save response: " ++ message))
  | Return None =>
      ({| sessionId := sessionId s; userId := userId s; questions := questions s;
          responses := responses pushed;
          currentQuestionIndex := S (currentQuestionIndex s) |},
       responseData, Return tt)
  end.

(** A run of [submitAnswer] calls, each with the reply of the database to
    it; an exception of one call does not stop the caller from calling
    again (the questionnaire component catches it). *)
Definition submitAll (s : PsychologySession.t)
    (calls : list (completion (option string) * PsychAnswer)) : PsychologySession.t :=
  fold_left (fun st call => fst (fst (submitAnswer (fst call) st (snd call)))) calls s.

(** The calls whose insertion succeeded. *)
Definition saved (calls : list (completion (option string) * PsychAnswer)) : nat :=
  List.length
    (filter (fun call => match fst call with Return None => true | _ => false end) calls).

End PsychologyService.

(** ** PsychologicalQuestionnaire.tsx: the state of the component and its
    handlers

    A handler runs against the state of the render that created it; the
    updates it schedules, and the effects they trigger, make the state of
    the next render. One submission is handled at a time. *)

Module PsychologicalQuestionnaireComponent.
Import PsychologicalQuestionnaire.

Record Question : Type := {
  id : number;
  text : string;
  tier : number;
  category : string
}.

Definition PSYCHOLOGICAL_QUESTIONS : list Question :=
  [ {| id := 1; text := "What's something you care about deeply but rarely talk about?";
       tier := 1; category := "core_values" |};
    {| id := 2; text := "What's a decision you've made that still shapes how you see the world?";
       tier := 1; category := "formative_experiences" |};
    {| id := 3; text := "What gives your life meaning right now?";
       tier := 1; category := "purpose_motivation" |};
    {| id := 4; text := "Have you ever claimed something about yourself that you weren't entirely sure was true?";
       tier := 2; category := "self_perception" |};
    {| id := 5; text := "What do people assume about you that isn't entirely wrong, but isn't the whole story either?";
       tier := 2; category := "social_perception" |};
    {| id := 6; text := "If your thoughts had a texture today, what would they feel like and why?";
       tier := 3; category := "emotional_state" |};
    {| id := 7; text := "If you had to paint your personality in 3 brush strokes, what colors would you choose?";
       tier := 3; category := "self_expression" |};
    {| id := 8; text := "Is there a part of yourself you show only to gain advantage? What is it?";
       tier := 4; category := "shadow_traits" |};
    {| id := 9; text := "Do you feel more comfortable leading openly, or influencing subtly from the background? Why?";
       tier := 4; category := "power_dynamics" |} ].

(** The [useState] cells. *)
Record State : Type := {
  currentQuestionIndex : nat;
  answers : list Answer;
  currentAnswer : string;
  startTime : number;
  isSubmitting : bool;
  showConsent : bool;
  consentGiven : bool;
  allowDataUsage : bool
}.

(** The state once the component is mounted; [mounted] is what
    [Date.now()] reads in the effect of the first render. *)
Definition initial (mounted : number) : State :=
  {| currentQuestionIndex := 0; answers := []; currentAnswer := ""; startTime := mounted;
     isSubmitting := false; showConsent := true; consentGiven := false;
     allowDataUsage := false |}.

Definition currentQuestion (s : State) : option Question :=
  nth_error PSYCHOLOGICAL_QUESTIONS (currentQuestionIndex s).

(** [currentQuestionIndex >= PSYCHOLOGICAL_QUESTIONS.length] *)
Definition isComplete (s : State) : bool :=
  (List.length PSYCHOLOGICAL_QUESTIONS <=? currentQuestionIndex s)%nat.

(** What the clock reads during one submission: [Date.now()] in the
    handler, [new Date().toISOString()] in [generatePsychologicalProfile],
    [Date.now()] in the effect that runs when the question changes. *)
Record Readings : Type := {
  submittedAt : number;
  completedAt : string;
  shownAt : number
}.

(** [handleSubmitAnswer], with the callback it hands to [setTimeout] and
    the effect on [currentQuestionIndex]. It returns the state of the next
    render and the data passed to [onComplete], if any. *)
Definition handleSubmitAnswer (userName : string) (r : Readings) (s : State)
    : State * list ExtractedData :=
  match currentQuestion s with
  | None => (s, [])
  | Some q =>
      if falsy (trim (currentAnswer s)) then (s, [])
      else
        let responseTime := Math_floor ((submittedAt r - startTime s) / 1000) in
        let analysis := analyzeResponse (trim (currentAnswer s)) in
        let answer :=
          {| questionId := id q;
             question := text q;
             PsychologicalQuestionnaire.answer := trim (currentAnswer s);
             responseTime := responseTime;
             wordCount := of_nat (List.length (split_whitespace (trim (currentAnswer s))));
             emotionDetected := emotion analysis;
             toneAnalysis := tone analysis |} in
        let newAnswers := (answers s ++ [answer])%list in
        if (currentQuestionIndex s <? List.length PSYCHOLOGICAL_QUESTIONS - 1)%nat then
          ({| currentQuestionIndex := S (currentQuestionIndex s);
              answers := newAnswers;
              currentAnswer := "";
              startTime := shownAt r;
              isSubmitting := false;
              showConsent := showConsent s;
              consentGiven := consentGiven s;
              allowDataUsage := allowDataUsage s |}, [])
        else
          match generatePsychologicalProfile userName (completedAt r) newAnswers
                  (allowDataUsage s) with
          | Return extractedData =>
              ({| currentQuestionIndex := currentQuestionIndex s;
                  answers := newAnswers;
                  currentAnswer := currentAnswer s;
                  startTime := startTime s;
                  isSubmitting := false;
                  showConsent := showConsent s;
                  consentGiven := consentGiven s;
                  allowDataUsage := allowDataUsage s |}, [extractedData])
          | Throw _ =>
              ({| currentQuestionIndex := currentQuestionIndex s;
                  answers := newAnswers;
                  currentAnswer := currentAnswer s;
                  startTime := startTime s;
                  isSubmitting := true;
                  showConsent := showConsent s;
                  consentGiven := consentGiven s;
                  allowDataUsage := allowDataUsage s |}, [])
          end
  end.

(** What the user does. *)
Inductive Event : Type :=
| SetAllowDataUsage (checked : bool)
| BeginAssessment
| SetCurrentAnswer (value : string)
| SubmitAnswer (r : Readings).

Definition dispatch (userName : string) (s : State) (e : Event)
    : State * list ExtractedData :=
  match e with
  | SetAllowDataUsage checked =>
      ({| currentQuestionIndex := currentQuestionIndex s; answers := answers s;
          currentAnswer := currentAnswer s; startTime := startTime s;
          isSubmitting := isSubmitting s; showConsent := showConsent s;
          consentGiven := consentGiven s; allowDataUsage := checked |}, [])
  | BeginAssessment =>
      ({| currentQuestionIndex := currentQuestionIndex s; answers := answers s;
          currentAnswer := currentAnswer s; startTime := startTime s;
          isSubmitting := isSubmitting s; showConsent := false;
          consentGiven := true; allowDataUsage := allowDataUsage s |}, [])
  | SetCurrentAnswer value =>
      ({| currentQuestionIndex := currentQuestionIndex s; answers := answers s;
          currentAnswer := value; startTime := startTime s;
          isSubmitting := isSubmitting s; showConsent := showConsent s;
          consentGiven := consentGiven s; allowDataUsage := allowDataUsage s |}, [])
  | SubmitAnswer r => handleSubmitAnswer userName r s
  end.

(** The state after a sequence of events, and what [onComplete] has
    received, the first delivery first. *)
Definition run (userName : string) (mounted : number) (events : list Event)
    : State * list ExtractedData :=
  fold_left
    (fun st e => let '(s', delivered) := dispatch userName (fst st) e in
                 (s', (snd st ++ delivered)%list))
    events (initial mounted, []).

End PsychologicalQuestionnaireComponent.

(** ** EnhancedPsychQuestionnaire.tsx: the state of the component and its
    handlers *)

Module EnhancedPsychQuestionnaireComponent.

(** [text] is [None] for [undefined], which reading [fallbackQuestions]
    out of range gives; [isDynamic] is [None] where the literal omits it. *)
Record Question : Type := {
  id : number;
  text : option string;
  tier : number;
  category : string;
  isDynamic : option bool
}.

Record Answer : Type := {
  questionId : number;
  question : option string;
  answer : string;
  responseTime : number;
  wordCount : number;
  emotionDetected : string;
  toneAnalysis : ToneAnalysis
}.

Definition FOUNDATIONAL_QUESTIONS : list Question :=
  [ {| id := 1; text := Some "What's something you care about deeply but rarely talk about?";
       tier := 1; category := "core_values"; isDynamic := None |};
    {| id := 2; text := Some "What's a decision you've made that still shapes how you see the world?";
       tier := 1; category := "formative_experiences"; isDynamic := None |};
    {| id := 3; text := Some "What gives your life meaning right now?";
       tier := 1; category := "purpose_motivation"; isDynamic := None |} ].

Definition fallbackQuestions : list string :=
  [ "What's a strength you've exaggerated to others?";
    "If your thoughts had a texture today, what would they feel like?";
    "Do you feel more comfortable leading openly, or influencing subtly from the background?" ].

Record State : Type := {
  currentQuestionIndex : nat;
  questions : list Question;
  answers : list Answer;
  currentAnswer : string;
  startTime : number;
  isSubmitting : bool;
  isGeneratingQuestion : bool;
  showConsent : bool;
  allowDataUsage : bool;
  gender : string
}.

Definition initial (mounted : number) : State :=
  {| currentQuestionIndex := 0; questions := FOUNDATIONAL_QUESTIONS; answers := [];
     currentAnswer := ""; startTime := mounted; isSubmitting := false;
     isGeneratingQuestion := false; showConsent := true; allowDataUsage := false;
     gender := "" |}.

Definition currentQuestion (s : State) : option Question :=
  nth_error (questions s) (currentQuestionIndex s).

(** [currentQuestionIndex >= questions.length && questions.length >= 9] *)
Definition isComplete (s : State) : bool :=
  (List.length (questions s) <=? currentQuestionIndex s)%nat
  && (9 <=? List.length (questions s))%nat.

(** The question [generateNextQuestion(currentAnswers)] appends, if any.
    [snapshot] is the question list of the render the handler belongs to;
    [generated] is how awaiting [geminiAI.generateDynamicQuestion] ends;
    [random] is what [Math.random()] returns in the [catch] branch.
    [Math.floor(currentAnswers.length / 2)] is the integer quotient. *)
Definition generateNextQuestion (snapshot : list Question) (generated : completion string)
    (random : number) (currentAnswers : list Answer) : option Question :=
  if (List.length currentAnswers <? 3)%nat then None
  else
    let currentTier := Nat.min 4 (List.length currentAnswers / 2 + 1) in
    match generated with
    | Return dynamicQuestion =>
        Some {| id := of_nat (List.length snapshot + 1);
                text := Some dynamicQuestion;
                tier := of_nat currentTier;
                category := "dynamic_tier_" ++ toStringNat currentTier;
                isDynamic := Some true |}
    | Throw _ =>
        Some {| id := of_nat (List.length snapshot + 1);
                text := elementAt fallbackQuestions
                          (Math_floor (random * of_nat (List.length fallbackQuestions)));
                tier := 3;
                category := "fallback";
                isDynamic := Some true |}
    end.

Section FinalProfile.

(** What [geminiAI.analyzePsychologicalProfile] resolves to: parsed JSON. *)
Variable PsychologicalProfile : Type.

(** The two shapes [generateFinalProfile] passes to [onComplete]. *)
Record FullData : Type := {
  name : string;
  full_gender : string;
  psych_profile : PsychologicalProfile;
  full_answers : list Answer;
  data_consent : bool;
  session_completed_at : string;
  total_questions : number;
  avg_response_time : number;
  total_words : number;
  emotional_journey : list string;
  authenticity_progression : list number
}.

Record BasicData : Type := {
  basic_name : string;
  basic_gender : string;
  basic_answers : list Answer;
  basic_data_consent : bool;
  basic_session_completed_at : string
}.

Inductive Delivered : Type :=
| Full (data : FullData)
| Basic (data : BasicData).

Definition deliveredAnswers (d : Delivered) : list Answer :=
  match d with
  | Full data => full_answers data
  | Basic data => basic_answers data
  end.

(** [generateFinalProfile(answers)]: [analysed] is how awaiting
    [geminiAI.analyzePsychologicalProfile] ends, [now] what
    [new Date().toISOString()] reads. *)
Definition generateFinalProfile (userName : string) (s : State)
    (analysed : completion PsychologicalProfile) (now : string) (answers : list Answer)
    : Delivered :=
  match analysed with
  | Return psychProfile =>
      Full {| name := userName;
              full_gender := gender s;
              psych_profile := psychProfile;
              full_answers := answers;
              data_consent := allowDataUsage s;
              session_completed_at := now;
              total_questions := of_nat (List.length answers);
              avg_response_time :=
                (fold_left (fun sum a => sum + responseTime a) answers 0
                 / of_nat (List.length answers))%float;
              total_words := fold_left (fun sum a => (sum + wordCount a)%float) answers 0%float;
              emotional_journey := map emotionDetected answers;
              authenticity_progression := map (fun a => authenticity (toneAnalysis a)) answers |}
  | Throw _ =>
      Basic {| basic_name := userName;
               basic_gender := gender s;
               basic_answers := answers;
               basic_data_consent := allowDataUsage s;
               basic_session_completed_at := now |}
  end.

(** What the outside world answers during one submission. *)
Record Readings : Type := {
  submittedAt : number;                       (* [Date.now()] in the handler *)
  generated : completion string;              (* [geminiAI.generateDynamicQuestion] *)
  random : number;                            (* [Math.random()] *)
  analysed : completion PsychologicalProfile; (* [geminiAI.analyzePsychologicalProfile] *)
  completedAt : string;                       (* [new Date().toISOString()] *)
  shownAt : number                            (* [Date.now()] in the effect on the index *)
}.

(** [handleSubmitAnswer]. The tests of the callback handed to [setTimeout]
    read [currentQuestionIndex] and [questions] of the render the handler
    belongs to: the question [generateNextQuestion] has just appended is
    not in that [questions]. *)
Definition handleSubmitAnswer (userName : string) (r : Readings) (s : State)
    : State * list Delivered :=
  match currentQuestion s with
  | None => (s, [])
  | Some q =>
      if falsy (trim (currentAnswer s)) then (s, [])
      else
        let responseTime := Math_floor ((submittedAt r - startTime s) / 1000) in
        let analysis := EnhancedPsychQuestionnaire.analyzeResponse (trim (currentAnswer s)) in
        let answer :=
          {| questionId := id q;
             question := text q;
             answer := trim (currentAnswer s);
             responseTime := responseTime;
             wordCount := of_nat (List.length (split_whitespace (trim (currentAnswer s))));
             emotionDetected := emotion analysis;
             toneAnalysis := tone analysis |} in
        let newAnswers := (answers s ++ [answer])%list in
        let questions' :=
          if (List.length newAnswers <? 9)%nat && (3 <=? List.length newAnswers)%nat then
            match generateNextQuestion (questions s) (generated r) (random r) newAnswers with
            | Some newQuestion => (questions s ++ [newQuestion])%list
            | None => questions s
            end
          else questions s in
        if (currentQuestionIndex s <? List.length (questions s) - 1)%nat
           && (List.length newAnswers <? 9)%nat then
          ({| currentQuestionIndex := S (currentQuestionIndex s);
              questions := questions';
              answers := newAnswers;
              currentAnswer := "";
              startTime := shownAt r;
              isSubmitting := false;
              isGeneratingQuestion := false;
              showConsent := showConsent s;
              allowDataUsage := allowDataUsage s;
              gender := gender s |}, [])
        else
          ({| currentQuestionIndex := currentQuestionIndex s;
              questions := questions';
              answers := newAnswers;
              currentAnswer := currentAnswer s;
              startTime := startTime s;
              isSubmitting := false;
              isGeneratingQuestion := false;
              showConsent := showConsent s;
              allowDataUsage := allowDataUsage s;
              gender := gender s |},
           if (9 <=? List.length newAnswers)%nat
           then [generateFinalProfile userName s (analysed r) (completedAt r) newAnswers]
           else [])
  end.

Inductive Event : Type :=
| SetGender (option : string)
| SetAllowDataUsage (checked : bool)
| BeginAssessment
| SetCurrentAnswer (value : string)
| SubmitAnswer (r : Readings).

Definition dispatch (userName : string) (s : State) (e : Event) : State * list Delivered :=
  match e with
  | SetGender option =>
      ({| currentQuestionIndex := currentQuestionIndex s; questions := questions s;
          answers := answers s; currentAnswer := currentAnswer s; startTime := startTime s;
          isSubmitting := isSubmitting s; isGeneratingQuestion := isGeneratingQuestion s;
          showConsent := showConsent s; allowDataUsage := allowDataUsage s;
          gender := option |}, [])
  | SetAllowDataUsage checked =>
      ({| currentQuestionIndex := currentQuestionIndex s; questions := questions s;
          answers := answers s; currentAnswer := currentAnswer s; startTime := startTime s;
          isSubmitting := isSubmitting s; isGeneratingQuestion := isGeneratingQuestion s;
          showConsent := showConsent s; allowDataUsage := checked;
          gender := gender s |}, [])
  | BeginAssessment =>
      ({| currentQuestionIndex := currentQuestionIndex s; questions := questions s;
          answers := answers s; currentAnswer := currentAnswer s; startTime := startTime s;
          isSubmitting := isSubmitting s; isGeneratingQuestion := isGeneratingQuestion s;
          showConsent := false; allowDataUsage := allowDataUsage s;
          gender := gender s |}, [])
  | SetCurrentAnswer value =>
      ({| currentQuestionIndex := currentQuestionIndex s; questions := questions s;
          answers := answers s; currentAnswer := value; startTime := startTime s;
          isSubmitting := isSubmitting s; isGeneratingQuestion := isGeneratingQuestion s;
          showConsent := showConsent s; allowDataUsage := allowDataUsage s;
          gender := gender s |}, [])
  | SubmitAnswer r => handleSubmitAnswer userName r s
  end.

Definition run (userName : string) (mounted : number) (events : list Event)
    : State * list Delivered :=
  fold_left
    (fun st e => let '(s', delivered) := dispatch userName (fst st) e in
                 (s', (snd st ++ delivered)%list))
    events (initial mounted, []).

End FinalProfile.

End EnhancedPsychQuestionnaireComponent.

(** ** Values of a [Record<string, any>] *)

Module Values.

(** The values such a record holds here: strings, booleans,
    [null], [undefined], plain objects (whose content their conversion to
    a string does not read) and arrays of such values. *)
#[warnings="-register-all"] Inductive value : Type :=
| VUndefined
| VNull
| VBoolean (b : bool)
| VString (s : string)
| VObject
| VArray (items : list value).

(** [String(v)]; an array is its elements joined by commas, [null] and
    [undefined] elements counting as empty. *)
Fixpoint ToString (v : value) : string :=
  match v with
  | VUndefined => "undefined"
  | VNull => "null"
  | VBoolean b => if b then "true" else "false"
  | VString s => s
  | VObject => "[object Object]"
  | VArray items =>
      join ","
        (map (fun item => match item with
                          | VUndefined | VNull => EmptyString
                          | _ => ToString item
                          end) items)
  end.

(** What [join] makes of one element. *)
Definition elementString (v : value) : string :=
  match v with
  | VUndefined | VNull => EmptyString
  | _ => ToString v
  end.

(** [!!v]: [undefined], [null], [false] and the empty string are falsy;
    objects and arrays are truthy. *)
Definition truthy (v : value) : bool :=
  match v with
  | VUndefined | VNull => false
  | VBoolean b => b
  | VString s => negb (falsy s)
  | VObject | VArray _ => true
  end.

(** [!!record.key]: a missing key reads [undefined]. *)
Definition holds (record : object value) (key : string) : bool :=
  match get record key with
  | Some v => truthy v
  | None => false
  end.

End Values.
Import Values.

(** ** reportService.ts: the archetype of the final report *)

Module ReportService.

Record Archetype : Type := {
  name : string;
  description : string;
  inspirationalLine : string
}.

(** [conversationData] lists the entries in the order [Object.values]
    enumerates them. *)
Definition determineArchetype (conversationData : object value) : Archetype :=
  let responses :=
    toLowerCase (join " " (map (fun entry => elementString (snd entry)) conversationData)) in
  if includes responses "creative" || includes responses "art"
     || includes responses "imagination" then
    {| name := "The Visionary Creator";
       description := "A soul driven by imagination and the desire to bring beauty into the world.";
       inspirationalLine := "Your creativity is your superpower - use it to illuminate the world." |}
  else if includes responses "help" || includes responses "care"
          || includes responses "support" then
    {| name := "The Compassionate Guide";
       description := "A natural healer who finds purpose in lifting others up.";
       inspirationalLine := "Your empathy is a gift that transforms lives wherever you go." |}
  else if includes responses "learn" || includes responses "knowledge"
          || includes responses "understand" then
    {| name := "The Wise Seeker";
       description := "An eternal student of life, always growing and evolving.";
       inspirationalLine := "Your curiosity opens doors to infinite possibilities." |}
  else if includes responses "lead" || includes responses "change"
          || includes responses "impact" then
    {| name := "The Transformative Leader";
       description := "A catalyst for positive change in the world.";
       inspirationalLine := "Your vision has the power to reshape reality." |}
  else
    {| name := "The Balanced Explorer";
       description := "A harmonious soul who finds beauty in life's journey.";
       inspirationalLine := "Your authentic self is exactly what the world needs." |}.

End ReportService.

(** ** Regular expressions

    The fragment of the ECMAScript pattern language the conversational
    service uses, matched by backtracking as [RegExp.prototype.exec]
    specifies: alternatives are tried from left to right, quantifiers are
    greedy, the leftmost match wins. *)

Module RegExp.

Inductive regex : Type :=
| Empty
| Char (test : ascii -> bool)            (* one code unit of a class *)
| Seq (r1 r2 : regex)
| Alt (r1 r2 : regex)                    (* r1|r2 *)
| Group (k : nat) (r : regex)            (* the capturing group number k *)
| Repeat (min extra : nat) (r : regex)   (* r{min,min+extra} *)
| Many (min : nat) (test : ascii -> bool). (* [class]{min,} *)

(** Where the matcher stands: the input left to read, the index reached,
    and the captures, each a pair of indices. *)
Record state : Type := {
  rest : string;
  pos : nat;
  caps : list (nat * (nat * nat))
}.

Definition continuation : Type := state -> option state.

Definition setcap (k : nat) (range : nat * nat) (caps : list (nat * (nat * nat)))
    : list (nat * (nat * nat)) :=
  (k, range) :: filter (fun entry => negb (fst entry =? k)%nat) caps.

(** The captures of the groups [inner] are reset when a repetition starts
    an iteration. *)
Definition clear (inner : list nat) (x : state) : state :=
  {| rest := rest x; pos := pos x;
     caps := filter (fun entry => negb (existsb (Nat.eqb (fst entry)) inner)) (caps x) |}.

Fixpoint groupsOf (r : regex) : list nat :=
  match r with
  | Empty | Char _ | Many _ _ => []
  | Seq r1 r2 | Alt r1 r2 => (groupsOf r1 ++ groupsOf r2)%list
  | Group k r1 => k :: groupsOf r1
  | Repeat _ _ r1 => groupsOf r1
  end.

(** The [min] mandatory iterations of a quantifier. *)
Fixpoint atLeast (m : continuation -> continuation) (inner : list nat) (min : nat)
    (c : continuation) (x : state) : option state :=
  match min with
  | 0 => c x
  | S min' => m (atLeast m inner min' c) (clear inner x)
  end.

(** Its optional iterations, the longest attempt first; an iteration that
    reads nothing is refused. *)
Fixpoint atMost (m : continuation -> continuation) (inner : list nat) (extra : nat)
    (c : continuation) (x : state) : option state :=
  match extra with
  | 0 => c x
  | S extra' =>
      match m (fun y => if (pos y =? pos x)%nat then None else atMost m inner extra' c y)
              (clear inner x) with
      | Some z => Some z
      | None => c x
      end
  end.

(** An unbounded repetition of a class. *)
Fixpoint many (test : ascii -> bool) (min : nat) (c : continuation)
    (input : string) (p : nat) (cs : list (nat * (nat * nat))) : option state :=
  match input with
  | String ch input' =>
      if test ch then
        match many test (Nat.pred min) c input' (S p) cs with
        | Some z => Some z
        | None => if (min =? 0)%nat then c {| rest := input; pos := p; caps := cs |} else None
        end
      else if (min =? 0)%nat then c {| rest := input; pos := p; caps := cs |} else None
  | EmptyString =>
      if (min =? 0)%nat then c {| rest := input; pos := p; caps := cs |} else None
  end.

Fixpoint matcher (r : regex) (c : continuation) (x : state) {struct r} : option state :=
  match r with
  | Empty => c x
  | Char test =>
      match rest x with
      | String ch input' =>
          if test ch then c {| rest := input'; pos := S (pos x); caps := caps x |} else None
      | EmptyString => None
      end
  | Seq r1 r2 => matcher r1 (matcher r2 c) x
  | Alt r1 r2 =>
      match matcher r1 c x with
      | Some z => Some z
      | None => matcher r2 c x
      end
  | Group k r1 =>
      matcher r1
        (fun y => c {| rest := rest y; pos := pos y;
                       caps := setcap k (pos x, pos y) (caps y) |}) x
  | Repeat min extra r1 =>
      atLeast (matcher r1) (groupsOf r1) min (atMost (matcher r1) (groupsOf r1) extra c) x
  | Many min test => many test min c (rest x) (pos x) (caps x)
  end.

(** The leftmost match: the index it starts at and the final state. *)
Fixpoint search (r : regex) (input : string) (start : nat) : option (nat * state) :=
  match matcher r Some {| rest := input; pos := start; caps := [] |} with
  | Some z => Some (start, z)
  | None =>
      match input with
      | EmptyString => None
      | String _ input' => search r input' (S start)
      end
  end.

(** The array [s.match(r)] returns for a pattern without the flag [g]:
    [whole] is its element 0, [group k] its element [k] ([None] for
    [undefined]). *)
Record Match : Type := {
  whole : string;
  group : nat -> option string
}.

Definition exec (r : regex) (s : string) : option Match :=
  match search r s 0 with
  | Some (start, z) =>
      Some {| whole := substring start (pos z - start) s;
              group := fun k =>
                match find (fun entry => (fst entry =? k)%nat) (caps z) with
                | Some (_, (a, b)) => Some (substring a (b - a) s)
                | None => None
                end |}
  | None => None
  end.

(** *** Classes and literals *)

Definition digit (c : ascii) : bool := (48 <=? code c)%nat && (code c <=? 57)%nat.

Definition letter (c : ascii) : bool :=
  ((97 <=? code c)%nat && (code c <=? 122)%nat)
  || ((65 <=? code c)%nat && (code c <=? 90)%nat).

Definition oneOf (set : string) (c : ascii) : bool :=
  existsb (Ascii.eqb c) (list_ascii_of_string set).

(** The canonical form the flag [i] compares: the upper case of a letter
    of Latin-1 that has one in Latin-1. *)
Definition canonicalize (c : ascii) : ascii :=
  let n := code c in
  if ((97 <=? n)%nat && (n <=? 122)%nat)
     || ((224 <=? n)%nat && (n <=? 254)%nat && negb (n =? 247)%nat)
  then ascii_of_nat (n - 32) else c.

(** A literal, matched code unit by code unit. *)
Fixpoint lit (s : string) : regex :=
  match s with
  | EmptyString => Empty
  | String ch s' => Seq (Char (Ascii.eqb ch)) (lit s')
  end.

(** A literal under the flag [i]. *)
Fixpoint liti (s : string) : regex :=
  match s with
  | EmptyString => Empty
  | String ch s' =>
      Seq (Char (fun c => Ascii.eqb (canonicalize c) (canonicalize ch))) (liti s')
  end.

Fixpoint anyOf (alternatives : list regex) : regex :=
  match alternatives with
  | [] => Char (fun _ => false)
  | [r] => r
  | r :: more => Alt r (anyOf more)
  end.

End RegExp.

(** ** conversationalAI.ts: phases and extraction *)

Module ConversationalAIService.
Import RegExp.

Inductive Role : Type := user | assistant | system.

Inductive MessageType : Type := question | answer | clarification | summary.

Record ConversationMessage : Type := {
  id : string;
  user_id : string;
  session_id : string;
  role : Role;
  content : string;
  message_type : MessageType;
  emotion_detected : option string;
  tone_analysis : option ToneAnalysis;
  response_time_seconds : option number;
  created_at : string
}.

Inductive Phase : Type := introduction | basic_info | deep_questions | completion.

Record ConversationState : Type := {
  sessionId : string;
  userId : string;
  messages : list ConversationMessage;
  extractedData : object value;
  currentPhase : Phase;
  isComplete : bool
}.

Inductive NextAction : Type := continue | extract_data | complete.

(** The fields [extractedData] and [confidence] of the interface
    [AIResponse] are [data] and [certainty] here. *)
Record AIResponse : Type := {
  message : string;
  nextAction : NextAction;
  data : option (object value);
  certainty : number
}.

Definition isUser (msg : ConversationMessage) : bool :=
  match role msg with user => true | _ => false end.

(** [/(?:i'm|i am|my name is|call me)\s+([a-zA-Z]+)/] *)
Definition namePattern : regex :=
  Seq (anyOf [lit "i'm"; lit "i am"; lit "my name is"; lit "call me"])
      (Seq (Many 1 isWhiteSpace) (Group 1 (Many 1 letter))).

(** [/(\d{1,2})[\/\-](\d{1,2})[\/\-](\d{4})/] *)
Definition dayFirstPattern : regex :=
  Seq (Group 1 (Repeat 1 1 (Char digit)))
    (Seq (Char (oneOf "/-"))
      (Seq (Group 2 (Repeat 1 1 (Char digit)))
        (Seq (Char (oneOf "/-")) (Group 3 (Repeat 4 0 (Char digit)))))).

(** [/(\d{4})[\/\-](\d{1,2})[\/\-](\d{1,2})/] *)
Definition yearFirstPattern : regex :=
  Seq (Group 1 (Repeat 4 0 (Char digit)))
    (Seq (Char (oneOf "/-"))
      (Seq (Group 2 (Repeat 1 1 (Char digit)))
        (Seq (Char (oneOf "/-")) (Group 3 (Repeat 1 1 (Char digit)))))).

(** [/(january|...|december)\s+(\d{1,2}),?\s+(\d{4})/i] *)
Definition monthPattern : regex :=
  Seq (Group 1 (anyOf (map liti
         ["january"; "february"; "march"; "april"; "may"; "june"; "july"; "august";
          "september"; "october"; "november"; "december"])))
    (Seq (Many 1 isWhiteSpace)
      (Seq (Group 2 (Repeat 1 1 (Char digit)))
        (Seq (Repeat 0 1 (Char (Ascii.eqb ",")))
          (Seq (Many 1 isWhiteSpace) (Group 3 (Repeat 4 0 (Char digit))))))).

Definition datePatterns : list regex :=
  [dayFirstPattern; yearFirstPattern; monthPattern].

(** [/(\d{1,2}):(\d{2})\s*(am|pm)?/i] *)
Definition timePattern : regex :=
  Seq (Group 1 (Repeat 1 1 (Char digit)))
    (Seq (Char (Ascii.eqb ":"))
      (Seq (Group 2 (Repeat 2 0 (Char digit)))
        (Seq (Many 0 isWhiteSpace)
          (Repeat 0 1 (Group 3 (Alt (liti "am") (liti "pm"))))))).

(** [/(?:born in|from)\s+([^.!?]+)/i] *)
Definition placePattern : regex :=
  Seq (Alt (liti "born in") (liti "from"))
    (Seq (Many 1 isWhiteSpace) (Group 1 (Many 1 (fun c => negb (oneOf ".!?" c))))).

(** The name read off the first user message, if the record has none. *)
Definition extractName (userMessages : list ConversationMessage)
    (extractedData : object value) : object value :=
  if negb (holds extractedData "name") && (1 <=? List.length userMessages)%nat then
    match userMessages with
    | [] => extractedData
    | first :: _ =>
        let firstResponse := toLowerCase (content first) in
        match exec namePattern firstResponse with
        | Some nameMatch =>
            set extractedData "name"
              (match group nameMatch 1 with Some g => VString g | None => VUndefined end)
        | None =>
            if (List.length (split_space firstResponse) <=? 3)%nat
            then set extractedData "name" (VString (trim (content first)))
            else extractedData
        end
    end
  else extractedData.

(** One turn of [datePatterns.forEach]. *)
Definition extractDate (content : string) (extractedData : object value) (pattern : regex)
    : object value :=
  match exec pattern content with
  | Some m =>
      if negb (holds extractedData "birthDate")
      then set extractedData "birthDate" (VString (whole m))
      else extractedData
  | None => extractedData
  end.

Definition extractTime (content : string) (extractedData : object value) : object value :=
  match exec timePattern content with
  | Some timeMatch =>
      if negb (holds extractedData "birthTime")
      then set extractedData "birthTime" (VString (whole timeMatch))
      else extractedData
  | None => extractedData
  end.

(** [placeMatch[1].trim()] throws a [TypeError] if the group is
    [undefined]. *)
Definition extractPlace (content : string) (extractedData : object value)
    : JS.completion (object value) :=
  if includes content "born in" || includes content "from" then
    match exec placePattern content with
    | Some placeMatch =>
        if negb (holds extractedData "birthPlace") then
          match group placeMatch 1 with
          | Some g => Return (set extractedData "birthPlace" (VString (trim g)))
          | None => Throw "TypeError"
          end
        else Return extractedData
    | None => Return extractedData
    end
  else Return extractedData.

(** One turn of [userMessages.forEach]. *)
Definition extractBirth (extractedData : object value) (msg : ConversationMessage)
    : JS.completion (object value) :=
  let content := toLowerCase (content msg) in
  extractPlace content
    (extractTime content (fold_left (extractDate content) datePatterns extractedData)).

Fixpoint forEach (userMessages : list ConversationMessage) (extractedData : object value)
    : JS.completion (object value) :=
  match userMessages with
  | [] => Return extractedData
  | msg :: more =>
      match extractBirth extractedData msg with
      | Return extractedData' => forEach more extractedData'
      | Throw e => Throw e
      end
  end.

Definition phaseOf (userMessages : nat) (extractedData : object value) : Phase :=
  if (8 <=? userMessages)%nat then completion
  else if holds extractedData "name" && holds extractedData "birthDate" then deep_questions
  else if holds extractedData "name" then basic_info
  else introduction.

Definition updatePhaseAndExtractData (messages : list ConversationMessage)
    (currentData : object value) : JS.completion (Phase * object value) :=
  let userMessages := filter isUser messages in
  match forEach userMessages (extractName userMessages currentData) with
  | Return extractedData =>
      Return (phaseOf (List.length userMessages) extractedData, extractedData)
  | Throw e => Throw e
  end.

(** What the outside world answers during [continueConversation]: the two
    identifiers [uuidv4()] returns, the two readings of the clock, what
    awaiting the two insertions yields (the [error] field, or an exception
    of the client) and how [callGeminiAPI] ends. The prompt sent to the
    model is not part of this embedding. *)
Record Replies : Type := {
  userMessageId : string;
  userCreatedAt : string;
  userSaved : JS.completion (option string);
  aiResponseText : JS.completion string;
  assistantMessageId : string;
  assistantCreatedAt : string;
  assistantSaved : JS.completion (option string)
}.

(** [saveMessage] *)
Definition saveMessage (reply : JS.completion (option string)) : JS.completion unit :=
  match reply with
  | Return None => Return tt
  | Return (Some error) => Throw ("Failed to save message: " ++ error)
  | Throw e => Throw e
  end.

Definition continueConversation (r : Replies) (state : ConversationState)
    (userMessage : string) (responseTimeSeconds : option number)
    : JS.completion (ConversationState * AIResponse) :=
  let analysis := ConversationalAI.analyzeUserResponse userMessage in
  let userMsg :=
    {| id := userMessageId r; user_id := userId state; session_id := sessionId state;
       role := user; content := userMessage; message_type := answer;
       emotion_detected := Some (emotion analysis);
       tone_analysis := Some (tone analysis);
       response_time_seconds := responseTimeSeconds;
       created_at := userCreatedAt r |} in
  match saveMessage (userSaved r) with
  | Throw e => Throw e
  | Return _ =>
      let updatedMessages := (messages state ++ [userMsg])%list in
      match updatePhaseAndExtractData updatedMessages (extractedData state) with
      | Throw e => Throw e
      | Return (phase, extracted) =>
          match aiResponseText r with
          | Throw e => Throw e
          | Return text =>
              let assistantMsg :=
                {| id := assistantMessageId r; user_id := userId state;
                   session_id := sessionId state; role := assistant; content := text;
                   message_type := match phase with completion => summary | _ => question end;
                   emotion_detected := None; tone_analysis := None;
                   response_time_seconds := None;
                   created_at := assistantCreatedAt r |} in
              match saveMessage (assistantSaved r) with
              | Throw e => Throw e
              | Return _ =>
                  Return
                    ({| sessionId := sessionId state; userId := userId state;
                        messages := (updatedMessages ++ [assistantMsg])%list;
                        extractedData := extracted;
                        currentPhase := phase;
                        isComplete := match phase with completion => true | _ => false end |},
                     {| message := text;
                        nextAction := match phase with completion => complete | _ => continue end;
                        data := Some extracted;
                        certainty := 0.85 |})
              end
          end
      end
  end.

(** What the outside world answers during [startConversation]. *)
Record Opening : Type := {
  newSessionId : string;
  initialMessage : JS.completion string;
  openingMessageId : string;
  openingCreatedAt : string;
  openingSaved : JS.completion (option string)
}.

Definition startConversation (o : Opening) (userId : string)
    : JS.completion ConversationState :=
  match initialMessage o with
  | Throw e => Throw e
  | Return text =>
      let assistantMessage :=
        {| id := openingMessageId o; user_id := userId; session_id := newSessionId o;
           role := assistant; content := text; message_type := question;
           emotion_detected := None; tone_analysis := None; response_time_seconds := None;
           created_at := openingCreatedAt o |} in
      match saveMessage (openingSaved o) with
      | Throw e => Throw e
      | Return _ =>
          Return {| sessionId := newSessionId o; userId := userId;
                    messages := [assistantMessage]; extractedData := [];
                    currentPhase := introduction; isComplete := false |}
      end
  end.

(** A conversation: the exchanges follow one another as long as each call
    returns. Each entry holds what the user wrote, the response time the
    component measured and what the outside world answered. *)
Fixpoint converse (state : ConversationState)
    (exchanges : list (string * option number * Replies))
    : JS.completion (ConversationState * list AIResponse) :=
  match exchanges with
  | [] => Return (state, [])
  | (userMessage, responseTimeSeconds, r) :: more =>
      match continueConversation r state userMessage responseTimeSeconds with
      | Throw e => Throw e
      | Return (state', aiResponse) =>
          match converse state' more with
          | Throw e => Throw e
          | Return (final, responses) => Return (final, aiResponse :: responses)
          end
      end
  end.

End ConversationalAIService.

(** ** services/stateManager.ts: the application store *)

Module StateManager.

Section Store.
Variables User FinalReport : Type.

Record AppState : Type := {
  user : option User;
  isAuthenticated : bool;
  currentStep : number;
  formStep : number;
  isLoading : bool;
  loadingMessage : string;
  error : option string;
  conversationData : object value;
  currentReport : option FinalReport
}.

Definition initial : AppState :=
  {| user := None; isAuthenticated := false; currentStep := 0; formStep := 0;
     isLoading := false; loadingMessage := ""; error := None; conversationData := [];
     currentReport := None |}.

(** The actions; each one is [set] with a partial state, merged into the
    state of the moment. *)
Definition setUser (u : option User) (s : AppState) : AppState :=
  {| user := u; isAuthenticated := match u with Some _ => true | None => false end;
     currentStep := currentStep s; formStep := formStep s; isLoading := isLoading s;
     loadingMessage := loadingMessage s; error := error s;
     conversationData := conversationData s; currentReport := currentReport s |}.

Definition setCurrentStep (step : number) (s : AppState) : AppState :=
  {| user := user s; isAuthenticated := isAuthenticated s;
     currentStep := step; formStep := 0; isLoading := isLoading s;
     loadingMessage := loadingMessage s; error := error s;
     conversationData := conversationData s; currentReport := currentReport s |}.

Definition setFormStep (step : number) (s : AppState) : AppState :=
  {| user := user s; isAuthenticated := isAuthenticated s;
     currentStep := currentStep s; formStep := step; isLoading := isLoading s;
     loadingMessage := loadingMessage s; error := error s;
     conversationData := conversationData s; currentReport := currentReport s |}.

(** [message] is [None] when the argument is left out. *)
Definition setLoading (loading : bool) (message : option string) (s : AppState) : AppState :=
  {| user := user s; isAuthenticated := isAuthenticated s;
     currentStep := currentStep s; formStep := formStep s; isLoading := loading;
     loadingMessage := match message with Some m => m | None => "" end;
     error := if loading then None else error s;
     conversationData := conversationData s; currentReport := currentReport s |}.

Definition setError (e : option string) (s : AppState) : AppState :=
  {| user := user s; isAuthenticated := isAuthenticated s;
     currentStep := currentStep s; formStep := formStep s; isLoading := false;
     loadingMessage := loadingMessage s; error := e;
     conversationData := conversationData s; currentReport := currentReport s |}.

Definition setConversationData (d : object value) (s : AppState) : AppState :=
  {| user := user s; isAuthenticated := isAuthenticated s;
     currentStep := currentStep s; formStep := formStep s; isLoading := isLoading s;
     loadingMessage := loadingMessage s; error := error s;
     conversationData := d; currentReport := currentReport s |}.

Definition setCurrentReport (r : option FinalReport) (s : AppState) : AppState :=
  {| user := user s; isAuthenticated := isAuthenticated s;
     currentStep := currentStep s; formStep := formStep s; isLoading := isLoading s;
     loadingMessage := loadingMessage s; error := error s;
     conversationData := conversationData s; currentReport := r |}.

Definition reset (s : AppState) : AppState := initial.

(** What a promise is rejected with: an [Error] with its message, or
    some other value. *)
Inductive Thrown : Type := ErrorInstance (message : string) | OtherValue.

Inductive Settled (T : Type) : Type :=
  | Fulfilled (result : T)
  | Rejected (reason : Thrown).

(** [handleAsyncError]. The wrapped function is given by what it does to
    the store from the moment it is called to the moment its promise
    settles, and by how the promise settles. *)
Definition handleAsyncError {T : Type} (asyncFn : AppState -> AppState * Settled T)
    (errorMessage : string) (s : AppState) : AppState * option T :=
  let started := setError None (setLoading true None s) in
  match asyncFn started with
  | (s', Fulfilled _ result) => (setLoading false None s', Some result)
  | (s', Rejected _ reason) =>
      let message := match reason with
                     | ErrorInstance m => m
                     | OtherValue => errorMessage
                     end in
      (setLoading false None (setError (Some message) s'), None)
  end.

End Store.

Arguments user {User FinalReport}.
Arguments isAuthenticated {User FinalReport}.
Arguments currentStep {User FinalReport}.
Arguments formStep {User FinalReport}.
Arguments isLoading {User FinalReport}.
Arguments loadingMessage {User FinalReport}.
Arguments error {User FinalReport}.
Arguments conversationData {User FinalReport}.
Arguments currentReport {User FinalReport}.
Arguments setUser {User FinalReport}.
Arguments setCurrentStep {User FinalReport}.
Arguments setFormStep {User FinalReport}.
Arguments setLoading {User FinalReport}.
Arguments setError {User FinalReport}.
Arguments setConversationData {User FinalReport}.
Arguments setCurrentReport {User FinalReport}.
Arguments reset {User FinalReport}.
Arguments handleAsyncError {User FinalReport T}.
Arguments Fulfilled {T}.
Arguments Rejected {T}.

End StateManager.

(** ** Notions used to state further properties *)

Module Notions.

(** The labels of the session analyzer: the six of its table. *)
Definition sessionLabels : list string :=
  ["joy"; "sadness"; "anger"; "fear"; "surprise"; "neutral"].

(** What the session keeps of a submitted answer: the answer as it was
    submitted, with the emotion and the tone of the session's analyzer in
    place of whatever it carried. *)
Definition storedFor (submitted stored : PsychologySession.PsychAnswer) : Prop :=
  PsychologySession.questionId stored = PsychologySession.questionId submitted /\
  PsychologySession.questionText stored = PsychologySession.questionText submitted /\
  PsychologySession.answer stored = PsychologySession.answer submitted /\
  PsychologySession.responseMethod stored = PsychologySession.responseMethod submitted /\
  PsychologySession.responseTimeSeconds stored
    = PsychologySession.responseTimeSeconds submitted /\
  PsychologySession.emotionDetected stored
    = Some (PsychologyService.emotion
              (PsychologyService.analyzeResponse (PsychologySession.answer submitted)
                 (PsychologySession.responseMethod submitted))) /\
  PsychologySession.toneAnalysis stored
    = Some (PsychologyService.tone
              (PsychologyService.analyzeResponse (PsychologySession.answer submitted)
                 (PsychologySession.responseMethod submitted))).

(** The hesitation markers that are single words. *)
Definition singleWordMarkers : list string :=
  ["maybe"; "perhaps"; "probably"; "might"].

(** The question identifiers the answers of the psychological
    questionnaire carry, in the order of the answers, once [n] answers are
    recorded. *)
Definition psychologicalAsked (n : nat) : list number :=
  firstn n (map PsychologicalQuestionnaireComponent.id
                PsychologicalQuestionnaireComponent.PSYCHOLOGICAL_QUESTIONS
            ++ repeat 9%float (n - 9))%list.

(** The same for the enhanced questionnaire. *)
Definition enhancedAsked (n : nat) : list number :=
  firstn n ([1; 2; 3; 3; 4; 5; 6; 7; 8] ++ repeat 8%float (n - 9))%list%float.

(** What holds of an answer the psychological questionnaire has recorded:
    its text is trimmed and not empty, the word count stored with it is
    the number of words the analyzer counts, and its analysis is the
    analyzer's. *)
Definition recordedPsychological (a : PsychologicalQuestionnaire.Answer) : Prop :=
  PsychologicalQuestionnaire.answer a <> "" /\
  trim (PsychologicalQuestionnaire.answer a) = PsychologicalQuestionnaire.answer a /\
  PsychologicalQuestionnaire.wordCount a
    = of_nat (Spec.wordCountOf (PsychologicalQuestionnaire.answer a)) /\
  (1 <= Spec.wordCountOf (PsychologicalQuestionnaire.answer a))%nat /\
  PsychologicalQuestionnaire.emotionDetected a
    = emotion (PsychologicalQuestionnaire.analyzeResponse (PsychologicalQuestionnaire.answer a)) /\
  PsychologicalQuestionnaire.toneAnalysis a
    = tone (PsychologicalQuestionnaire.analyzeResponse (PsychologicalQuestionnaire.answer a)).

(** The same for the enhanced questionnaire. *)
Definition recordedEnhanced (a : EnhancedPsychQuestionnaireComponent.Answer) : Prop :=
  EnhancedPsychQuestionnaireComponent.answer a <> "" /\
  trim (EnhancedPsychQuestionnaireComponent.answer a)
    = EnhancedPsychQuestionnaireComponent.answer a /\
  EnhancedPsychQuestionnaireComponent.wordCount a
    = of_nat (Spec.wordCountOf (EnhancedPsychQuestionnaireComponent.answer a)) /\
  (1 <= Spec.wordCountOf (EnhancedPsychQuestionnaireComponent.answer a))%nat /\
  EnhancedPsychQuestionnaireComponent.emotionDetected a
    = emotion (EnhancedPsychQuestionnaire.analyzeResponse
                 (EnhancedPsychQuestionnaireComponent.answer a)) /\
  EnhancedPsychQuestionnaireComponent.toneAnalysis a
    = tone (EnhancedPsychQuestionnaire.analyzeResponse
              (EnhancedPsychQuestionnaireComponent.answer a)).

(** The states the psychological questionnaire can be in once [n]
    answers are recorded: the index stops at the last question. *)
Definition psychologicalInvariant (s : PsychologicalQuestionnaireComponent.State) : Prop :=
  let n := List.length (PsychologicalQuestionnaireComponent.answers s) in
  PsychologicalQuestionnaireComponent.currentQuestionIndex s = Nat.min n 8 /\
  map PsychologicalQuestionnaire.questionId (PsychologicalQuestionnaireComponent.answers s)
    = psychologicalAsked n /\
  Forall recordedPsychological (PsychologicalQuestionnaireComponent.answers s).

(** The states the enhanced questionnaire can be in once [n] answers are
    recorded: the index lags one answer behind from the third answer on,
    and one question is appended after each of the answers 3 to 8. *)
Definition enhancedInvariant (s : EnhancedPsychQuestionnaireComponent.State) : Prop :=
  let n := List.length (EnhancedPsychQuestionnaireComponent.answers s) in
  EnhancedPsychQuestionnaireComponent.currentQuestionIndex s
    = (if (n <=? 2)%nat then n else Nat.min (n - 1) 7) /\
  map EnhancedPsychQuestionnaireComponent.id (EnhancedPsychQuestionnaireComponent.questions s)
    = map of_nat (seq 1 (if (n <=? 2)%nat then 3 else Nat.min (n + 1) 9)) /\
  map EnhancedPsychQuestionnaireComponent.questionId
      (EnhancedPsychQuestionnaireComponent.answers s)
    = enhancedAsked n /\
  Forall recordedEnhanced (EnhancedPsychQuestionnaireComponent.answers s).

(** What a matcher does when it succeeds: it has read a piece of the
    input and called its continuation on what is left. *)
Definition readsThenCalls (m : RegExp.continuation -> RegExp.continuation) : Prop :=
  forall (c : RegExp.continuation) (x z : RegExp.state),
    m c x = Some z ->
    exists y w, RegExp.rest x = (w ++ RegExp.rest y)%string /\
                RegExp.pos y = RegExp.pos x + String.length w /\
                c y = Some z.

(** The letters a to z. *)
Definition lowerLetter (c : ascii) : bool := (97 <=? code c)%nat && (code c <=? 122)%nat.

(** The first user message of a conversation, if any. *)
Definition firstUserMessage (messages : list ConversationalAIService.ConversationMessage)
    : option ConversationalAIService.ConversationMessage :=
  hd_error (filter ConversationalAIService.isUser messages).

(** The number of user messages of a conversation. *)
Definition userMessageCount (messages : list ConversationalAIService.ConversationMessage)
    : nat :=
  List.length (filter ConversationalAIService.isUser messages).

(** What later extraction may do to a record: a value that is truthy
    stays, and only the four keys of the service are written. *)
Definition extends (before after : object value) : Prop :=
  (forall k v, get before k = Some v -> truthy v = true -> get after k = Some v) /\
  (forall k, ~ In k ["name"; "birthDate"; "birthTime"; "birthPlace"] ->
             get after k = get before k).

(** The records the service builds: at most the four keys, each holding
    a string. *)
Definition birthRecord (o : object value) : Prop :=
  Forall (fun entry => In (fst entry) ["name"; "birthDate"; "birthTime"; "birthPlace"] /\
                       exists text, snd entry = VString text) o.

(** The outside world plays along: the insertions succeed and the model
    answers. *)
Definition succeeds (r : ConversationalAIService.Replies) : Prop :=
  ConversationalAIService.userSaved r = Return None /\
  ConversationalAIService.assistantSaved r = Return None /\
  exists text, ConversationalAIService.aiResponseText r = Return text.

End Notions.

(** ** Sample conversations *)

Module ConversationSamples.
Import ConversationalAIService.

(** A user message with the given text. *)
Definition said (text : string) : ConversationMessage :=
  {| id := "m"; user_id := "u"; session_id := "s"; role := user; content := text;
     message_type := answer; emotion_detected := None; tone_analysis := None;
     response_time_seconds := None; created_at := "2024-01-01T00:00:00.000Z" |}.

Definition sampleOpening : Opening :=
  {| newSessionId := "s"; initialMessage := Return "Welcome. What is your name?";
     openingMessageId := "m0"; openingCreatedAt := "2024-01-01T00:00:00.000Z";
     openingSaved := Return None |}.

Definition sampleReplies : Replies :=
  {| userMessageId := "m1"; userCreatedAt := "2024-01-01T00:00:01.000Z";
     userSaved := Return None; aiResponseText := Return "Tell me more.";
     assistantMessageId := "m2"; assistantCreatedAt := "2024-01-01T00:00:02.000Z";
     assistantSaved := Return None |}.

(** What [startConversation] returns for [sampleOpening]. *)
Definition sampleStart : ConversationState :=
  {| sessionId := "s"; userId := "u";
     messages := [ {| id := "m0"; user_id := "u"; session_id := "s"; role := assistant;
                      content := "Welcome. What is your name?"; message_type := question;
                      emotion_detected := None; tone_analysis := None;
                      response_time_seconds := None;
                      created_at := "2024-01-01T00:00:00.000Z" |} ];
     extractedData := []; currentPhase := introduction; isComplete := false |}.

(** Nine exchanges, the first of which gives a name. *)
Definition sampleExchanges : list (string * option number * Replies) :=
  ("I'm Ada", None, sampleReplies) :: repeat ("I was born in Turin", None, sampleReplies) 8.

(** The state that conversation ends in. *)
Definition sampleFinal : ConversationState :=
  Eval vm_compute in
    match converse sampleStart sampleExchanges with
    | Return (final, _) => final
    | Throw _ => sampleStart
    end.

End ConversationSamples.

(** ** Binary64 arithmetic

    The facts about IEEE 754 rounding that the bounds on the tone fields
    rest on, derived from the specification of the primitive operations. *)

Module Binary64Facts.
Import Binary64 Spec.

(** *** Powers of two and bit lengths *)

Local Open Scope Z_scope.

Lemma bpow_pos e : (0 < bpow e)%R.
Proof. apply powerRZ_lt. lra. Qed.

Lemma bpow_add a b : bpow (a + b) = (bpow a * bpow b)%R.
Proof. apply powerRZ_add. lra. Qed.

Lemma bpow_double e : bpow (1 + e) = (2 * bpow e)%R.
Proof.
  rewrite bpow_add. replace (bpow 1) with 2%R; [ reflexivity | ].
  symmetry. exact (powerRZ_1 2).
Qed.

Lemma bpow_IZR k : 0 <= k -> bpow k = IZR (2 ^ k).
Proof.
  intros Hk. unfold bpow. rewrite <- (Z2Nat.id k Hk) at 1.
  rewrite <- pow_powerRZ. rewrite pow_IZR. rewrite Z2Nat.id by exact Hk. reflexivity.
Qed.

Lemma bpow_le a b : a <= b -> (bpow a <= bpow b)%R.
Proof.
  intros H. replace b with (a + (b - a)) by lia. rewrite bpow_add.
  rewrite (bpow_IZR (b - a)) by lia.
  assert (1 <= IZR (2 ^ (b - a)))%R.
  { apply IZR_le. assert (0 < 2 ^ (b - a)) by (apply Z.pow_pos_nonneg; lia). lia. }
  pose proof (bpow_pos a). nra.
Qed.

Lemma bpow_lt a b : a < b -> (bpow a < bpow b)%R.
Proof.
  intros H. replace b with (a + (b - a)) by lia. rewrite bpow_add.
  rewrite (bpow_IZR (b - a)) by lia.
  assert (2 <= IZR (2 ^ (b - a)))%R.
  { apply IZR_le. replace (b - a) with (Z.succ (b - a - 1)) by lia.
    rewrite Z.pow_succ_r by lia.
    assert (0 < 2 ^ (b - a - 1)) by (apply Z.pow_pos_nonneg; lia). lia. }
  pose proof (bpow_pos a). nra.
Qed.

(** A positive integer of [d] bits lies in [[2^(d-1), 2^d)]. *)
Lemma digits2_pos_bounds (p : positive) :
  2 ^ (Zpos (digits2_pos p) - 1) <= Zpos p < 2 ^ (Zpos (digits2_pos p)).
Proof.
  induction p as [p IH | p IH |]; cbn [digits2_pos].
  1, 2: rewrite Pos2Z.inj_succ;
    replace (Z.succ (Zpos (digits2_pos p)) - 1) with (Zpos (digits2_pos p)) by lia;
    rewrite Z.pow_succ_r by lia;
    replace (Zpos (digits2_pos p)) with (Z.succ (Zpos (digits2_pos p) - 1)) at 1 by lia;
    rewrite Z.pow_succ_r by lia; lia.
  cbn. lia.
Qed.

(** One step of the right shift halves the integer part of the record,
    whatever its round and sticky bits. *)
Lemma shr_1_m (mrs : shr_record) : 0 <= shr_m mrs -> shr_m (shr_1 mrs) = shr_m mrs / 2.
Proof.
  destruct mrs as [m r s]. cbn [shr_m]. intros Hm. unfold shr_1.
  destruct m as [| [p | p |] | p]; cbn [shr_m]; try lia; try reflexivity.
  - apply Z.div_unique with (r := 1); lia.
  - apply Z.div_unique with (r := 0); lia.
Qed.

(** The iterator of the specification is the iteration of [Nat]. *)
Lemma iter_pos_nat {A} (f : A -> A) (p : positive) (x : A) :
  SpecFloat.iter_pos f p x = Nat.iter (Pos.to_nat p) f x.
Proof.
  revert x. induction p as [p IH | p IH |]; intros x; cbn [SpecFloat.iter_pos].
  - rewrite !IH. rewrite Pos2Nat.inj_xI.
    replace (S (2 * Pos.to_nat p))%nat with (Pos.to_nat p + (Pos.to_nat p + 1))%nat by lia.
    rewrite !Nat.iter_add. reflexivity.
  - rewrite !IH. rewrite Pos2Nat.inj_xO.
    replace (2 * Pos.to_nat p)%nat with (Pos.to_nat p + Pos.to_nat p)%nat by lia.
    rewrite Nat.iter_add. reflexivity.
  - reflexivity.
Qed.

Lemma shr_iter_m (n : nat) (mrs : shr_record) :
  0 <= shr_m mrs ->
  shr_m (Nat.iter n shr_1 mrs) = shr_m mrs / 2 ^ Z.of_nat n.
Proof.
  intros Hm. induction n as [| n IH].
  - cbn. rewrite Z.div_1_r. reflexivity.
  - rewrite Nat.iter_succ. rewrite shr_1_m.
    + rewrite IH. rewrite Nat2Z.inj_succ, Z.pow_succ_r by lia.
      rewrite Z.div_div by (try lia; apply Z.pow_pos_nonneg; lia).
      f_equal. lia.
    + rewrite IH. apply Z.div_pos; [ exact Hm | apply Z.pow_pos_nonneg; lia ].
Qed.

(** *** Rounding to the format *)

Lemma fexp_eq (x : Z) : fexp prec emax x = Z.max (x - 53) (-1074).
Proof. reflexivity. Qed.

Lemma shr_record_of_loc_m (m : Z) (l : location) : shr_m (shr_record_of_loc m l) = m.
Proof. destruct l as [| []]; reflexivity. Qed.

Lemma round_nearest_even_bounds (m : Z) (l : location) :
  m <= round_nearest_even m l <= m + 1.
Proof. destruct l as [| []]; cbn; try destruct (Z.even m); lia. Qed.

(** The shift that brings [m * 2^e] to the exponent of the format divides
    [m] by a power of two and raises [e] by as much. *)
Lemma shr_fexp_spec (m e : Z) (l : location) :
  0 <= m ->
  exists mrs,
    shr_fexp prec emax m e l = (mrs, e + Z.max 0 (fexp prec emax (Zdigits2 m + e) - e)) /\
    shr_m mrs = m / 2 ^ Z.max 0 (fexp prec emax (Zdigits2 m + e) - e).
Proof.
  intros Hm. unfold shr_fexp, shr.
  destruct (fexp prec emax (Zdigits2 m + e) - e) as [| p | p] eqn:Hn.
  - eexists. split; [ rewrite Z.add_0_r; reflexivity | ].
    cbn. rewrite Z.div_1_r. apply shr_record_of_loc_m.
  - eexists. split; [ rewrite Z.max_r by lia; reflexivity | ].
    rewrite iter_pos_nat. rewrite shr_iter_m by (rewrite shr_record_of_loc_m; exact Hm).
    rewrite shr_record_of_loc_m. rewrite positive_nat_Z.
    rewrite Z.max_r by lia. reflexivity.
  - eexists. split; [ rewrite Z.max_l by lia; rewrite Z.add_0_r; reflexivity | ].
    rewrite Z.max_l by lia. cbn. rewrite Z.div_1_r. apply shr_record_of_loc_m.
Qed.

Lemma Zdigits2_bounds (m : Z) : 0 < m -> 2 ^ (Zdigits2 m - 1) <= m < 2 ^ Zdigits2 m.
Proof.
  destruct m as [| p | p]; try lia. intros _. apply digits2_pos_bounds.
Qed.

Lemma Zdigits2_pos (m : Z) : 0 < m -> 0 < Zdigits2 m.
Proof. destruct m; cbn; lia. Qed.

(** If a positive [m] is shifted out entirely by the shift the format asks
    for, the number is below the subnormal range. *)
Lemma shift_out (m e : Z) :
  0 < m ->
  let n := Z.max 0 (fexp prec emax (Zdigits2 m + e) - e) in
  m < 2 ^ n -> n = -1074 - e /\ 0 < n.
Proof.
  intros Hm n Hlt. subst n. rewrite fexp_eq in *.
  pose proof (Zdigits2_bounds m Hm) as [Hlo _].
  pose proof (Zdigits2_pos m Hm) as Hd.
  set (d := Zdigits2 m) in *.
  assert (Hn : d - 1 < Z.max 0 (Z.max (d + e - 53) (-1074) - e)).
  { apply (Z.pow_lt_mono_r_iff 2); lia. }
  lia.
Qed.

Lemma pow2_pos (n : Z) : 0 <= n -> 0 < 2 ^ n.
Proof. intros. apply Z.pow_pos_nonneg; lia. Qed.

(** What rounding returns for a number whose integer part, in units of
    [2^E], is [P >= 0]: never NaN; a zero only below the subnormal range; a
    finite [m * 2^e] within two units in the last place of [P * 2^E]; an
    infinity only for a number of at least [2^971]. *)
Lemma binary_round_aux_cases (s : bool) (P E : Z) (l : location) :
  0 <= P ->
  match binary_round_aux prec emax s P E l with
  | S754_zero s' => s' = s /\ (P = 0 \/ (E < -1074 /\ P < 2 ^ (-1074 - E)))
  | S754_finite s' m e =>
      s' = s /\ E <= e /\
      (Zpos m - 1) * 2 ^ (e - E) <= P < (Zpos m + 2) * 2 ^ (e - E)
  | S754_infinity s' =>
      s' = s /\ ((P = 0 /\ 972 <= E) \/ exists t, 0 <= t /\ 972 <= E + t /\ 2 ^ t <= 2 * P)
  | S754_nan => False
  end.
Proof.
  intros HP. unfold binary_round_aux.
  destruct (shr_fexp_spec P E l HP) as (mrs1 & H1 & Hm1). rewrite H1.
  set (n1 := Z.max 0 (fexp prec emax (Zdigits2 P + E) - E)) in *.
  set (m1 := shr_m mrs1) in *.
  set (m2 := round_nearest_even m1 (loc_of_shr_record mrs1)).
  assert (Hn1 : 0 <= n1) by (subst n1; lia).
  pose proof (pow2_pos n1 Hn1) as HA.
  assert (Hd1 : 2 ^ n1 * m1 <= P < 2 ^ n1 * (m1 + 1)).
  { rewrite Hm1. split.
    - apply Z.mul_div_le. exact HA.
    - apply Z.mul_succ_div_gt. exact HA. }
  assert (Hm1pos : 0 <= m1) by (rewrite Hm1; apply Z.div_pos; lia).
  pose proof (round_nearest_even_bounds m1 (loc_of_shr_record mrs1)) as Hr.
  fold m2 in Hr.
  assert (Hm2 : 0 <= m2) by lia.
  destruct (shr_fexp_spec m2 (E + n1) loc_Exact Hm2) as (mrs2 & H2 & Hm3). rewrite H2.
  set (n2 := Z.max 0 (fexp prec emax (Zdigits2 m2 + (E + n1)) - (E + n1))) in *.
  assert (Hn2 : 0 <= n2) by (subst n2; lia).
  pose proof (pow2_pos n2 Hn2) as HB.
  assert (Hd2 : 2 ^ n2 * shr_m mrs2 <= m2 < 2 ^ n2 * (shr_m mrs2 + 1)).
  { rewrite Hm3. split.
    - apply Z.mul_div_le. exact HB.
    - apply Z.mul_succ_div_gt. exact HB. }
  assert (Hpow : 2 ^ (n1 + n2) = 2 ^ n1 * 2 ^ n2) by (apply Z.pow_add_r; lia).
  assert (Hshift1 : 0 < P -> P < 2 ^ n1 -> n1 = -1074 - E /\ 0 < n1)
    by (intros; apply shift_out; assumption).
  assert (Hshift2 : 0 < m2 -> m2 < 2 ^ n2 -> n2 = -1074 - (E + n1) /\ 0 < n2)
    by (intros; apply shift_out; assumption).
  destruct (shr_m mrs2) as [| m3 | m3] eqn:Em3.
  - (* zero *)
    split; [ reflexivity | ].
    destruct (Z.eq_dec P 0) as [HP0 | HP0]; [ left; exact HP0 | right ].
    destruct (Z.eq_dec m2 0) as [Hm20 | Hm20].
    + assert (m1 = 0) by lia. subst m1.
      destruct Hshift1 as [Hn Hpos]; [ lia | nia | ].
      split; [ lia | rewrite <- Hn; nia ].
    + destruct Hshift2 as [Hn Hpos]; [ lia | lia | ].
      split; [ lia | ].
      replace (-1074 - E) with (n1 + n2) by lia. rewrite Hpow. nia.
  - (* finite or overflow *)
    destruct (Z.leb_spec (E + n1 + n2) (emax - prec)) as [Hle | Hgt].
    + split; [ reflexivity | ]. split; [ lia | ].
      replace (E + n1 + n2 - E) with (n1 + n2) by lia. rewrite Hpow. nia.
    + split; [ reflexivity | ].
      change (emax - prec) with 971 in Hgt.
      destruct (Z.eq_dec m1 0) as [Hm10 | Hm10].
      * assert (Hm21 : m2 = 1) by nia.
        assert (Hn20 : n2 = 0).
        { destruct (Z.eq_dec n2 0) as [|Hne]; [ assumption | exfalso ].
          assert (2 <= 2 ^ n2).
          { replace n2 with (Z.succ (n2 - 1)) by lia. rewrite Z.pow_succ_r by lia.
            pose proof (pow2_pos (n2 - 1)). lia. }
          nia. }
        destruct (Z.eq_dec P 0) as [HP0 | HP0].
        -- left. split; [ exact HP0 | ].
           subst n1. rewrite HP0 in *. cbn [Zdigits2] in *. rewrite fexp_eq in *. lia.
        -- exfalso. destruct Hshift1 as [Hn Hpos]; [ lia | nia | lia ].
      * right. exists (n1 + n2). split; [ lia | split; [ lia | ] ].
        rewrite Hpow. nia.
  - (* negative mantissa: impossible *)
    pose proof (Z.div_pos m2 (2 ^ n2) Hm2 HB). lia.
Qed.

(** *** Valid numbers and their order *)

(** A valid mantissa has at most 53 bits, and exactly 53 unless the number
    is subnormal. *)
Lemma bounded_inv (m : positive) (e : Z) :
  SpecFloat.bounded prec emax m e = true ->
  -1074 <= e <= 971 /\ Zpos m < 2 ^ 53 /\ (2 ^ 52 <= Zpos m \/ e = -1074).
Proof.
  unfold SpecFloat.bounded, canonical_mantissa. rewrite fexp_eq.
  intros H. apply andb_true_iff in H. destruct H as [Hc He].
  apply Z.eqb_eq in Hc. apply Z.leb_le in He. change (emax - prec) with 971 in He.
  pose proof (digits2_pos_bounds m) as [Hlo Hhi].
  set (d := Zpos (digits2_pos m)) in *.
  assert (d <= 53) by lia.
  split; [ lia | split ].
  - apply Z.lt_le_trans with (1 := Hhi). apply Z.pow_le_mono_r; lia.
  - destruct (Z.eq_dec e (-1074)) as [| Hne]; [ right; assumption | left ].
    assert (d = 53) by lia. replace 52 with (d - 1) by lia. exact Hlo.
Qed.

Local Open Scope R_scope.

Lemma val_finite_pos (m : positive) (e : Z) : 0 < IZR (Zpos m) * bpow e.
Proof.
  apply Rmult_lt_0_compat; [ apply IZR_lt; lia | apply bpow_pos ].
Qed.

(** The unit in the last place of a valid number, against its value. *)
Lemma ulp_le (m : positive) (e : Z) :
  SpecFloat.bounded prec emax m e = true ->
  bpow e <= bpow (-52) * (IZR (Zpos m) * bpow e) + bpow (-1074).
Proof.
  intros H. apply bounded_inv in H. destruct H as (_ & _ & [Hn | He]).
  - assert (H52 : IZR (2 ^ 52) <= IZR (Zpos m)) by (apply IZR_le; exact Hn).
    rewrite <- bpow_IZR in H52 by lia.
    assert (Hone : bpow (-52) * bpow 52 = 1).
    { rewrite <- bpow_add. reflexivity. }
    pose proof (bpow_pos e). pose proof (bpow_pos (-52)). pose proof (bpow_pos (-1074)).
    assert (bpow (-52) * bpow 52 * bpow e <= bpow (-52) * IZR (Zpos m) * bpow e).
    { apply Rmult_le_compat_r; [ lra | ].
      apply Rmult_le_compat_l; [ lra | exact H52 ]. }
    nra.
  - subst e. pose proof (val_finite_pos m (-1074)). pose proof (bpow_pos (-52)). nra.
Qed.

(** The order of two valid positive numbers is the order of their values. *)
Lemma compare_exp_lt (m1 m2 : positive) (e1 e2 : Z) :
  SpecFloat.bounded prec emax m1 e1 = true -> SpecFloat.bounded prec emax m2 e2 = true ->
  (e1 < e2)%Z -> IZR (Zpos m1) * bpow e1 < IZR (Zpos m2) * bpow e2.
Proof.
  intros H1 H2 Hlt.
  apply bounded_inv in H1. destruct H1 as (He1 & Hm1 & _).
  apply bounded_inv in H2. destruct H2 as (He2 & _ & [Hm2 | He]); [ | lia ].
  apply IZR_lt in Hm1. apply IZR_le in Hm2.
  rewrite <- bpow_IZR in Hm1, Hm2 by lia.
  assert (Hs : bpow 53 * bpow e1 <= bpow 52 * bpow e2).
  { rewrite <- !bpow_add. apply bpow_le. lia. }
  pose proof (bpow_pos e1). pose proof (bpow_pos e2).
  apply Rlt_le_trans with (bpow 53 * bpow e1).
  - apply Rmult_lt_compat_r; assumption.
  - apply Rle_trans with (1 := Hs). apply Rmult_le_compat_r; lra.
Qed.

Lemma SFcompare_val (m1 m2 : positive) (e1 e2 : Z) :
  SpecFloat.bounded prec emax m1 e1 = true -> SpecFloat.bounded prec emax m2 e2 = true ->
  match SFcompare (S754_finite false m1 e1) (S754_finite false m2 e2) with
  | Some Lt => IZR (Zpos m1) * bpow e1 < IZR (Zpos m2) * bpow e2
  | Some Eq => IZR (Zpos m1) * bpow e1 = IZR (Zpos m2) * bpow e2
  | Some Gt => IZR (Zpos m2) * bpow e2 < IZR (Zpos m1) * bpow e1
  | None => False
  end.
Proof.
  intros H1 H2. cbn [SFcompare].
  destruct (Z.compare_spec e1 e2) as [<- | Hlt | Hgt].
  - pose proof (bpow_pos e1).
    change (Pos.compare_cont Eq m1 m2) with (Pos.compare m1 m2).
    destruct (Pos.compare_spec m1 m2) as [-> | Hm | Hm].
    + reflexivity.
    + apply Rmult_lt_compat_r; [ assumption | apply IZR_lt; lia ].
    + apply Rmult_lt_compat_r; [ assumption | apply IZR_lt; lia ].
  - apply compare_exp_lt; assumption.
  - apply compare_exp_lt; [ assumption | assumption | lia ].
Qed.

Lemma nonneg_finite_val (x : number) : nonneg_finite x -> 0 <= val x.
Proof.
  unfold nonneg_finite, val.
  destruct (Prim2SF x) as [s | s | | [] m e]; cbn; try lra; try tauto.
  intros _. pose proof (val_finite_pos m e). lra.
Qed.

(** [<] and [<=] on non-negative finite numbers are the order of the values. *)
Lemma ltb_val (x y : number) :
  nonneg_finite x -> nonneg_finite y -> ((x <? y)%float = true <-> val x < val y).
Proof.
  unfold nonneg_finite, val. rewrite ltb_spec.
  pose proof (Prim2SF_valid x) as Vx. pose proof (Prim2SF_valid y) as Vy.
  destruct (Prim2SF x) as [sx | sx | | [] mx ex]; try tauto;
  destruct (Prim2SF y) as [sy | sy | | [] my ey]; try tauto; intros _ _; cbn [valR].
  - cbn. split; [ discriminate | lra ].
  - cbn. pose proof (val_finite_pos my ey). tauto.
  - cbn. pose proof (val_finite_pos mx ex). split; [ discriminate | lra ].
  - pose proof (SFcompare_val mx my ex ey Vx Vy) as H. unfold SFltb.
    destruct (SFcompare _ _) as [[] |]; split; try discriminate; try lra; tauto.
Qed.

Lemma leb_val (x y : number) :
  nonneg_finite x -> nonneg_finite y -> ((x <=? y)%float = true <-> val x <= val y).
Proof.
  unfold nonneg_finite, val. rewrite leb_spec.
  pose proof (Prim2SF_valid x) as Vx. pose proof (Prim2SF_valid y) as Vy.
  destruct (Prim2SF x) as [sx | sx | | [] mx ex]; try tauto;
  destruct (Prim2SF y) as [sy | sy | | [] my ey]; try tauto; intros _ _; cbn [valR].
  - cbn. split; [ lra | reflexivity ].
  - cbn. pose proof (val_finite_pos my ey). split; [ lra | reflexivity ].
  - cbn. pose proof (val_finite_pos mx ex). split; [ discriminate | lra ].
  - pose proof (SFcompare_val mx my ex ey Vx Vy) as H. unfold SFleb.
    destruct (SFcompare _ _) as [[] |]; split; try discriminate; try lra; tauto.
Qed.

(** *** The error of one rounding *)

Local Open Scope Z_scope.

Lemma bpow_neg (k : Z) : 0 <= k -> bpow (- k) = (/ IZR (2 ^ k))%R.
Proof.
  intros Hk. unfold bpow. rewrite powerRZ_neg'. fold (bpow k).
  rewrite bpow_IZR by exact Hk. reflexivity.
Qed.

Lemma bpow_scale (E t : Z) : 0 <= t -> bpow (E + t) = (IZR (2 ^ t) * bpow E)%R.
Proof.
  intros Ht. rewrite Z.add_comm, bpow_add, bpow_IZR by exact Ht. reflexivity.
Qed.

Lemma rounds_zero : rounds 0 0.
Proof.
  unfold rounds. rewrite Rminus_0_r, Rabs_R0, Rmult_0_r, Rplus_0_l.
  apply Rlt_le. apply bpow_pos.
Qed.

Lemma rounds_refl (c : R) : (0 <= c)%R -> rounds c c.
Proof.
  intros Hc. unfold rounds. unfold Rminus. rewrite Rplus_opp_r, Rabs_R0.
  pose proof (bpow_pos (-51)). pose proof (bpow_pos (-1073)). nra.
Qed.

(** The result of rounding a non-negative real [x] given by its integer
    part [P] in units of [2^E]. *)
Lemma binary_round_aux_error (P E : Z) (l : location) (x : R) :
  0 <= P -> (P = 0 -> E <= -1074) ->
  (IZR P * bpow E <= x <= IZR (P + 1) * bpow E)%R ->
  (x < bpow 970)%R ->
  valid_binary (binary_round_aux prec emax false P E l) = true ->
  match binary_round_aux prec emax false P E l with
  | S754_zero _ | S754_finite false _ _ => True
  | _ => False
  end /\
  rounds (valR (binary_round_aux prec emax false P E l)) x.
Proof.
  intros HP HP0 Hx Hbig Hvalid.
  pose proof (binary_round_aux_cases false P E l HP) as H.
  pose proof (bpow_pos E) as HE.
  assert (Hx0 : (0 <= x)%R).
  { apply Rle_trans with (2 := proj1 Hx).
    apply Rmult_le_pos; [ apply IZR_le; exact HP | lra ]. }
  destruct (binary_round_aux prec emax false P E l) as [s | s | | s m e].
  - split; [ exact I | ]. destruct H as [_ H]. cbn [valR]. unfold rounds.
    rewrite Rminus_0_l, Rabs_Ropp, Rabs_pos_eq, Rmult_0_r, Rplus_0_l by exact Hx0.
    apply Rle_trans with (bpow (-1074)); [ | apply bpow_le; lia ].
    destruct H as [-> | [HE' Hlt]].
    + apply Rle_trans with (1 := proj2 Hx). change (IZR (0 + 1)) with 1%R. rewrite Rmult_1_l.
      apply bpow_le. apply HP0. reflexivity.
    + apply Rle_trans with (1 := proj2 Hx).
      replace (-1074) with (E + (-1074 - E)) by lia. rewrite bpow_scale by lia.
      apply Rmult_le_compat_r; [ lra | ]. apply IZR_le. lia.
  - exfalso. destruct H as [_ [[-> HE'] | (t & Ht & HEt & Hpow)]].
    + specialize (HP0 eq_refl). lia.
    + apply IZR_le in Hpow. rewrite mult_IZR in Hpow.
      assert (Hb : (bpow (E + t) <= 2 * x)%R).
      { rewrite bpow_scale by exact Ht.
        apply Rle_trans with (2 * IZR P * bpow E)%R; [ | lra ].
        apply Rmult_le_compat_r; [ lra | exact Hpow ]. }
      assert (Hc : (bpow 972 <= bpow (E + t))%R) by (apply bpow_le; lia).
      assert (Hd : (2 * bpow 970 = bpow 971)%R).
      { change 971 with (1 + 970). rewrite bpow_double. reflexivity. }
      assert (He : (bpow 971 < bpow 972)%R) by (apply bpow_lt; lia).
      lra.
  - contradiction.
  - destruct H as (-> & HEe & Hlo & Hhi). split; [ exact I | ].
    cbn [valid_binary] in Hvalid. pose proof (ulp_le m e Hvalid) as Hulp.
    cbn [valR]. unfold rounds.
    replace e with (E + (e - E)) in * by lia.
    set (t := e - E) in *. assert (Ht : 0 <= t) by lia.
    replace (E + t - E) with t in * by lia.
    rewrite bpow_scale in * by exact Ht.
    assert (Hlo' : ((IZR (Zpos m) - 1) * IZR (2 ^ t) <= IZR P)%R).
    { rewrite <- minus_IZR, <- mult_IZR. apply IZR_le. exact Hlo. }
    assert (Hhi' : (IZR (P + 1) <= (IZR (Zpos m) + 2) * IZR (2 ^ t))%R).
    { rewrite <- plus_IZR, <- mult_IZR. apply IZR_le. lia. }
    assert (H51 : (bpow (-51) = 2 * bpow (-52))%R).
    { change (-51) with (1 + -52). apply bpow_double. }
    assert (H1073 : (bpow (-1073) = 2 * bpow (-1074))%R).
    { change (-1073) with (1 + -1074). apply bpow_double. }
    rewrite H51, H1073.
    set (u := (IZR (2 ^ t) * bpow E)%R) in *.
    assert (Hl : ((IZR (Zpos m) - 1) * u <= x)%R).
    { apply Rle_trans with (2 := proj1 Hx). unfold u. rewrite <- Rmult_assoc.
      apply Rmult_le_compat_r; [ lra | exact Hlo' ]. }
    assert (Hh : (x <= (IZR (Zpos m) + 2) * u)%R).
    { apply Rle_trans with (1 := proj2 Hx). unfold u. rewrite <- Rmult_assoc.
      apply Rmult_le_compat_r; [ lra | exact Hhi' ]. }
    apply Rabs_le. lra.
Qed.

(** Rounding what is already in the format changes nothing. *)
Lemma binary_round_aux_exact (s : bool) (p : positive) (E : Z) :
  fexp prec emax (Zpos (digits2_pos p) + E) <= E -> E <= 971 ->
  binary_round_aux prec emax s (Zpos p) E loc_Exact = S754_finite s p E.
Proof.
  intros Hf HE. unfold binary_round_aux.
  assert (Hs : forall l, shr_fexp prec emax (Zpos p) E l = (shr_record_of_loc (Zpos p) l, E)).
  { intros l. unfold shr_fexp, shr. cbn [Zdigits2].
    destruct (fexp prec emax (Zpos (digits2_pos p) + E) - E) eqn:Hn; try reflexivity. lia. }
  rewrite Hs. cbn [shr_record_of_loc shr_m loc_of_shr_record round_nearest_even].
  rewrite Hs. cbn [shr_record_of_loc shr_m].
  change (emax - prec) with 971. destruct (Z.leb_spec E 971); [ reflexivity | lia ].
Qed.

Lemma iter_xO_val (m d : positive) : Zpos (Pos.iter xO m d) = Zpos m * 2 ^ Zpos d.
Proof.
  induction d as [| d IH] using Pos.peano_ind.
  - cbn. lia.
  - rewrite Pos.iter_succ, Pos2Z.inj_xO, IH, Pos2Z.inj_succ, Z.pow_succ_r by lia. ring.
Qed.

Lemma iter_xO_digits (m d : positive) :
  Zpos (digits2_pos (Pos.iter xO m d)) = Zpos (digits2_pos m) + Zpos d.
Proof.
  induction d as [| d IH] using Pos.peano_ind.
  - cbn. lia.
  - rewrite Pos.iter_succ. cbn [digits2_pos]. rewrite Pos2Z.inj_succ, IH. lia.
Qed.

Lemma shl_align_spec (m : positive) (e e' : Z) :
  let r := shl_align m e e' in
  snd r = Z.min e e' /\ Zpos (fst r) = Zpos m * 2 ^ (e - snd r) /\
  Zpos (digits2_pos (fst r)) = Zpos (digits2_pos m) + (e - snd r).
Proof.
  unfold shl_align. destruct (e' - e) as [| d | d] eqn:Hd; cbn [fst snd].
  - split; [ lia | ]. rewrite Z.sub_diag. cbn. lia.
  - split; [ lia | ]. rewrite Z.sub_diag. cbn. lia.
  - split; [ lia | ]. replace (e - e') with (Zpos d) by lia.
    split; [ apply iter_xO_val | apply iter_xO_digits ].
Qed.

Lemma shl_align_val (m : positive) (e e' : Z) :
  (IZR (Zpos (fst (shl_align m e e'))) * bpow (snd (shl_align m e e'))
   = IZR (Zpos m) * bpow e)%R.
Proof.
  destruct (shl_align_spec m e e') as (Hs & Hm & _).
  rewrite Hm, mult_IZR.
  assert (He : bpow e = (IZR (2 ^ (e - snd (shl_align m e e')))
                         * bpow (snd (shl_align m e e')))%R).
  { rewrite <- bpow_scale by lia. f_equal. lia. }
  rewrite He. ring.
Qed.

(** *** Products, quotients and sums of non-negative numbers *)

Local Open Scope Z_scope.

Lemma SFdiv_core_spec (m1 m2 : positive) (e1 e2 : Z) :
  let '(q, e', l) := SFdiv_core_binary prec emax (Zpos m1) e1 (Zpos m2) e2 in
  0 <= q /\ e' <= e1 - e2 /\
  q * Zpos m2 <= Zpos m1 * 2 ^ (e1 - e2 - e') < (q + 1) * Zpos m2 /\
  (q = 0 -> e' <= -1074).
Proof.
  unfold SFdiv_core_binary. cbn [Zdigits2]. rewrite fexp_eq.
  set (d1 := Zpos (digits2_pos m1)). set (d2 := Zpos (digits2_pos m2)).
  set (e' := Z.min (Z.max (d1 + e1 - (d2 + e2) - 53) (-1074)) (e1 - e2)).
  set (s := e1 - e2 - e').
  assert (Hs : 0 <= s) by (subst s e'; lia).
  set (m' := match s with Z.pos _ => Z.shiftl (Zpos m1) s | 0 => Zpos m1 | Z.neg _ => 0 end).
  assert (Hm' : m' = Zpos m1 * 2 ^ s).
  { subst m'. destruct s as [| p | p] eqn:Es.
    - cbn. lia.
    - apply Z.shiftl_mul_pow2. lia.
    - lia. }
  pose proof (Z_div_mod m' (Zpos m2) eq_refl) as Hdiv.
  destruct (Z.div_eucl m' (Zpos m2)) as [q r]. destruct Hdiv as [Heq Hr].
  cbv beta iota. fold s.
  pose proof (pow2_pos s Hs) as Hpow.
  assert (Hq : 0 <= q) by nia.
  split; [ exact Hq | ]. split; [ subst e'; lia | ].
  rewrite <- Hm'. split; [ nia | ].
  intros Hq0. subst q.
  assert (Hlt : m' < Zpos m2) by lia.
  pose proof (digits2_pos_bounds m1) as [Hlo1 _].
  pose proof (digits2_pos_bounds m2) as [_ Hhi2].
  fold d1 in Hlo1. fold d2 in Hhi2.
  assert (Hd1 : 0 < d1) by (subst d1; lia).
  assert (Hp : 2 ^ (d1 - 1 + s) < 2 ^ d2).
  { rewrite Z.pow_add_r by lia. nia. }
  apply Z.pow_lt_mono_r_iff in Hp; [ | lia | subst d2; lia ].
  subst s e'. lia.
Qed.

Local Open Scope R_scope.

Lemma Rdiv_bounds (a b q : R) :
  0 < b -> q * b <= a -> a <= (q + 1) * b -> q <= a / b <= q + 1.
Proof.
  intros Hb Hlo Hhi.
  assert (E : a / b * b = a) by (field; lra).
  split; apply Rmult_le_reg_r with b; try exact Hb; rewrite E; assumption.
Qed.

Lemma nonneg_finite_finite (x : number) : nonneg_finite x -> finite x.
Proof.
  unfold nonneg_finite, finite. destruct (Prim2SF x) as [| | | [] ? ?]; tauto.
Qed.

Lemma finite_not_nan (x : number) : finite x -> not_nan x.
Proof.
  unfold finite, not_nan. destruct (Prim2SF x); try tauto; discriminate.
Qed.

(** Product of two non-negative numbers. *)
Lemma mul_nn (x y : number) :
  nonneg_finite x -> nonneg_finite y -> val x * val y < bpow 970 ->
  nonneg_finite (x * y) /\ rounds (val (x * y)) (val x * val y).
Proof.
  unfold nonneg_finite, val.
  pose proof (Prim2SF_valid (x * y)) as V. rewrite mul_spec in *.
  destruct (Prim2SF x) as [sx | sx | | [] mx ex]; try tauto;
  destruct (Prim2SF y) as [sy | sy | | [] my ey]; try tauto; intros _ _ Hbig;
    cbn [SF64mul SFmul valR] in *;
    try (split; [ exact I | rewrite ?Rmult_0_l, ?Rmult_0_r; apply rounds_zero ]).
  assert (E : IZR (Zpos mx) * bpow ex * (IZR (Zpos my) * bpow ey)
              = IZR (Zpos (mx * my)) * bpow (ex + ey)).
  { rewrite Pos2Z.inj_mul, mult_IZR, bpow_add. ring. }
  rewrite E in *. unfold SF64mul, SFmul in *. cbn [xorb] in *.
  apply binary_round_aux_error; try assumption; try lia.
  split; [ lra | ].
  apply Rmult_le_compat_r; [ apply Rlt_le, bpow_pos | apply IZR_le; lia ].
Qed.

(** Quotient of a non-negative number by a positive one. *)
Lemma div_nn (x y : number) :
  nonneg_finite x -> nonneg_finite y -> 0 < val y -> val x < bpow 970 * val y ->
  nonneg_finite (x / y) /\ rounds (val (x / y)) (val x / val y).
Proof.
  unfold nonneg_finite, val.
  pose proof (Prim2SF_valid (x / y)) as V. rewrite div_spec in *.
  destruct (Prim2SF x) as [sx | sx | | [] mx ex]; try tauto;
  destruct (Prim2SF y) as [sy | sy | | [] my ey]; try tauto; intros _ _ Hy Hbig;
    cbn [valR] in *; try lra.
  - cbn. split; [ exact I | ]. unfold Rdiv. rewrite Rmult_0_l. apply rounds_zero.
  - unfold SF64div, SFdiv in *. cbn [xorb] in *.
    pose proof (SFdiv_core_spec mx my ex ey) as Hcore.
    destruct (SFdiv_core_binary prec emax (Zpos mx) ex (Zpos my) ey) as [[q e'] l].
    destruct Hcore as (Hq & He' & [Hlo Hhi] & Hq0).
    set (s := (ex - ey - e')%Z) in *.
    assert (Hs : (0 <= s)%Z) by (subst s; lia).
    pose proof (bpow_pos e') as HA. pose proof (bpow_pos ey) as HB.
    assert (Hb : 0 < IZR (Zpos my)) by (apply IZR_lt; lia).
    assert (Eex : bpow ex = IZR (2 ^ s) * bpow e' * bpow ey).
    { rewrite <- bpow_scale by exact Hs. rewrite <- bpow_add. f_equal. subst s. lia. }
    assert (EX : IZR (Zpos mx) * bpow ex / (IZR (Zpos my) * bpow ey)
                 = IZR (Zpos mx * 2 ^ s) / IZR (Zpos my) * bpow e').
    { rewrite Eex, mult_IZR. field. lra. }
    rewrite EX in *.
    assert (Hquot : IZR q <= IZR (Zpos mx * 2 ^ s) / IZR (Zpos my) <= IZR q + 1).
    { apply Rdiv_bounds; [ exact Hb | | ].
      - rewrite <- mult_IZR. apply IZR_le. exact Hlo.
      - rewrite <- (plus_IZR q 1), <- mult_IZR. apply IZR_le. lia. }
    apply binary_round_aux_error; try assumption.
    + split.
      * apply Rmult_le_compat_r; [ lra | apply Hquot ].
      * rewrite plus_IZR. apply Rmult_le_compat_r; [ lra | apply Hquot ].
    + rewrite <- EX. apply Rmult_lt_reg_r with (IZR (Zpos my) * bpow ey); [ lra | ].
      replace (IZR (Zpos mx) * bpow ex / (IZR (Zpos my) * bpow ey)
               * (IZR (Zpos my) * bpow ey)) with (IZR (Zpos mx) * bpow ex)
        by (field; lra).
      exact Hbig.
Qed.

(** Sum of two non-negative numbers. *)
Lemma add_nn (x y : number) :
  nonneg_finite x -> nonneg_finite y -> val x + val y < bpow 970 ->
  nonneg_finite (x + y) /\ rounds (val (x + y)) (val x + val y).
Proof.
  unfold nonneg_finite, val.
  pose proof (Prim2SF_valid (x + y)) as V. rewrite add_spec in *.
  destruct (Prim2SF x) as [sx | sx | | [] mx ex] eqn:Ex; try tauto;
  destruct (Prim2SF y) as [sy | sy | | [] my ey] eqn:Ey; try tauto; intros _ _ Hbig;
    cbn [valR] in *.
  - rewrite Rplus_0_l. split; [ | destruct sx, sy; cbn; apply rounds_zero ].
    destruct sx, sy; exact I.
  - cbn. rewrite Rplus_0_l. split; [ exact I | ].
    apply rounds_refl. apply Rlt_le, val_finite_pos.
  - cbn. rewrite Rplus_0_r. split; [ exact I | ].
    apply rounds_refl. apply Rlt_le, val_finite_pos.
  - unfold SF64add, SFadd in *. cbn [cond_Zopp] in *.
    set (ez := Z.min ex ey) in *.
    pose proof (shl_align_val mx ex ez) as Hvx.
    pose proof (shl_align_val my ey ez) as Hvy.
    destruct (shl_align_spec mx ex ez) as (Hsx & _).
    destruct (shl_align_spec my ey ez) as (Hsy & _).
    replace (Z.min ex ez) with ez in Hsx by (subst ez; lia).
    replace (Z.min ey ez) with ez in Hsy by (subst ez; lia).
    rewrite Hsx in Hvx. rewrite Hsy in Hvy.
    set (a := fst (shl_align mx ex ez)) in *. set (b := fst (shl_align my ey ez)) in *.
    change (Zpos a + Zpos b)%Z with (Zpos (a + b)) in *.
    cbn [binary_normalize] in *. unfold binary_round in *.
    pose proof (shl_align_val (a + b) ez
                  (fexp prec emax (Zpos (digits2_pos (a + b)) + ez))) as Hv.
    destruct (shl_align (a + b) ez (fexp prec emax (Zpos (digits2_pos (a + b)) + ez)))
      as [mz ez'].
    cbn [fst snd] in Hv.
    assert (E : IZR (Zpos mx) * bpow ex + IZR (Zpos my) * bpow ey
                = IZR (Zpos mz) * bpow ez').
    { rewrite Hv, <- Hvx, <- Hvy, Pos2Z.inj_add, plus_IZR. ring. }
    rewrite E in *.
    apply binary_round_aux_error; try assumption; try lia.
    split; [ lra | ].
    apply Rmult_le_compat_r; [ apply Rlt_le, bpow_pos | apply IZR_le; lia ].
Qed.

(** *** Integers and NaN *)

Local Open Scope Z_scope.

(** Integers below 2^53 are represented exactly. *)
Lemma binary_normalize_exact (p : positive) :
  Zpos p < 2 ^ 53 ->
  exists m e, binary_normalize prec emax (Zpos p) 0 false = S754_finite false m e /\
              (IZR (Zpos m) * bpow e = IZR (Zpos p))%R.
Proof.
  intros Hp. cbn [binary_normalize]. unfold binary_round.
  pose proof (digits2_pos_bounds p) as [Hlo _].
  set (d := Zpos (digits2_pos p)) in *.
  assert (Hd : 0 < d <= 53).
  { split; [ subst d; lia | ].
    assert (H : 2 ^ (d - 1) < 2 ^ 53) by lia.
    apply Z.pow_lt_mono_r_iff in H; lia. }
  destruct (shl_align_spec p 0 (fexp prec emax (d + 0))) as (Hs & _ & Hdig).
  pose proof (shl_align_val p 0 (fexp prec emax (d + 0))) as Hv.
  destruct (shl_align p 0 (fexp prec emax (d + 0))) as [mz ez].
  cbn [fst snd] in *. rewrite fexp_eq in Hs. fold d in Hdig.
  exists mz, ez. split.
  - apply binary_round_aux_exact; [ rewrite fexp_eq | ]; lia.
  - rewrite Hv. unfold bpow. rewrite powerRZ_O. ring.
Qed.

Lemma of_nat_exact (n : nat) :
  Z.of_nat n < 2 ^ 53 ->
  nonneg_finite (of_nat n) /\ val (of_nat n) = IZR (Z.of_nat n).
Proof.
  intros Hn. unfold of_nat, of_Z, nonneg_finite, val.
  destruct (Z.of_nat n) as [| p | p] eqn:En; [ | | lia ].
  - replace (Prim2SF PrimFloat.zero) with (S754_zero false) by (vm_compute; reflexivity).
    split; [ exact I | reflexivity ].
  - rewrite of_uint63_spec.
    replace (Uint63Axioms.to_Z (Uint63Axioms.of_Z (Zpos p))) with (Zpos p mod Uint63Axioms.wB)
      by (symmetry; apply Uint63.of_Z_spec).
    rewrite Z.mod_small.
    + destruct (binary_normalize_exact p Hn) as (m & e & -> & Hv).
      split; [ exact I | exact Hv ].
    + split; [ lia | ].
      apply Z.lt_trans with (1 := Hn). reflexivity.
Qed.

(** NaN is the only number that differs from itself. *)
Lemma is_nan_false (x : number) : not_nan x -> is_nan x = false.
Proof.
  unfold not_nan, is_nan. rewrite FloatAxioms.eqb_spec. unfold SFeqb.
  destruct (Prim2SF x) as [s | s | | s m e]; intros H; try reflexivity.
  - destruct s; reflexivity.
  - congruence.
  - cbn [SFcompare]. rewrite Z.compare_refl, Pcompare_refl. destruct s; reflexivity.
Qed.

Lemma binary_round_aux_not_nan (s : bool) (P E : Z) (l : location) :
  0 <= P -> binary_round_aux prec emax s P E l <> S754_nan.
Proof.
  intros HP H. pose proof (binary_round_aux_cases s P E l HP) as Hc. rewrite H in Hc. exact Hc.
Qed.

Lemma binary_normalize_not_nan (z e : Z) (s : bool) :
  binary_normalize prec emax z e s <> S754_nan.
Proof.
  destruct z as [| p | p]; cbn [binary_normalize]; [ discriminate | | ];
    unfold binary_round;
    destruct (shl_align p e _) as [mz ez]; apply binary_round_aux_not_nan; lia.
Qed.

Lemma sub_finite_not_nan (x y : number) : finite x -> finite y -> not_nan (x - y).
Proof.
  unfold finite, not_nan. rewrite sub_spec.
  destruct (Prim2SF x) as [sx | sx | | sx mx ex]; try tauto;
  destruct (Prim2SF y) as [sy | sy | | sy my ey]; try tauto; intros _ _;
    cbn [SF64sub SFsub]; try discriminate.
  - destruct sx, sy; discriminate.
  - unfold SF64sub, SFsub. apply binary_normalize_not_nan.
Qed.

Lemma add_not_nan_finite (x y : number) : not_nan x -> finite y -> not_nan (x + y).
Proof.
  unfold finite, not_nan. rewrite add_spec.
  destruct (Prim2SF x) as [sx | sx | | sx mx ex]; try tauto;
  destruct (Prim2SF y) as [sy | sy | | sy my ey]; try tauto; intros _ _;
    cbn [SF64add SFadd]; try discriminate.
  - destruct sx, sy; discriminate.
  - unfold SF64add, SFadd. apply binary_normalize_not_nan.
Qed.

Lemma add_finite_not_nan (x y : number) : finite x -> not_nan y -> not_nan (x + y).
Proof.
  unfold finite, not_nan. rewrite add_spec.
  destruct (Prim2SF x) as [sx | sx | | sx mx ex]; try tauto;
  destruct (Prim2SF y) as [sy | sy | | sy my ey]; try tauto; intros _ _;
    cbn [SF64add SFadd]; try discriminate.
  - destruct sx, sy; discriminate.
  - unfold SF64add, SFadd. apply binary_normalize_not_nan.
Qed.

Lemma sub_not_nan_finite (x y : number) : not_nan x -> finite y -> not_nan (x - y).
Proof.
  unfold finite, not_nan. rewrite sub_spec.
  destruct (Prim2SF x) as [sx | sx | | sx mx ex]; try tauto;
  destruct (Prim2SF y) as [sy | sy | | sy my ey]; try tauto; intros _ _;
    cbn [SF64sub SFsub]; try discriminate.
  - destruct sx, sy; discriminate.
  - unfold SF64sub, SFsub. apply binary_normalize_not_nan.
Qed.

(** A product by a finite non-zero constant is NaN only for a NaN. *)
Lemma mul_not_nan_const (x c : number) (s : bool) (m : positive) (e : Z) :
  Prim2SF c = S754_finite s m e -> not_nan x -> not_nan (x * c).
Proof.
  unfold not_nan. rewrite mul_spec. intros ->.
  destruct (Prim2SF x) as [sx | sx | | sx mx ex]; try tauto; intros _;
    cbn [SF64mul SFmul]; try discriminate.
  unfold SF64mul, SFmul. apply binary_round_aux_not_nan. lia.
Qed.

(** *** Literals and two-decimal rounding *)

(** The value of a literal below 2^52, as a fraction. *)
Ltac literal_value c H :=
  let r := eval vm_compute in (Prim2SF c) in
  lazymatch r with
  | S754_finite false ?m (Zneg ?k) =>
      let p := eval vm_compute in (2 ^ Zpos k)%Z in
      assert (H : val c = (IZR (Zpos m) / IZR p)%R)
        by (unfold val; replace (Prim2SF c) with r by (vm_compute; reflexivity);
            cbn [valR]; change (Zneg k) with (- Zpos k)%Z;
            rewrite bpow_neg by lia;
            replace (2 ^ Zpos k)%Z with p by (vm_compute; reflexivity);
            reflexivity)
  end.

Ltac literal_nonneg := vm_compute; exact I.

Lemma bpow_tiny (e : Z) : e <= -20 -> (bpow e <= / 1000000)%R.
Proof.
  intros He. apply Rle_trans with (bpow (-20)); [ apply bpow_le; exact He | ].
  replace (bpow (-20)) with (/ IZR (2 ^ 20))%R by (symmetry; apply (bpow_neg 20); lia).
  replace (2 ^ 20) with 1048576 by reflexivity.
  apply Rinv_le_contravar; lra.
Qed.

Lemma rounds_upper (c x B : R) :
  rounds c x -> (0 <= c)%R -> (x <= B)%R -> (c <= B + / 100000 * Rabs B + / 100000)%R.
Proof.
  unfold rounds. intros H Hc Hx.
  pose proof (bpow_tiny (-51) ltac:(lia)) as H1.
  pose proof (bpow_tiny (-1073) ltac:(lia)) as H2.
  pose proof (bpow_pos (-51)). pose proof (bpow_pos (-1073)).
  assert (Hd : (c - x <= bpow (-51) * c + bpow (-1073))%R).
  { apply Rle_trans with (2 := H). apply Rle_abs. }
  pose proof (Rle_abs B). pose proof (Rabs_pos B).
  assert (Hc' : (c * (1 - bpow (-51)) <= B + bpow (-1073))%R) by lra.
  nra.
Qed.

Lemma rounds_lower (c x B : R) :
  rounds c x -> (0 <= c)%R -> (0 <= B <= x)%R -> (B - / 100000 * B - / 100000 <= c)%R.
Proof.
  unfold rounds. intros H Hc Hx.
  pose proof (bpow_tiny (-51) ltac:(lia)) as H1.
  pose proof (bpow_tiny (-1073) ltac:(lia)) as H2.
  pose proof (bpow_pos (-51)). pose proof (bpow_pos (-1073)).
  assert (Hd : (x - c <= bpow (-51) * c + bpow (-1073))%R).
  { apply Rle_trans with (2 := H). rewrite Rabs_minus_sym. apply Rle_abs. }
  nra.
Qed.

(** *** [Math.min] and [Math.max] against the constants of the analyzers *)

Lemma Math_min_one (q : number) :
  not_nan q -> Math_min 1 q = 1%float \/ (Math_min 1 q = q /\ (q <? 1)%float = true).
Proof.
  intros Hq. unfold Math_min. rewrite (is_nan_false q Hq).
  change (is_nan 1) with false. cbn [orb].
  destruct (1 <? q)%float; [ left; reflexivity | ].
  destruct (q <? 1)%float; [ right; split; reflexivity | ].
  change (is_zero 1) with false. left. reflexivity.
Qed.

Lemma Math_max_zero (r : number) :
  not_nan r -> Math_max 0 r = 0%float \/ (Math_max 0 r = r /\ (0 <? r)%float = true).
Proof.
  intros Hr. unfold Math_max. rewrite (is_nan_false r Hr).
  change (is_nan 0) with false. cbn [orb].
  destruct (0 <? r)%float; [ right; split; reflexivity | ].
  destruct (r <? 0)%float; [ left; reflexivity | ].
  change (is_zero 0 && get_sign 0) with false. left. reflexivity.
Qed.

Lemma Math_max_floor (e : number) :
  not_nan e ->
  Math_max 0.3 e = 0.3%float \/ (Math_max 0.3 e = e /\ (0.3 <? e)%float = true).
Proof.
  intros He. unfold Math_max. rewrite (is_nan_false e He).
  change (is_nan 0.3) with false. cbn [orb].
  destruct (0.3 <? e)%float; [ right; split; reflexivity | ].
  destruct (e <? 0.3)%float; [ left; reflexivity | ].
  change (is_zero 0.3) with false. left. reflexivity.
Qed.

(** A number above a positive finite constant and below another one is
    positive and finite. *)
Lemma between_nonneg_finite (lo hi x : number) :
  nonneg_finite lo -> finite hi -> (lo <? x)%float = true -> (x <? hi)%float = true ->
  nonneg_finite x.
Proof.
  unfold nonneg_finite, finite. rewrite !ltb_spec. unfold SFltb.
  destruct (Prim2SF lo) as [sl | sl | | [] ml el]; try tauto;
  destruct (Prim2SF hi) as [sh | sh | | sh mh eh]; try tauto;
  destruct (Prim2SF x) as [sx | sx | | [] mx ex]; try tauto; intros _ _;
    cbn [SFcompare]; try discriminate; try (destruct sh; discriminate);
    try (destruct sx; discriminate).
Qed.

(** *** [Math.round] *)

Lemma Math_round_cases (y : number) :
  nonneg_finite y -> (val y < bpow 52)%R ->
  ((y = PrimFloat.zero \/ y = PrimFloat.neg_zero) /\ Math_round y = y /\ val y = 0%R) \/
  exists k, 0 <= k /\
    Math_round y = (if k =? 0 then PrimFloat.zero else of_Z k) /\
    (IZR k <= val y + / 2 < IZR k + 1)%R.
Proof.
  unfold nonneg_finite, val, Math_round.
  pose proof (Prim2SF_valid y) as V. pose proof (SF2Prim_Prim2SF y) as Hy.
  destruct (Prim2SF y) as [s | s | | [] m e]; try tauto; intros _ Hlt.
  - left. split; [ | split; reflexivity ].
    destruct s; cbn in Hy; [ right | left ]; symmetry; exact Hy.
  - right. cbn [valid_binary] in V. apply bounded_inv in V.
    destruct V as (He & Hm & Hnorm). cbn [valR] in *.
    assert (Hneg : e < 0).
    { destruct (Z_lt_le_dec e 0) as [| Hge]; [ assumption | exfalso ].
      destruct Hnorm as [Hn | ->]; [ | lia ].
      apply IZR_le in Hn. rewrite <- bpow_IZR in Hn by lia.
      assert (bpow 0 <= bpow e)%R by (apply bpow_le; lia).
      unfold bpow at 1 in H. rewrite powerRZ_O in H.
      pose proof (bpow_pos 52). nra. }
    destruct (Z.leb_spec 0 e); [ lia | ].
    unfold round_half_up.
    set (d := 2 ^ (- e)).
    assert (Hd : 0 < d) by (apply pow2_pos; lia).
    set (k := (2 * Zpos m + d) / (2 * d)).
    assert (Hk : 2 * d * k <= 2 * Zpos m + d < 2 * d * (k + 1)).
    { split; [ apply Z.mul_div_le | apply Z.mul_succ_div_gt ]; lia. }
    exists k. split; [ apply Z.div_pos; lia | ]. split; [ reflexivity | ].
    assert (Hb : bpow e = (/ IZR d)%R).
    { pose proof (bpow_neg (- e) ltac:(lia)) as Hb'.
      rewrite Z.opp_involutive in Hb'. exact Hb'. }
    rewrite Hb.
    assert (HD : (0 < IZR d)%R) by (apply IZR_lt; exact Hd).
    destruct Hk as [Hk1 Hk2]. apply IZR_le in Hk1. apply IZR_lt in Hk2.
    rewrite !mult_IZR, !plus_IZR, !mult_IZR in Hk1, Hk2.
    change (IZR 2) with 2%R in *. change (IZR 1) with 1%R in *.
    set (v := (IZR (Zpos m) * / IZR d)%R).
    assert (Hv : (IZR (Zpos m) = v * IZR d)%R) by (unfold v; field; lra).
    rewrite Hv in Hk1, Hk2. rewrite (plus_IZR k 1) in Hk2.
    split.
    + apply Rmult_le_reg_r with (2 * IZR d)%R; [ lra | ].
      replace ((v + / 2) * (2 * IZR d))%R with (2 * (v * IZR d) + IZR d)%R by field.
      lra.
    + apply Rmult_lt_reg_r with (2 * IZR d)%R; [ lra | ].
      replace ((v + / 2) * (2 * IZR d))%R with (2 * (v * IZR d) + IZR d)%R by field.
      lra.
Qed.

Lemma table_unit (k : Z) : 1 <= k <= 100 -> in_unit (of_Z k / 100) = true.
Proof.
  intros Hk.
  assert (H : forallb (fun n => in_unit (of_Z (Z.of_nat n) / 100)) (seq 1 100) = true)
    by (vm_compute; reflexivity).
  rewrite forallb_forall in H. specialize (H (Z.to_nat k)).
  rewrite Z2Nat.id in H by lia. apply H. apply in_seq. lia.
Qed.

Lemma table_floor (k : Z) : 30 <= k <= 100 -> (0.3 <=? of_Z k / 100)%float = true.
Proof.
  intros Hk.
  assert (H : forallb (fun n => (0.3 <=? of_Z (Z.of_nat n) / 100)%float) (seq 30 71) = true)
    by (vm_compute; reflexivity).
  rewrite forallb_forall in H. specialize (H (Z.to_nat k)).
  rewrite Z2Nat.id in H by lia. apply H. apply in_seq. lia.
Qed.

(** The two-decimal rounding of a number of [[0, 1]] (up to the rounding
    error of the division that produced it). *)
Lemma round2_cases (v : number) :
  nonneg_finite v -> (val v <= 1 + / 400)%R ->
  ((round2 v = (PrimFloat.zero / 100)%float \/ round2 v = (PrimFloat.neg_zero / 100)%float)
   /\ (100 * val v <= 3 / 4)%R) \/
  exists k, 1 <= k <= 100 /\ round2 v = (of_Z k / 100)%float /\
            (100 * val v - 3 / 4 <= IZR k)%R.
Proof.
  intros Hv Hle. unfold round2.
  literal_value 100%float H100.
  assert (N100 : nonneg_finite 100) by literal_nonneg.
  pose proof (nonneg_finite_val v Hv) as Hv0.
  assert (Hbig : (val v * val 100 < bpow 970)%R).
  { apply Rle_lt_trans with (bpow 10); [ | apply bpow_lt; lia ].
    rewrite (bpow_IZR 10) by lia. replace (2 ^ 10) with 1024 by reflexivity.
    rewrite H100. lra. }
  destruct (mul_nn v 100 Hv N100 Hbig) as [Hy Hr].
  set (y := (v * 100)%float) in *.
  pose proof (nonneg_finite_val y Hy) as Hy0.
  assert (Hup : (val y <= 100 * val v + / 100)%R).
  { pose proof (rounds_upper _ _ (val v * val 100) Hr Hy0 (Rle_refl _)) as H.
    rewrite Rabs_pos_eq in H by (rewrite H100; lra). rewrite H100 in H. lra. }
  assert (Hlo : (100 * val v - / 100 <= val y)%R).
  { pose proof (rounds_lower _ _ (val v * val 100) Hr Hy0) as H.
    rewrite H100 in H. lra. }
  assert (Hy52 : (val y < bpow 52)%R).
  { apply Rle_lt_trans with (bpow 10); [ | apply bpow_lt; lia ].
    rewrite (bpow_IZR 10) by lia. replace (2 ^ 10) with 1024 by reflexivity. lra. }
  destruct (Math_round_cases y Hy Hy52) as [([E | E] & Hround & Hval) | (k & Hk & Hround & Hkv)].
  - left. rewrite Hround, E. split; [ left; reflexivity | lra ].
  - left. rewrite Hround, E. split; [ right; reflexivity | lra ].
  - destruct (Z.eqb_spec k 0) as [-> | Hk0].
    + left. rewrite Hround. split; [ left; reflexivity | ].
      change (IZR 0) with 0%R in Hkv. lra.
    + right. exists k. split; [ | split; [ rewrite Hround; reflexivity | lra ] ].
      split; [ lia | ].
      assert (Hlt : (IZR k < IZR 101)%R) by (change (IZR 101) with 101%R; lra).
      apply lt_IZR in Hlt. lia.
Qed.

Lemma unit_of_bounded (v : number) :
  nonneg_finite v -> (val v <= 1 + / 400)%R -> in_unit (round2 v) = true.
Proof.
  intros Hv Hle.
  destruct (round2_cases v Hv Hle) as [[[-> | ->] _] | (k & Hk & -> & _)].
  - vm_compute. reflexivity.
  - vm_compute. reflexivity.
  - apply table_unit. exact Hk.
Qed.

Lemma floor_of_bounded (v : number) :
  nonneg_finite v -> (val 0.3 <= val v)%R -> (val v <= 1 + / 400)%R ->
  (0.3 <=? round2 v)%float = true.
Proof.
  intros Hv Hlo Hle.
  literal_value 0.3%float H03. rewrite H03 in Hlo.
  destruct (round2_cases v Hv Hle) as [[_ H] | (k & Hk & -> & Hkv)].
  - exfalso. lra.
  - apply table_floor. split; [ | lia ].
    assert (Hlt : (IZR 29 < IZR k)%R) by (change (IZR 29) with 29%R; lra).
    apply lt_IZR in Hlt. lia.
Qed.

End Binary64Facts.

(** * Properties *)

(** ** The session service *)

Module SessionFacts.
Import PsychologySession Samples.

(** C9. [isComplete] holds exactly when the responses number at least
    [min(8, number of loaded questions)]; so with fewer than 8 questions the
    session is complete as soon as every question has a response. *)
Theorem isComplete_iff_min_threshold : forall s : PsychologySession.t,
  (isComplete s = true <->
   Nat.min 8 (List.length (questions s)) <= List.length (responses s)) /\
  (List.length (questions s) < 8 ->
   List.length (responses s) = List.length (questions s) ->
   isComplete s = true) /\
  (List.length (responses s) < Nat.min 8 (List.length (questions s)) ->
   isComplete s = false).
Proof.
  intros s. unfold isComplete. repeat split.
  - intros H. apply Nat.leb_le in H. exact H.
  - intros H. apply Nat.leb_le. exact H.
  - intros Hq Hr. apply Nat.leb_le. lia.
  - intros H. apply Nat.leb_gt. exact H.
Qed.

Lemma isComplete_iff_min_threshold_witness :
  List.length (questions shortSession) < 8 /\
  List.length (responses shortSession) = List.length (questions shortSession) /\
  isComplete shortSession = true.
Proof.
  split; [ simpl; lia | split; [ reflexivity | ] ].
  apply (proj1 (proj2 (isComplete_iff_min_threshold shortSession)));
    [ simpl; lia | reflexivity ].
Defined.

End SessionFacts.

(** ** Comparisons against constants *)

Module NumberFacts.

(** A number above 0.5 is above 0.4: the binary64 order, read off the
    exponents and mantissas of the two constants. *)
Lemma gt_half_gt_two_fifths (h : number) : gt h 0.5 = true -> gt h 0.4 = true.
Proof.
  unfold gt. rewrite !ltb_spec.
  replace (Prim2SF 0.5) with (S754_finite false 4503599627370496 (-53))
    by (vm_compute; reflexivity).
  replace (Prim2SF 0.4) with (S754_finite false 7205759403792794 (-54))
    by (vm_compute; reflexivity).
  destruct (Prim2SF h) as [s|s| |s m e]; try (destruct s); try (cbn; congruence).
  unfold SFltb, SFcompare.
  destruct (Z.compare_spec (-53) e); destruct (Z.compare_spec (-54) e);
    try lia; congruence.
Qed.

End NumberFacts.

(** ** The profile aggregator *)

Module AggregatorFacts.
Import PsychologicalQuestionnaire Spec NumberFacts.

Lemma In_pushIf (x label : string) (test : bool) (traits : list string) :
  In x (pushIf test label traits) <-> (test = true /\ x = label) \/ In x traits.
Proof.
  unfold pushIf. destruct test.
  - rewrite in_app_iff. simpl. intuition congruence.
  - intuition congruence.
Qed.

(** The profile a call returns, field by field. *)
Lemma generate_returns (userName now : string) (answers : list Answer) (c : bool) :
  exists d, generatePsychologicalProfile userName now answers c = Return d /\
    name d = userName /\ PsychologicalQuestionnaire.answers d = answers /\
    data_consent d = c /\ session_completed_at d = now /\
    labelsOf (psych_profile d) =
      classify (avgVerbosity (meansOf answers)) (avgAuthenticity (meansOf answers))
        (avgConfidence (meansOf answers)) (avgHesitation (meansOf answers))
        (dominantEmotion (meansOf answers)) /\
    dominant_emotion (response_patterns (psych_profile d)) = dominantEmotion (meansOf answers) /\
    (forall x, In x (shadow_traits (psych_profile d)) <->
       (gt (avgHesitation (meansOf answers)) 0.5 = true /\ x = "tendency to overthink") \/
       (lt (avgConfidence (meansOf answers)) 0.4 = true /\ x = "self-doubt patterns") \/
       (lt (avgVerbosity (meansOf answers)) 0.3 = true /\ x = "communication guardedness") \/
       (gt (average responseTime answers) 60 = true /\ x = "perfectionist tendencies")) /\
    (forall x, In x (core_traits (psych_profile d)) <->
       (gt (avgAuthenticity (meansOf answers)) 0.7 = true /\ x = "authentic") \/
       (gt (avgVerbosity (meansOf answers)) 0.5 = true /\ x = "expressive") \/
       (gt (avgConfidence (meansOf answers)) 0.6 = true /\ x = "self-assured") \/
       (gt (avgHesitation (meansOf answers)) 0.4 = true /\ x = "thoughtful") \/
       (String.eqb (dominantEmotion (meansOf answers)) "contemplative" = true
          /\ x = "introspective") \/
       (gt (total wordCount answers) 200 = true /\ x = "articulate")).
Proof.
  unfold generatePsychologicalProfile, meansOf, labelsOf; cbn [avgVerbosity avgAuthenticity
    avgConfidence avgHesitation dominantEmotion].
  destruct (classify _ _ _ _ _) as [[a m] cm].
  eexists; split; [ reflexivity | ].
  cbn [name psych_profile PsychologicalQuestionnaire.answers data_consent
       session_completed_at archetype motivational_type communication_mode
       shadow_traits core_traits response_patterns dominant_emotion].
  repeat (split; [ reflexivity | ]).
  split; intros x; rewrite !In_pushIf; simpl; tauto.
Qed.

(** C10. Whenever the returned profile lists the shadow trait 'tendency to
    overthink' it also lists the core trait 'thoughtful': the first is there
    exactly when the mean hesitation is above 0.5, the second exactly when
    the same mean is above 0.4. *)
Theorem overthink_implies_thoughtful :
  forall (userName now : string) (answers : list Answer) (consent : bool),
  exists d, generatePsychologicalProfile userName now answers consent = Return d /\
    (In "tendency to overthink" (shadow_traits (psych_profile d)) <->
       gt (avgHesitation (meansOf answers)) 0.5 = true) /\
    (In "thoughtful" (core_traits (psych_profile d)) <->
       gt (avgHesitation (meansOf answers)) 0.4 = true) /\
    (In "tendency to overthink" (shadow_traits (psych_profile d)) ->
     In "thoughtful" (core_traits (psych_profile d))).
Proof.
  intros u now answers c.
  destruct (generate_returns u now answers c)
    as (d & Hd & _ & _ & _ & _ & _ & _ & Hshadow & Hcore).
  exists d. split; [ exact Hd | ].
  assert (Ho : In "tendency to overthink" (shadow_traits (psych_profile d)) <->
               gt (avgHesitation (meansOf answers)) 0.5 = true).
  { rewrite Hshadow. split.
    - intros [[H _] | [[_ H] | [[_ H] | [_ H]]]]; [ exact H | discriminate H .. ].
    - intros H. left. split; [ exact H | reflexivity ]. }
  assert (Ht : In "thoughtful" (core_traits (psych_profile d)) <->
               gt (avgHesitation (meansOf answers)) 0.4 = true).
  { rewrite Hcore. split.
    - intros [[_ H] | [[_ H] | [[_ H] | [[H _] | [[_ H] | [_ H]]]]]];
        [ discriminate H .. | exact H | discriminate H | discriminate H ].
    - intros H. do 3 right. left. split; [ exact H | reflexivity ]. }
  split; [ exact Ho | split; [ exact Ht | ] ].
  intros H. apply Ht. apply gt_half_gt_two_fifths. apply Ho. exact H.
Qed.

Lemma overthink_implies_thoughtful_witness :
  exists d,
    generatePsychologicalProfile "Ada" "2025-07-02T10:00:00.000Z"
      [answerWith "joy" 0.75] false = Return d /\
    In "tendency to overthink" (shadow_traits (psych_profile d)) /\
    In "thoughtful" (core_traits (psych_profile d)).
Proof.
  destruct (overthink_implies_thoughtful "Ada" "2025-07-02T10:00:00.000Z"
              [answerWith "joy" 0.75] false) as (d & Hd & Ho & _ & Himp).
  exists d. split; [ exact Hd | ].
  assert (H : In "tendency to overthink" (shadow_traits (psych_profile d)))
    by (apply Ho; vm_compute; reflexivity).
  split; [ exact H | apply Himp; exact H ].
Defined.

(** C1 (as the code has it). On an empty answer sequence the aggregation
    signals nothing: it returns a profile whose averages are NaN (0/0), whose
    dominant emotion is the fallback 'neutral', whose archetype is therefore
    'The Philosophical Observer', and whose trait lists are empty. *)
Theorem generate_empty_returns_profile :
  forall (userName now : string) (consent : bool),
    generatePsychologicalProfile userName now [] consent =
    Return
      {| name := userName;
         psych_profile :=
           {| archetype := "The Philosophical Observer";
              core_traits := [];
              motivational_type := "wisdom-seeking observer";
              shadow_traits := [];
              emotion_profile := "neutral dominant with moderate authenticity";
              honesty_index := nan;
              communication_mode := "analytical and reserved";
              tone_signature := "concise, measured";
              response_patterns :=
                {| avg_word_count := nan;
                   avg_response_time := nan;
                   emotional_range := 0;
                   dominant_emotion := "neutral" |} |};
         answers := [];
         data_consent := consent;
         session_completed_at := now |}.
Proof. intros userName now consent. reflexivity. Qed.

(** C1, refuted as stated: the call on the empty sequence does not throw. *)
Lemma generate_empty_does_not_throw :
  (exists d, generatePsychologicalProfile "Ada" "2025-07-02T10:00:00.000Z" [] false
             = Return d /\
             archetype (psych_profile d) = "The Philosophical Observer") /\
  ~ (exists message,
       generatePsychologicalProfile "Ada" "2025-07-02T10:00:00.000Z" [] false
       = Throw message).
Proof.
  split.
  - eexists. split; reflexivity.
  - intros [message H]. discriminate H.
Qed.

(** C2 (as the code has it). Two calls on the same non-empty list return
    the same name, profile, answers and consent flag; each result carries
    the clock reading of its own call, so the two results are identical
    exactly when the clock read the same. The argument list is returned as
    it was given. *)
Theorem generate_deterministic_up_to_timestamp :
  forall (userName : string) (answers : list Answer) (consent : bool)
         (now1 now2 : string),
    answers <> [] ->
    exists d1 d2,
      generatePsychologicalProfile userName now1 answers consent = Return d1 /\
      generatePsychologicalProfile userName now2 answers consent = Return d2 /\
      name d1 = name d2 /\
      psych_profile d1 = psych_profile d2 /\
      PsychologicalQuestionnaire.answers d1 = answers /\
      PsychologicalQuestionnaire.answers d2 = answers /\
      data_consent d1 = data_consent d2 /\
      session_completed_at d1 = now1 /\
      session_completed_at d2 = now2 /\
      (d1 = d2 <-> now1 = now2).
Proof.
  intros u answers c now1 now2 _.
  unfold generatePsychologicalProfile.
  destruct (classify _ _ _ _ _) as [[a m] cm].
  do 2 eexists. do 2 (split; [ reflexivity | ]).
  cbn [name psych_profile PsychologicalQuestionnaire.answers data_consent
       session_completed_at].
  repeat (split; [ reflexivity | ]).
  split.
  - intros H. apply (f_equal session_completed_at) in H. exact H.
  - intros H. rewrite H. reflexivity.
Qed.

Lemma generate_deterministic_up_to_timestamp_witness :
  exists d1 d2,
    generatePsychologicalProfile "Ada" "2025-07-02T10:00:00.000Z"
      [answerWith "joy" 0.5] true = Return d1 /\
    generatePsychologicalProfile "Ada" "2025-07-02T10:00:01.000Z"
      [answerWith "joy" 0.5] true = Return d2 /\
    psych_profile d1 = psych_profile d2 /\
    session_completed_at d1 = "2025-07-02T10:00:00.000Z" /\
    session_completed_at d2 = "2025-07-02T10:00:01.000Z".
Proof.
  destruct (generate_deterministic_up_to_timestamp "Ada" [answerWith "joy" 0.5] true
              "2025-07-02T10:00:00.000Z" "2025-07-02T10:00:01.000Z")
    as (d1 & d2 & H1 & H2 & _ & Hp & _ & _ & _ & Ht1 & Ht2 & _).
  - discriminate.
  - exists d1, d2. repeat split; assumption.
Defined.

(** C2, refuted as stated: the same non-empty list, aggregated at two
    different instants, gives two different results. *)
Lemma generate_repeated_calls_differ :
  [answerWith "joy" 0.5] <> [] /\
  generatePsychologicalProfile "Ada" "2025-07-02T10:00:00.000Z"
    [answerWith "joy" 0.5] true
  <> generatePsychologicalProfile "Ada" "2025-07-02T10:00:01.000Z"
       [answerWith "joy" 0.5] true.
Proof.
  split; [ discriminate | ].
  intros H. vm_compute in H. discriminate H.
Qed.

Lemma classify_firstMatch (m : Means) :
  classify (avgVerbosity m) (avgAuthenticity m) (avgConfidence m) (avgHesitation m)
    (dominantEmotion m) = firstMatch archetypeRules m.
Proof.
  unfold classify, archetypeRules, toneRules, emotionRule. cbn [app firstMatch].
  reflexivity.
Qed.

Lemma noneMatches_firstMatch (rules : list ((Means -> bool) * Labels)) (m : Means) :
  noneMatches rules m = true -> firstMatch rules m = defaultLabels.
Proof.
  induction rules as [| [test labels] rest IH]; intros H; [ reflexivity | ].
  cbn in H. apply andb_true_iff in H. destruct H as [Ht Hr].
  cbn. apply negb_true_iff in Ht. rewrite Ht. apply IH. exact Hr.
Qed.

(** C7 (as the code has it). For a session whose emotion labels are of
    the closed set (the keys on which the histogram of the embedding is
    the object of the code), the archetype, motivational type and communication
    mode are read off an ordered decision list, first match winning: three
    rules that are thresholds on the mean tone metrics, then a fourth rule
    on the dominant emotion. When none of the four rules matches the
    archetype is 'The Balanced Explorer'; when none of the three tone
    rules matches it is 'The Philosophical Observer' for a dominant
    emotion 'contemplative' or 'neutral', and 'The Balanced Explorer'
    otherwise. *)
Theorem archetype_is_ordered_decision_list :
  forall (userName now : string) (answers : list Answer) (consent : bool),
  Forall (fun a => In (emotionDetected a) emotionLabels) answers ->
  exists d, generatePsychologicalProfile userName now answers consent = Return d /\
    labelsOf (psych_profile d) = firstMatch archetypeRules (meansOf answers) /\
    (noneMatches archetypeRules (meansOf answers) = true ->
     archetype (psych_profile d) = "The Balanced Explorer") /\
    (noneMatches toneRules (meansOf answers) = true ->
     archetype (psych_profile d) =
       if fst emotionRule (meansOf answers)
       then "The Philosophical Observer" else "The Balanced Explorer").
Proof.
  intros u now answers c _.
  destruct (generate_returns u now answers c) as (d & Hd & _ & _ & _ & _ & Hl & _).
  exists d. split; [ exact Hd | ].
  rewrite classify_firstMatch in Hl.
  split; [ exact Hl | ].
  assert (Ha : archetype (psych_profile d) = fst (fst (labelsOf (psych_profile d))))
    by reflexivity.
  split.
  - intros H. rewrite Ha, Hl, (noneMatches_firstMatch _ _ H). reflexivity.
  - intros H. rewrite Ha, Hl. unfold archetypeRules.
    unfold noneMatches, toneRules in H. cbn [forallb fst] in H.
    repeat (apply andb_true_iff in H; destruct H as [?Ht H]).
    repeat match goal with Hn : negb _ = true |- _ => apply negb_true_iff in Hn end.
    unfold toneRules. cbn [app firstMatch].
    rewrite Ht, Ht0, Ht1.
    destruct (fst emotionRule (meansOf answers)) eqn:He;
      unfold emotionRule in He |- *; cbn [fst] in He; rewrite He; reflexivity.
Qed.

Lemma archetype_is_ordered_decision_list_witness :
  exists d,
    generatePsychologicalProfile "Ada" "2025-07-02T10:00:00.000Z"
      [answerWith "joy" 0.5] true = Return d /\
    noneMatches archetypeRules (meansOf [answerWith "joy" 0.5]) = true /\
    archetype (psych_profile d) = "The Balanced Explorer".
Proof.
  destruct (archetype_is_ordered_decision_list "Ada" "2025-07-02T10:00:00.000Z"
              [answerWith "joy" 0.5] true) as (d & Hd & _ & Hnone & _).
  { repeat constructor. }
  exists d. split; [ exact Hd | ].
  split; [ vm_compute; reflexivity | apply Hnone; vm_compute; reflexivity ].
Defined.

(** C7, refuted as stated: two sessions with the same mean tone metrics,
    none of the tone-threshold rules matching, are classified differently,
    and one of them is not given the default archetype. *)
Lemma archetype_not_decided_by_tone_metrics :
  (let m1 := meansOf [answerWith "neutral" 0.5] in
   let m2 := meansOf [answerWith "joy" 0.5] in
   avgVerbosity m1 = avgVerbosity m2 /\ avgAuthenticity m1 = avgAuthenticity m2 /\
   avgConfidence m1 = avgConfidence m2 /\ avgHesitation m1 = avgHesitation m2 /\
   noneMatches toneRules m1 = true /\ noneMatches toneRules m2 = true) /\
  (exists d1 d2,
     generatePsychologicalProfile "Ada" "2025-07-02T10:00:00.000Z"
       [answerWith "neutral" 0.5] true = Return d1 /\
     generatePsychologicalProfile "Ada" "2025-07-02T10:00:00.000Z"
       [answerWith "joy" 0.5] true = Return d2 /\
     archetype (psych_profile d1) = "The Philosophical Observer" /\
     archetype (psych_profile d2) = "The Balanced Explorer" /\
     archetype (psych_profile d1) <> "The Balanced Explorer").
Proof.
  split.
  - vm_compute. repeat split; reflexivity.
  - do 2 eexists. do 2 (split; [ vm_compute; reflexivity | ]).
    split; [ reflexivity | split; [ reflexivity | discriminate ] ].
Qed.

End AggregatorFacts.

(** ** Emotion detection *)

Module EmotionFacts.
Import Spec.

Section Loop.
Variable words : list string.

(** The loop from any state: it keeps the state when no remaining entry
    beats [maxMatches], and otherwise ends on the first entry that reaches
    the greatest remaining count. *)
Lemma detect_fold (table : object (list string)) :
  forall (detected : string) (maxMatches : nat),
    fold_left (detectStep words) table (detected, maxMatches) =
    if (list_max (matchCounts table words) <=? maxMatches)%nat
    then (detected, maxMatches)
    else (firstWith words table (list_max (matchCounts table words)),
          list_max (matchCounts table words)).
Proof.
  induction table as [| [e ks] rest IH]; intros d m; [ reflexivity | ].
  cbn [fold_left detectStep matchCounts map snd list_max fold_right].
  fold (matchCounts rest words). fold (list_max (matchCounts rest words)).
  set (c := keywordMatches words ks). set (Mr := list_max (matchCounts rest words)).
  unfold firstWith. cbn [find snd]. fold c.
  destruct (Nat.ltb_spec m c) as [Hlt | Hge].
  - rewrite IH. fold Mr.
    destruct (Nat.leb_spec Mr c) as [Hle | Hgt].
    + rewrite Nat.max_l by exact Hle.
      destruct (Nat.leb_spec c m); [ lia | ].
      rewrite Nat.eqb_refl. reflexivity.
    + rewrite Nat.max_r by lia.
      destruct (Nat.leb_spec Mr m); [ lia | ].
      destruct (Nat.eqb_spec c Mr); [ lia | ]. reflexivity.
  - rewrite IH. fold Mr.
    destruct (Nat.leb_spec Mr m) as [Hle | Hgt].
    + destruct (Nat.leb_spec (Nat.max c Mr) m); [ reflexivity | lia ].
    + rewrite Nat.max_r by lia.
      destruct (Nat.leb_spec Mr m); [ lia | ].
      destruct (Nat.eqb_spec c Mr); [ lia | ]. reflexivity.
Qed.

Lemma detectEmotion_firstMaximal (table : object (list string)) :
  detectEmotion table words = firstMaximal table words.
Proof.
  unfold detectEmotion, detectLoop, firstMaximal. rewrite detect_fold.
  destruct (Nat.leb_spec (list_max (matchCounts table words)) 0) as [H | H].
  - assert (E : list_max (matchCounts table words) = 0) by lia.
    rewrite E. reflexivity.
  - destruct (Nat.eqb_spec (list_max (matchCounts table words)) 0); [ lia | ].
    reflexivity.
Qed.

Lemma list_max_split (pre post : list nat) (c : nat) :
  Forall (fun n => n < c) pre -> Forall (fun n => n <= c) post ->
  list_max (pre ++ c :: post) = c.
Proof.
  intros Hpre Hpost. rewrite list_max_app. cbn [list_max fold_right].
  fold (list_max post).
  assert (list_max pre <= c).
  { apply list_max_le. eapply Forall_impl; [ | exact Hpre ]. cbn. intros; lia. }
  assert (list_max post <= c) by (apply list_max_le; exact Hpost).
  lia.
Qed.

(** An entry that beats every earlier entry and is not beaten by a later
    one is the entry returned. *)
Lemma firstMaximal_split (table pre post : object (list string))
    (e : string) (ks : list string) :
  table = (pre ++ (e, ks) :: post)%list ->
  0 < keywordMatches words ks ->
  Forall (fun entry => keywordMatches words (snd entry) < keywordMatches words ks) pre ->
  Forall (fun entry => keywordMatches words (snd entry) <= keywordMatches words ks) post ->
  firstMaximal table words = e.
Proof.
  intros -> Hpos Hpre Hpost. unfold firstMaximal, matchCounts.
  rewrite map_app. cbn [map snd].
  rewrite list_max_split; [ | rewrite Forall_map; exact Hpre
                            | rewrite Forall_map; exact Hpost ].
  destruct (Nat.eqb_spec (keywordMatches words ks) 0); [ lia | ].
  unfold firstWith. clear Hpost. induction pre as [| [e' ks'] pre IH].
  - cbn [app find snd]. rewrite Nat.eqb_refl. reflexivity.
  - cbn [app find snd]. inversion Hpre as [| ? ? Hlt Hrest]; subst.
    cbn [snd] in Hlt.
    destruct (Nat.eqb_spec (keywordMatches words ks') (keywordMatches words ks));
      [ lia | ].
    apply IH. exact Hrest.
Qed.

Lemma firstMaximal_zero (table : object (list string)) :
  Forall (fun n => n = 0) (matchCounts table words) ->
  firstMaximal table words = "neutral".
Proof.
  intros H. unfold firstMaximal.
  assert (E : list_max (matchCounts table words) = 0).
  { apply Nat.le_0_r. apply list_max_le.
    eapply Forall_impl; [ | exact H ]. cbn. intros; lia. }
  rewrite E. reflexivity.
Qed.

End Loop.

(** C3 (as the code has it). In both questionnaire analyzers the returned
    label is 'neutral' when no keyword matches, and otherwise the first
    emotion of the mapping, in its order, that reaches the greatest match
    count: an emotion whose count is strictly greatest is returned, and
    among emotions tied at the greatest count the earliest one is returned
    (not 'neutral'). *)
Theorem detected_emotion_is_first_maximal : forall text : string,
  let words := tokens text in
  (emotion (PsychologicalQuestionnaire.analyzeResponse text)
     = firstMaximal PsychologicalQuestionnaire.emotionKeywords words /\
   emotion (EnhancedPsychQuestionnaire.analyzeResponse text)
     = firstMaximal EnhancedPsychQuestionnaire.emotionKeywords words) /\
  (forall table,
     table = PsychologicalQuestionnaire.emotionKeywords \/
     table = EnhancedPsychQuestionnaire.emotionKeywords ->
     (Forall (fun n => n = 0) (matchCounts table words) ->
      firstMaximal table words = "neutral") /\
     (forall pre post e ks,
        table = (pre ++ (e, ks) :: post)%list ->
        0 < keywordMatches words ks ->
        Forall (fun entry => keywordMatches words (snd entry)
                             < keywordMatches words ks) pre ->
        Forall (fun entry => keywordMatches words (snd entry)
                             <= keywordMatches words ks) post ->
        firstMaximal table words = e)).
Proof.
  intros text words. split.
  - split; apply detectEmotion_firstMaximal.
  - intros table _. split.
    + apply firstMaximal_zero.
    + intros pre post e ks. apply firstMaximal_split.
Qed.

Lemma detected_emotion_is_first_maximal_witness :
  emotion (PsychologicalQuestionnaire.analyzeResponse "so happy and so sad") = "joy" /\
  firstMaximal PsychologicalQuestionnaire.emotionKeywords
    (tokens "so happy and so sad") = "joy".
Proof.
  pose proof (detected_emotion_is_first_maximal "so happy and so sad") as [[Hp _] Hc].
  split; [ reflexivity | ].
  destruct (Hc PsychologicalQuestionnaire.emotionKeywords (or_introl eq_refl))
    as [_ Hsplit].
  apply (Hsplit [] (tl PsychologicalQuestionnaire.emotionKeywords) "joy"
           (snd (hd ("", []) PsychologicalQuestionnaire.emotionKeywords))).
  - reflexivity.
  - vm_compute. lia.
  - constructor.
  - vm_compute. repeat constructor.
Defined.

(** C3, refuted as stated: 'joy' and 'sadness' tie at the greatest match
    count, and the label returned is 'joy', not 'neutral'. *)
Lemma tie_does_not_resolve_to_neutral :
  matchCounts PsychologicalQuestionnaire.emotionKeywords (tokens "happy sad")
    = [1; 1; 0; 0; 0; 0; 0] /\
  emotion (PsychologicalQuestionnaire.analyzeResponse "happy sad") = "joy" /\
  matchCounts EnhancedPsychQuestionnaire.emotionKeywords (tokens "happy sad")
    = [1; 1; 0; 0; 0; 0; 0; 0; 0] /\
  emotion (EnhancedPsychQuestionnaire.analyzeResponse "happy sad") = "joy" /\
  "joy" <> "neutral".
Proof. repeat split; try reflexivity. discriminate. Qed.

End EmotionFacts.

(** ** The dominant emotion *)

Module DominantFacts.
Import PsychologicalQuestionnaire Spec.

Lemma get_found {V} (o : object V) (k : string) (v : V) :
  get o k = Some v ->
  exists a b, o = (a ++ (k, v) :: b)%list /\ Forall (fun x => fst x <> k) a /\
              forall v', set o k v' = (a ++ (k, v') :: b)%list.
Proof.
  induction o as [| [k' w] r IH]; cbn [get set]; [ discriminate | ].
  destruct (String.eqb_spec k' k) as [-> | Hne].
  - intros [= ->]. exists [], r. repeat split. constructor.
  - intros H. destruct (IH H) as (a & b & -> & Ha & Hset).
    exists ((k', w) :: a), b. repeat split.
    + constructor; [ exact Hne | exact Ha ].
    + intros v'. rewrite Hset. reflexivity.
Qed.

Lemma get_missing {V} (o : object V) (k : string) :
  get o k = None ->
  Forall (fun x => fst x <> k) o /\ forall v', set o k v' = (o ++ [(k, v')])%list.
Proof.
  induction o as [| [k' w] r IH]; cbn [get set].
  - intros _. split; [ constructor | reflexivity ].
  - destruct (String.eqb_spec k' k) as [-> | Hne]; [ discriminate | ].
    intros H. destruct (IH H) as [Hall Hset]. split.
    + constructor; [ exact Hne | exact Hall ].
    + intros v'. rewrite Hset. reflexivity.
Qed.

Lemma firstIndex_app_in (k : string) (l l' : list string) :
  In k l -> firstIndex k (l ++ l') = firstIndex k l.
Proof.
  induction l as [| x r IH]; cbn [firstIndex app]; [ intros [] | ].
  destruct (String.eqb_spec x k) as [-> | Hne]; [ reflexivity | ].
  intros [H | H]; [ congruence | ]. rewrite IH by exact H. reflexivity.
Qed.

Lemma firstIndex_app_new (k : string) (l : list string) :
  ~ In k l -> firstIndex k (l ++ [k]) = List.length l.
Proof.
  induction l as [| x r IH]; cbn [firstIndex app List.length].
  - intros _. rewrite String.eqb_refl. reflexivity.
  - intros H. destruct (String.eqb_spec x k) as [-> | Hne].
    + exfalso. apply H. left. reflexivity.
    + rewrite IH; [ reflexivity | ]. intros Hin. apply H. right. exact Hin.
Qed.

Lemma firstIndex_lt_length (k : string) (l : list string) :
  In k l -> firstIndex k l < List.length l.
Proof.
  induction l as [| x r IH]; cbn [firstIndex List.length]; [ intros [] | ].
  destruct (String.eqb_spec x k) as [-> | Hne]; [ lia | ].
  intros [H | H]; [ congruence | ]. specialize (IH H). lia.
Qed.

Lemma occurrences_snoc (k e : string) (l : list string) :
  occurrences k (l ++ [e]) = occurrences k l + (if String.eqb e k then 1 else 0).
Proof.
  unfold occurrences. rewrite count_occ_app. cbn [count_occ].
  destruct (string_dec e k) as [-> | Hne].
  - rewrite String.eqb_refl. reflexivity.
  - destruct (String.eqb_spec e k); [ congruence | reflexivity ].
Qed.

Lemma StronglySorted_app_one {A} (R : A -> A -> Prop) (l : list A) (x : A) :
  StronglySorted R l -> Forall (fun y => R y x) l -> StronglySorted R (l ++ [x]).
Proof.
  induction 1 as [| a l Hs IH Ha]; intros Hx; cbn [app].
  - constructor; constructor.
  - inversion Hx; subst. constructor.
    + apply IH. assumption.
    + apply Forall_app. split; [ exact Ha | constructor; [ assumption | constructor ] ].
Qed.

Lemma StronglySorted_in_ext {A} (R R' : A -> A -> Prop) (l : list A) :
  (forall x y, In x l -> In y l -> R x y -> R' x y) ->
  StronglySorted R l -> StronglySorted R' l.
Proof.
  intros Hext Hs. induction Hs as [| a l Hs IH Ha]; [ constructor | ].
  constructor.
  - apply IH. intros x y Hx Hy. apply Hext; right; assumption.
  - rewrite Forall_forall in Ha |- *. intros y Hy.
    apply Hext; [ left; reflexivity | right; exact Hy | apply Ha; exact Hy ].
Qed.

Lemma StronglySorted_app_r {A} (R : A -> A -> Prop) (l1 l2 : list A) :
  StronglySorted R (l1 ++ l2) -> StronglySorted R l2.
Proof.
  induction l1 as [| x l1 IH]; cbn [app]; [ exact (fun h => h) | ].
  intros H. apply StronglySorted_inv in H as [H _]. apply IH. exact H.
Qed.

Lemma countEmotions_snoc (es : list string) (e : string) :
  countEmotions (es ++ [e]) =
  set (countEmotions es) e
      ((match get (countEmotions es) e with Some n => n | None => 0 end) + 1).
Proof. unfold countEmotions. rewrite fold_left_app. reflexivity. Qed.

Lemma countEmotions_histogram (es : list string) : histogram_of es (countEmotions es).
Proof.
  induction es as [| e es IH] using rev_ind.
  - repeat split; try (intros; contradiction). constructor.
  - rewrite countEmotions_snoc. destruct IH as (I1 & I2 & I3).
    destruct (get (countEmotions es) e) as [n |] eqn:Hget.
    + destruct (get_found _ _ _ Hget) as (a & b & Ho & Ha & Hset).
      rewrite Hset. rewrite Ho in I1, I2, I3.
      assert (Hin : In e es /\ n = occurrences e es)
        by (apply I1; apply in_elt).
      destruct Hin as [Hin Hn].
      assert (Hb : Forall (fun x => fst x <> e) b).
      { rewrite map_app in I3. apply StronglySorted_app_r in I3.
        cbn [map fst] in I3. apply StronglySorted_inv in I3 as [_ I3].
        rewrite Forall_map in I3.
        eapply Forall_impl; [ | exact I3 ]. cbn beta.
        intros x Hlt Heq. rewrite Heq in Hlt. lia. }
      rewrite Forall_forall in Ha, Hb.
      assert (Hkeys : forall k v, In (k, v) (a ++ (e, n + 1) :: b)%list ->
                (k = e /\ v = n + 1) \/ (k <> e /\ In (k, v) (a ++ (e, n) :: b)%list)).
      { intros k v H. apply in_app_iff in H. destruct H as [H | [H | H]].
        - right. split; [ exact (Ha _ H) | apply in_app_iff; left; exact H ].
        - injection H as <- <-. left. split; reflexivity.
        - right. split; [ exact (Hb _ H) | apply in_app_iff; right; right; exact H ]. }
      split; [ | split ].
      * intros k v H. rewrite occurrences_snoc.
        destruct (Hkeys k v H) as [[-> ->] | [Hne H']].
        -- split; [ apply in_app_iff; left; exact Hin | ].
           rewrite String.eqb_refl. lia.
        -- destruct (I1 k v H') as [Hk Hv].
           split; [ apply in_app_iff; left; exact Hk | ].
           destruct (String.eqb_spec e k); [ congruence | lia ].
      * intros k Hk. rewrite occurrences_snoc.
        assert (Hk' : In k es).
        { apply in_app_iff in Hk. destruct Hk as [Hk | [<- | []]]; assumption. }
        specialize (I2 k Hk'). apply in_app_iff in I2.
        apply in_app_iff.
        destruct (String.eqb_spec e k) as [<- | Hne].
        -- right. left. rewrite Hn. reflexivity.
        -- rewrite Nat.add_0_r. destruct I2 as [I2 | [I2 | I2]].
           ++ left. exact I2.
           ++ injection I2 as He _. congruence.
           ++ right. right. exact I2.
      * replace (map fst (a ++ (e, n + 1) :: b)%list)
          with (map fst (a ++ (e, n) :: b)%list)
          by (rewrite !map_app; reflexivity).
        eapply StronglySorted_in_ext; [ | exact I3 ].
        intros x y Hx Hy. apply in_map_iff in Hx, Hy.
        destruct Hx as ([kx vx] & <- & Hx). destruct Hy as ([ky vy] & <- & Hy).
        cbn [fst]. rewrite !firstIndex_app_in; [ exact (fun h => h) | | ].
        -- apply (I1 ky vy Hy).
        -- apply (I1 kx vx Hx).
    + destruct (get_missing _ _ Hget) as [Hall Hset]. rewrite Hset.
      rewrite Forall_forall in Hall.
      assert (Hnew : ~ In e es).
      { intros Hin. apply (Hall _ (I2 e Hin)). reflexivity. }
      split; [ | split ].
      * intros k v H. rewrite occurrences_snoc.
        apply in_app_iff in H. destruct H as [H | [H | []]].
        -- destruct (I1 k v H) as [Hk Hv].
           split; [ apply in_app_iff; left; exact Hk | ].
           destruct (String.eqb_spec e k); [ congruence | lia ].
        -- injection H as <- <-. split; [ apply in_app_iff; right; left; reflexivity | ].
           rewrite String.eqb_refl.
           assert (E : occurrences e es = 0)
             by (apply count_occ_not_In; exact Hnew).
           rewrite E. reflexivity.
      * intros k Hk. rewrite occurrences_snoc. apply in_app_iff.
        apply in_app_iff in Hk. destruct Hk as [Hk | [<- | []]].
        -- left. destruct (String.eqb_spec e k); [ congruence | ].
           rewrite Nat.add_0_r. apply I2. exact Hk.
        -- right. left. rewrite String.eqb_refl.
           assert (E : occurrences e es = 0)
             by (apply count_occ_not_In; exact Hnew).
           rewrite E. reflexivity.
      * rewrite map_app. cbn [map fst]. apply StronglySorted_app_one.
        -- eapply StronglySorted_in_ext; [ | exact I3 ].
           intros x y Hx Hy. apply in_map_iff in Hx, Hy.
           destruct Hx as ([kx vx] & <- & Hx). destruct Hy as ([ky vy] & <- & Hy).
           cbn [fst]. rewrite !firstIndex_app_in; [ exact (fun h => h) | | ].
           ++ apply (I1 ky vy Hy).
           ++ apply (I1 kx vx Hx).
        -- rewrite Forall_map. apply Forall_forall. intros [k v] Hx. cbn [fst].
           destruct (I1 k v Hx) as [Hk _].
           rewrite firstIndex_app_in by exact Hk.
           rewrite firstIndex_app_new by exact Hnew.
           apply firstIndex_lt_length. exact Hk.
Qed.

(** The head of the array sorted by decreasing count: the first entry, in
    the order of the array, that carries the greatest count. *)
Lemma sort_by_count_head (o : object nat) :
  o <> [] ->
  exists a k v b rest,
    o = (a ++ (k, v) :: b)%list /\
    Forall (fun x => snd x < v) a /\ Forall (fun x => snd x <= v) b /\
    sort (fun x y => (snd x <? snd y)%nat) o = (k, v) :: rest.
Proof.
  induction o as [| [k0 v0] r IH]; [ congruence | intros _ ].
  destruct r as [| y r'].
  - exists [], k0, v0, [], []. repeat split; constructor.
  - destruct IH as (a & k & v & b & rest & Hr & Ha & Hb & Hs); [ discriminate | ].
    unfold sort in Hs |- *. cbn [fold_right] in Hs |- *. rewrite Hs.
    cbn [sort_insert snd].
    destruct (Nat.ltb_spec v0 v) as [Hlt | Hge].
    + exists ((k0, v0) :: a), k, v, b, (sort_insert (fun x y => (snd x <? snd y)%nat)
                                           (k0, v0) rest).
      rewrite Hr. repeat split; [ | exact Hb ].
      constructor; [ exact Hlt | exact Ha ].
    + exists [], k0, v0, (y :: r'), ((k, v) :: rest).
      repeat split; [ constructor | ].
      rewrite Hr. apply Forall_app. split; [ | constructor ].
      * eapply Forall_impl; [ | exact Ha ]. cbn beta. intros; lia.
      * exact Hge.
      * eapply Forall_impl; [ | exact Hb ]. cbn beta. intros; lia.
Qed.

(** The dominant emotion of a non-empty sequence of labels. *)
Lemma dominantOf_spec (es : list string) :
  es <> [] -> ~ In "" es ->
  let dom := dominantOf (countEmotions es) in
  In dom es /\
  (forall e, occurrences e es <= occurrences dom es) /\
  (forall e, e <> dom -> occurrences e es = occurrences dom es ->
             firstIndex dom es < firstIndex e es).
Proof.
  intros Hne Hlabel dom.
  destruct (countEmotions_histogram es) as (I1 & I2 & I3).
  assert (Ho : countEmotions es <> []).
  { destruct es as [| e r]; [ congruence | ].
    intros E. pose proof (I2 e (or_introl eq_refl)) as H. rewrite E in H. exact H. }
  destruct (sort_by_count_head _ Ho) as (a & k & v & b & rest & Hsplit & Ha & Hb & Hs).
  assert (Hk : In k es /\ v = occurrences k es)
    by (apply I1; rewrite Hsplit; apply in_elt).
  destruct Hk as [Hk Hv].
  assert (Hdom : dom = k).
  { unfold dom, dominantOf. rewrite Hs.
    destruct (String.eqb_spec k ""); [ subst k; contradiction | reflexivity ]. }
  rewrite Hdom. rewrite Forall_forall in Ha, Hb.
  split; [ exact Hk | split ].
  - intros e. destruct (in_dec string_dec e es) as [He | He].
    + pose proof (I2 e He) as Hin. rewrite Hsplit in Hin.
      apply in_app_iff in Hin. destruct Hin as [Hin | [Hin | Hin]].
      * specialize (Ha _ Hin). cbn [snd] in Ha. lia.
      * injection Hin as <- _. lia.
      * specialize (Hb _ Hin). cbn [snd] in Hb. lia.
    + unfold occurrences at 1. rewrite (count_occ_not_In string_dec) in He.
      rewrite He. lia.
  - intros e Hek Heq.
    assert (He : In e es).
    { apply (count_occ_In string_dec). fold (occurrences e es).
      rewrite Heq. apply (count_occ_In string_dec). exact Hk. }
    pose proof (I2 e He) as Hin. rewrite Hsplit in Hin.
    apply in_app_iff in Hin. destruct Hin as [Hin | [Hin | Hin]].
    + specialize (Ha _ Hin). cbn [snd] in Ha. lia.
    + injection Hin as <- _. congruence.
    + rewrite Hsplit, map_app in I3. apply StronglySorted_app_r in I3.
      cbn [map fst] in I3. apply StronglySorted_inv in I3 as [_ I3].
      rewrite Forall_forall in I3. apply I3.
      apply in_map_iff. exists (e, occurrences e es). split; [ reflexivity | exact Hin ].
Qed.

(** C4. The dominant emotion of the returned profile is a most frequent
    emotion label of the session, and of two labels equally frequent the one
    met first wins: [joy, sadness, joy] gives 'joy' (2 against 1) and the
    tied [joy, sadness] gives 'joy' as well. *)
Theorem dominant_emotion_most_frequent_first_seen :
  (forall (userName now : string) (answers : list Answer) (consent : bool),
     answers <> [] ->
     Forall (fun a => In (emotionDetected a) emotionLabels) answers ->
     exists d,
       generatePsychologicalProfile userName now answers consent = Return d /\
       let dom := dominant_emotion (response_patterns (psych_profile d)) in
       let es := map emotionDetected answers in
       In dom es /\
       (forall e, occurrences e es <= occurrences dom es) /\
       (forall e, e <> dom -> occurrences e es = occurrences dom es ->
                  firstIndex dom es < firstIndex e es)) /\
  (exists d,
     generatePsychologicalProfile "Ada" "2025-07-02T10:00:00.000Z"
       [answerWith "joy" 0.5; answerWith "sadness" 0.5; answerWith "joy" 0.5] true
     = Return d /\
     dominant_emotion (response_patterns (psych_profile d)) = "joy") /\
  (exists d,
     generatePsychologicalProfile "Ada" "2025-07-02T10:00:00.000Z"
       [answerWith "joy" 0.5; answerWith "sadness" 0.5] true = Return d /\
     dominant_emotion (response_patterns (psych_profile d)) = "joy").
Proof.
  split; [ | split; eexists; split; reflexivity ].
  intros u now answers c Hne Hlabels.
  destruct (AggregatorFacts.generate_returns u now answers c)
    as (d & Hd & _ & _ & _ & _ & _ & Hdom & _).
  exists d. split; [ exact Hd | ].
  cbv zeta. rewrite Hdom. unfold meansOf. cbn [dominantEmotion].
  apply dominantOf_spec.
  - destruct answers; [ congruence | discriminate ].
  - intros H. apply in_map_iff in H. destruct H as (x & Hx & Hin).
    rewrite Forall_forall in Hlabels. specialize (Hlabels x Hin).
    rewrite Hx in Hlabels. cbn in Hlabels.
    repeat (destruct Hlabels as [Hlabels | Hlabels]; [ discriminate Hlabels | ]).
    exact Hlabels.
Qed.

Lemma dominant_emotion_most_frequent_first_seen_witness :
  exists d,
    generatePsychologicalProfile "Ada" "2025-07-02T10:00:00.000Z"
      [answerWith "sadness" 0.5; answerWith "joy" 0.5] true = Return d /\
    dominant_emotion (response_patterns (psych_profile d)) = "sadness" /\
    firstIndex (dominant_emotion (response_patterns (psych_profile d)))
      ["sadness"; "joy"] < firstIndex "joy" ["sadness"; "joy"].
Proof.
  destruct (proj1 dominant_emotion_most_frequent_first_seen
              "Ada" "2025-07-02T10:00:00.000Z"
              [answerWith "sadness" 0.5; answerWith "joy" 0.5] true)
    as (d & Hd & _ & _ & Hfirst).
  - discriminate.
  - repeat constructor; cbn; tauto.
  - exists d. split; [ exact Hd | ].
    assert (E : dominant_emotion (response_patterns (psych_profile d)) = "sadness").
    { vm_compute in Hd. injection Hd as <-. reflexivity. }
    split; [ exact E | ].
    apply (Hfirst "joy").
    + rewrite E. discriminate.
    + rewrite E. reflexivity.
Defined.

End DominantFacts.

(** ** Confidence and verbosity grow with the word count *)

Module MonotoneFacts.
Import Spec.

(** A relation on numbers checked on every pair [n1 < n2 <= bound]. *)
Lemma pairs_below (f : nat -> number) (bound : nat) :
  forallb (fun n2 => forallb (fun n1 => (f n1 <=? f n2)%float) (seq 0 n2))
          (seq 0 (S bound)) = true ->
  forall n1 n2, n1 < n2 -> n2 <= bound -> (f n1 <=? f n2)%float = true.
Proof.
  intros H n1 n2 Hlt Hle.
  rewrite forallb_forall in H. specialize (H n2).
  rewrite forallb_forall in H. apply H; apply in_seq; lia.
Qed.

Lemma confidence_table : forall n1 n2, n1 < n2 -> n2 <= 15 ->
  (round2 (Math_min 1 (of_nat n1 / 15)) <=? round2 (Math_min 1 (of_nat n2 / 15)))%float
  = true.
Proof.
  apply (pairs_below (fun n => round2 (Math_min 1 (of_nat n / 15)))).
  vm_compute. reflexivity.
Qed.

Lemma verbosity_table : forall n1 n2, n1 < n2 -> n2 <= 30 ->
  (round2 (Math_min 1 (of_nat n1 / 30)) <=? round2 (Math_min 1 (of_nat n2 / 30)))%float
  = true.
Proof.
  apply (pairs_below (fun n => round2 (Math_min 1 (of_nat n / 30)))).
  vm_compute. reflexivity.
Qed.

(** C6. In both questionnaire analyzers the returned confidence is the
    two-decimal rounding of [min(1, wordCount/15)] and the returned
    verbosity that of [min(1, wordCount/30)]; for two texts with
    [wordCount(s1) < wordCount(s2) <= 15] the confidence of [s1] is at most
    that of [s2], and likewise the verbosity up to 30 words. *)
Theorem confidence_verbosity_monotone : forall s1 s2 : string,
  (forall s,
     confidence (tone (PsychologicalQuestionnaire.analyzeResponse s))
       = round2 (Math_min 1 (of_nat (wordCountOf s) / 15)) /\
     confidence (tone (EnhancedPsychQuestionnaire.analyzeResponse s))
       = round2 (Math_min 1 (of_nat (wordCountOf s) / 15)) /\
     verbosity (tone (PsychologicalQuestionnaire.analyzeResponse s))
       = round2 (Math_min 1 (of_nat (wordCountOf s) / 30)) /\
     verbosity (tone (EnhancedPsychQuestionnaire.analyzeResponse s))
       = round2 (Math_min 1 (of_nat (wordCountOf s) / 30))) /\
  (wordCountOf s1 < wordCountOf s2 -> wordCountOf s2 <= 15 ->
   (confidence (tone (PsychologicalQuestionnaire.analyzeResponse s1))
      <=? confidence (tone (PsychologicalQuestionnaire.analyzeResponse s2)))%float = true /\
   (confidence (tone (EnhancedPsychQuestionnaire.analyzeResponse s1))
      <=? confidence (tone (EnhancedPsychQuestionnaire.analyzeResponse s2)))%float = true) /\
  (wordCountOf s1 < wordCountOf s2 -> wordCountOf s2 <= 30 ->
   (verbosity (tone (PsychologicalQuestionnaire.analyzeResponse s1))
      <=? verbosity (tone (PsychologicalQuestionnaire.analyzeResponse s2)))%float = true /\
   (verbosity (tone (EnhancedPsychQuestionnaire.analyzeResponse s1))
      <=? verbosity (tone (EnhancedPsychQuestionnaire.analyzeResponse s2)))%float = true).
Proof.
  intros s1 s2. split; [ intros s; repeat split | split ].
  - intros Hlt Hle. split; apply confidence_table; assumption.
  - intros Hlt Hle. split; apply verbosity_table; assumption.
Qed.

Lemma confidence_verbosity_monotone_witness :
  wordCountOf "I am fine" < wordCountOf "I am fine today, thank you" /\
  wordCountOf "I am fine today, thank you" <= 15 /\
  (confidence (tone (PsychologicalQuestionnaire.analyzeResponse "I am fine"))
     <=? confidence (tone (PsychologicalQuestionnaire.analyzeResponse
                             "I am fine today, thank you")))%float = true /\
  (verbosity (tone (EnhancedPsychQuestionnaire.analyzeResponse "I am fine"))
     <=? verbosity (tone (EnhancedPsychQuestionnaire.analyzeResponse
                            "I am fine today, thank you")))%float = true.
Proof.
  pose proof (confidence_verbosity_monotone "I am fine" "I am fine today, thank you")
    as (_ & Hc & Hv).
  assert (Hlt : wordCountOf "I am fine" < wordCountOf "I am fine today, thank you")
    by (vm_compute; lia).
  split; [ exact Hlt | ].
  split; [ vm_compute; lia | ].
  split.
  - apply Hc; [ exact Hlt | vm_compute; lia ].
  - apply Hv; [ exact Hlt | vm_compute; lia ].
Defined.

End MonotoneFacts.

(** ** The analyzers are total and well formed *)

Module AnalyzerFacts.
Import Binary64 Spec Binary64Facts.

Local Open Scope Z_scope.

Lemma bpow_0 : bpow 0 = 1%R.
Proof. apply powerRZ_O. Qed.

Lemma bpow_ge_1 (e : Z) : 0 <= e -> (1 <= bpow e)%R.
Proof. intros He. rewrite <- bpow_0. apply bpow_le. exact He. Qed.

Lemma nat_below_bpow (n : nat) : Z.of_nat n < 2 ^ 53 -> (IZR (Z.of_nat n) < bpow 53)%R.
Proof. intros H. rewrite bpow_IZR by lia. apply IZR_lt. exact H. Qed.

(** [Math.max(wordCount, 1)] *)
Lemma denominator_spec (n : nat) :
  Z.of_nat n < 2 ^ 53 ->
  nonneg_finite (Math_max (of_nat n) 1) /\
  (1 <= val (Math_max (of_nat n) 1))%R /\
  (IZR (Z.of_nat n) <= val (Math_max (of_nat n) 1))%R /\
  (val (Math_max (of_nat n) 1) < bpow 53)%R.
Proof.
  intros Hn. destruct (of_nat_exact n Hn) as [Ha Hva].
  pose proof (nat_below_bpow n Hn) as Hlt.
  assert (N1 : nonneg_finite 1) by literal_nonneg.
  literal_value 1%float H1.
  assert (H1' : val 1 = 1%R) by (rewrite H1; lra).
  assert (Hone : (1 < bpow 53)%R).
  { rewrite <- bpow_0. apply bpow_lt. lia. }
  pose proof (ltb_val (of_nat n) 1 Ha N1) as Hlt1.
  pose proof (ltb_val 1 (of_nat n) N1 Ha) as Hlt2.
  unfold Math_max.
  rewrite (is_nan_false _ (finite_not_nan _ (nonneg_finite_finite _ Ha))).
  change (is_nan 1) with false. cbn [orb].
  destruct (of_nat n <? 1)%float.
  - rewrite H1'. assert (val (of_nat n) < val 1)%R by (apply Hlt1; reflexivity).
    repeat split; try assumption; lra.
  - destruct (1 <? of_nat n)%float.
    + assert (val 1 < val (of_nat n))%R by (apply Hlt2; reflexivity).
      repeat split; try assumption; lra.
    + assert (E : val (of_nat n) = 1%R).
      { assert (~ (val (of_nat n) < val 1)%R) by (intros Hc; apply Hlt1 in Hc; discriminate).
        assert (~ (val 1 < val (of_nat n))%R) by (intros Hc; apply Hlt2 in Hc; discriminate).
        lra. }
      destruct (is_zero (of_nat n) && get_sign (of_nat n)).
      * rewrite H1'. repeat split; try assumption; lra.
      * repeat split; try assumption; lra.
Qed.

(** A count of words divided by [Math.max(wordCount, 1)]. *)
Lemma ratio_spec (k n : nat) :
  (k <= n)%nat -> Z.of_nat n < 2 ^ 53 ->
  nonneg_finite (of_nat k / Math_max (of_nat n) 1) /\
  (val (of_nat k / Math_max (of_nat n) 1) <= 1 + / 400)%R.
Proof.
  intros Hk Hn.
  destruct (denominator_spec n Hn) as (Hd & Hd1 & Hdn & Hdb).
  assert (Hk' : Z.of_nat k < 2 ^ 53) by lia.
  destruct (of_nat_exact k Hk') as [Ha Hva].
  assert (Hkn : (val (of_nat k) <= val (Math_max (of_nat n) 1))%R).
  { rewrite Hva. apply Rle_trans with (2 := Hdn). apply IZR_le. lia. }
  set (den := Math_max (of_nat n) 1) in *.
  pose proof (bpow_ge_1 970 ltac:(lia)) as Hb.
  assert (Hbig : (val (of_nat k) < bpow 970 * val den)%R).
  { assert (bpow 969 < bpow 970)%R by (apply bpow_lt; lia).
    pose proof (bpow_ge_1 969 ltac:(lia)). nra. }
  destruct (div_nn (of_nat k) den Ha Hd ltac:(lra) Hbig) as [Hq Hr].
  split; [ exact Hq | ].
  assert (HX : (val (of_nat k) / val den <= 1)%R).
  { apply Rmult_le_reg_r with (val den); [ lra | ].
    replace (val (of_nat k) / val den * val den)%R with (val (of_nat k)) by (field; lra).
    lra. }
  pose proof (rounds_upper _ _ 1 Hr (nonneg_finite_val _ Hq) HX) as H.
  rewrite Rabs_R1 in H. lra.
Qed.

(** The same count divided by a word count that is at least one. *)
Lemma ratio_plain_spec (k n : nat) :
  (k <= n)%nat -> (1 <= n)%nat -> Z.of_nat n < 2 ^ 53 ->
  nonneg_finite (of_nat k / of_nat n) /\
  (val (of_nat k / of_nat n) <= 1 + / 400)%R.
Proof.
  intros Hk H1 Hn.
  destruct (of_nat_exact n Hn) as [Hd Hvd].
  assert (Hk' : Z.of_nat k < 2 ^ 53) by lia.
  destruct (of_nat_exact k Hk') as [Ha Hva].
  assert (Hd1 : (1 <= val (of_nat n))%R) by (rewrite Hvd; apply IZR_le; lia).
  assert (Hkn : (val (of_nat k) <= val (of_nat n))%R)
    by (rewrite Hva, Hvd; apply IZR_le; lia).
  assert (Hbig : (val (of_nat k) < bpow 970 * val (of_nat n))%R).
  { assert (bpow 969 < bpow 970)%R by (apply bpow_lt; lia).
    pose proof (bpow_ge_1 969 ltac:(lia)). nra. }
  destruct (div_nn (of_nat k) (of_nat n) Ha Hd ltac:(lra) Hbig) as [Hq Hr].
  split; [ exact Hq | ].
  assert (HX : (val (of_nat k) / val (of_nat n) <= 1)%R).
  { apply Rmult_le_reg_r with (val (of_nat n)); [ lra | ].
    replace (val (of_nat k) / val (of_nat n) * val (of_nat n))%R
      with (val (of_nat k)) by (field; lra).
    lra. }
  pose proof (rounds_upper _ _ 1 Hr (nonneg_finite_val _ Hq) HX) as H.
  rewrite Rabs_R1 in H. lra.
Qed.

(** [Math.min(1, wordCount / c)] for [c] 15 or 30. *)
Lemma capped_spec (n : nat) (c : number) :
  Z.of_nat n < 2 ^ 53 -> nonneg_finite c -> (1 <= val c)%R ->
  nonneg_finite (Math_min 1 (of_nat n / c)) /\
  (val (Math_min 1 (of_nat n / c)) <= 1)%R.
Proof.
  intros Hn Hc Hc1. destruct (of_nat_exact n Hn) as [Ha Hva].
  pose proof (nat_below_bpow n Hn) as Hlt.
  assert (Hbig : (val (of_nat n) < bpow 970 * val c)%R).
  { rewrite Hva. assert (bpow 53 < bpow 970)%R by (apply bpow_lt; lia).
    pose proof (bpow_pos 970). nra. }
  destruct (div_nn (of_nat n) c Ha Hc ltac:(lra) Hbig) as [Hq _].
  assert (N1 : nonneg_finite 1) by literal_nonneg.
  literal_value 1%float H1.
  destruct (Math_min_one (of_nat n / c)
              (finite_not_nan _ (nonneg_finite_finite _ Hq))) as [-> | [-> Hlt1]].
  - split; [ exact N1 | rewrite H1; lra ].
  - split; [ exact Hq | ].
    apply (ltb_val _ _ Hq N1) in Hlt1. rewrite H1 in Hlt1. lra.
Qed.

Lemma ltb_not_nan_r (a b : number) : (a <? b)%float = true -> not_nan b.
Proof.
  unfold not_nan. rewrite ltb_spec. unfold SFltb. intros H E. rewrite E in H.
  destruct (Prim2SF a); discriminate.
Qed.

Lemma Math_max_zero_pos (r : number) : (0 <? r)%float = true -> Math_max 0 r = r.
Proof.
  intros H. unfold Math_max. rewrite (is_nan_false r (ltb_not_nan_r _ _ H)).
  change (is_nan 0) with false. cbn [orb]. rewrite H. reflexivity.
Qed.

Lemma above_floor_positive (e : number) :
  (0.3 <? e)%float = true -> (0 <? e)%float = true.
Proof.
  rewrite !ltb_spec.
  replace (Prim2SF 0.3) with (S754_finite false 5404319552844595 (-54))
    by (vm_compute; reflexivity).
  replace (Prim2SF 0) with (S754_zero false) by (vm_compute; reflexivity).
  destruct (Prim2SF e) as [s | s | | s m x]; try (destruct s); cbn; congruence.
Qed.

(** [Math.max(0, Math.min(1, a))] of a number that is not NaN. *)
Lemma clamp_unit (a : number) :
  not_nan a ->
  nonneg_finite (Math_max 0 (Math_min 1 a)) /\
  (val (Math_max 0 (Math_min 1 a)) <= 1)%R.
Proof.
  intros Ha.
  assert (N0 : nonneg_finite 0) by literal_nonneg.
  assert (N1 : nonneg_finite 1) by literal_nonneg.
  literal_value 1%float H1.
  assert (V0 : val 0 = 0%R) by (vm_compute; reflexivity).
  destruct (Math_min_one a Ha) as [-> | [-> Hlt]].
  - replace (Math_max 0 1) with 1%float by (vm_compute; reflexivity).
    split; [ exact N1 | rewrite H1; lra ].
  - destruct (Math_max_zero a Ha) as [-> | [-> Hpos]].
    + split; [ exact N0 | rewrite V0; lra ].
    + assert (Hn : nonneg_finite a)
        by (apply (between_nonneg_finite 0 1 a N0 (nonneg_finite_finite _ N1) Hpos Hlt)).
      split; [ exact Hn | ].
      apply (ltb_val _ _ Hn N1) in Hlt. rewrite H1 in Hlt. lra.
Qed.

(** [Math.max(0, Math.min(1, Math.max(0.3, e)))] of a number that is not NaN. *)
Lemma clamp_floor (e : number) :
  not_nan e ->
  nonneg_finite (Math_max 0 (Math_min 1 (Math_max 0.3 e))) /\
  (val 0.3 <= val (Math_max 0 (Math_min 1 (Math_max 0.3 e))) <= 1)%R.
Proof.
  intros He.
  assert (N03 : nonneg_finite 0.3) by literal_nonneg.
  assert (N1 : nonneg_finite 1) by literal_nonneg.
  literal_value 1%float H1. literal_value 0.3%float H03.
  destruct (Math_max_floor e He) as [-> | [-> Hlo]].
  - replace (Math_max 0 (Math_min 1 0.3)) with 0.3%float by (vm_compute; reflexivity).
    split; [ exact N03 | rewrite H03; lra ].
  - destruct (Math_min_one e He) as [-> | [-> Hhi]].
    + replace (Math_max 0 1) with 1%float by (vm_compute; reflexivity).
      split; [ exact N1 | rewrite H1, H03; lra ].
    + rewrite (Math_max_zero_pos e (above_floor_positive e Hlo)).
      assert (Hn : nonneg_finite e)
        by (apply (between_nonneg_finite 0.3 1 e N03 (nonneg_finite_finite _ N1) Hlo Hhi)).
      split; [ exact Hn | ].
      apply (ltb_val _ _ N03 Hn) in Hlo. apply (ltb_val _ _ Hn N1) in Hhi.
      rewrite H1 in Hhi. lra.
Qed.

(** *** Words *)

Lemma length_append_char (tok : string) (c : Ascii.ascii) :
  String.length (tok ++ String c EmptyString) = S (String.length tok).
Proof. induction tok as [| x tok IH]; cbn; [ reflexivity | rewrite IH; reflexivity ]. Qed.

Lemma split_run_total (s : string) : forall (inrun : bool) (tok : string),
  (total_length (split_run inrun tok s) <= String.length tok + String.length s)%nat.
Proof.
  induction s as [| c r IH]; intros inrun tok; cbn [split_run String.length].
  - cbn. lia.
  - destruct (isWhiteSpace c).
    + destruct inrun.
      * specialize (IH true tok). lia.
      * cbn [total_length]. specialize (IH true EmptyString). cbn in IH. lia.
    + specialize (IH false (tok ++ String c EmptyString)%string).
      rewrite length_append_char in IH. lia.
Qed.

Lemma nonempty_count_le_total (l : list string) :
  (List.length (filter (fun word => (0 <? String.length word)%nat) l) <= total_length l)%nat.
Proof.
  induction l as [| w r IH]; cbn [filter total_length List.length]; [ lia | ].
  destruct (Nat.ltb_spec 0 (String.length w)); cbn [List.length]; lia.
Qed.

Lemma toLowerCase_length (s : string) : String.length (toLowerCase s) = String.length s.
Proof. induction s as [| c r IH]; cbn; [ reflexivity | rewrite IH; reflexivity ]. Qed.

Lemma tokens_length (text : string) :
  (List.length (tokens text) <= String.length text)%nat.
Proof.
  unfold tokens, split_whitespace.
  eapply Nat.le_trans; [ apply nonempty_count_le_total | ].
  eapply Nat.le_trans; [ apply split_run_total | ].
  rewrite toLowerCase_length. cbn. lia.
Qed.

Lemma split_on_length (sep : Ascii.ascii) (s : string) : forall tok : string,
  (1 <= List.length (split_on sep tok s) <= S (String.length s))%nat.
Proof.
  induction s as [| c r IH]; intros tok; cbn [split_on String.length List.length].
  - lia.
  - destruct (Ascii.eqb c sep); cbn [List.length].
    + specialize (IH EmptyString). lia.
    + specialize (IH (tok ++ String c EmptyString)%string). lia.
Qed.

Lemma split_space_length (message : string) :
  (1 <= List.length (split_space (toLowerCase message)) <= S (String.length message))%nat.
Proof.
  unfold split_space. rewrite <- (toLowerCase_length message). apply split_on_length.
Qed.

Lemma countContaining_le (words markers : list string) :
  (countContaining words markers <= List.length words)%nat.
Proof. unfold countContaining. apply filter_length_le. Qed.

Lemma keywordMatches_le (words keywords : list string) :
  (keywordMatches words keywords <= List.length keywords)%nat.
Proof. unfold keywordMatches. apply filter_length_le. Qed.

(** *** The label returned by the detection loop *)

Lemma detectLoop_label (table : object (list string)) (words : list string) :
  forall st : string * nat,
    In (fst (fold_left (detectStep words) table st)) (fst st :: map fst table).
Proof.
  induction table as [| [e ks] rest IH]; intros [d m]; cbn [fold_left map fst].
  - left. reflexivity.
  - unfold detectStep at 2.
    destruct (Nat.ltb m (keywordMatches words ks)).
    + specialize (IH (e, keywordMatches words ks)). cbn [fst] in IH.
      destruct IH as [IH | IH]; [ right; left; exact IH | right; right; exact IH ].
    + specialize (IH (d, m)). cbn [fst] in IH.
      destruct IH as [IH | IH]; [ left; exact IH | right; right; exact IH ].
Qed.

Lemma detectEmotion_label (table : object (list string)) (words : list string) :
  In (detectEmotion table words) ("neutral"%string :: map fst table).
Proof. unfold detectEmotion, detectLoop. apply (detectLoop_label table words ("neutral"%string, 0%nat)). Qed.

Ltac literal_finite := vm_compute; exact I.

(** *** Crude magnitudes, enough to rule out an overflow *)

Lemma below_weaken (E E' : Z) (x : number) : E <= E' -> below E x -> below E' x.
Proof.
  intros HE [Hx Hv]. split; [ exact Hx | ].
  apply Rle_trans with (1 := Hv). apply bpow_le. exact HE.
Qed.

Lemma below_mul_const (E : Z) (x c : number) :
  0 <= E <= 900 -> below E x -> nonneg_finite c -> (val c <= 1)%R -> below (E + 1) (x * c).
Proof.
  intros HE [Hx Hv] Hc Hc1.
  pose proof (nonneg_finite_val x Hx). pose proof (nonneg_finite_val c Hc).
  pose proof (bpow_ge_1 E ltac:(lia)) as HE1.
  assert (HX : (val x * val c <= bpow E)%R) by nra.
  assert (Hbig : (val x * val c < bpow 970)%R).
  { apply Rle_lt_trans with (1 := HX). apply bpow_lt. lia. }
  destruct (mul_nn x c Hx Hc Hbig) as [Hp Hr].
  split; [ exact Hp | ].
  pose proof (rounds_upper _ _ (bpow E) Hr (nonneg_finite_val _ Hp) HX) as Hu.
  rewrite Rabs_pos_eq in Hu by lra.
  rewrite Z.add_comm, bpow_double. lra.
Qed.

Lemma below_add (E : Z) (x y : number) :
  0 <= E <= 900 -> below E x -> below E y -> below (E + 2) (x + y).
Proof.
  intros HE [Hx Hvx] [Hy Hvy].
  pose proof (nonneg_finite_val x Hx). pose proof (nonneg_finite_val y Hy).
  pose proof (bpow_ge_1 E ltac:(lia)) as HE1.
  assert (HX : (val x + val y <= bpow (1 + E))%R) by (rewrite bpow_double; lra).
  assert (Hbig : (val x + val y < bpow 970)%R).
  { apply Rle_lt_trans with (1 := HX). apply bpow_lt. lia. }
  destruct (add_nn x y Hx Hy Hbig) as [Hp Hr].
  split; [ exact Hp | ].
  pose proof (rounds_upper _ _ (bpow (1 + E)) Hr (nonneg_finite_val _ Hp) HX) as Hu.
  pose proof (bpow_pos (1 + E)).
  rewrite Rabs_pos_eq in Hu by lra.
  replace (E + 2) with (1 + (1 + E)) by lia. rewrite (bpow_double (1 + E)).
  rewrite bpow_double in *. lra.
Qed.

(** A count below 2^53 divided by [Math.max(wordCount, 1)]. *)
Lemma ratio_below (k n : nat) :
  Z.of_nat k < 2 ^ 53 -> Z.of_nat n < 2 ^ 53 ->
  below 54 (of_nat k / Math_max (of_nat n) 1).
Proof.
  intros Hk Hn.
  destruct (denominator_spec n Hn) as (Hd & Hd1 & Hdn & Hdb).
  destruct (of_nat_exact k Hk) as [Ha Hva].
  pose proof (nat_below_bpow k Hk) as Hkb. rewrite <- Hva in Hkb.
  pose proof (nonneg_finite_val _ Ha) as Ha0.
  set (den := Math_max (of_nat n) 1) in *.
  assert (Hbig : (val (of_nat k) < bpow 970 * val den)%R).
  { assert (bpow 53 < bpow 970)%R by (apply bpow_lt; lia).
    pose proof (bpow_pos 53). nra. }
  destruct (div_nn (of_nat k) den Ha Hd ltac:(lra) Hbig) as [Hq Hr].
  split; [ exact Hq | ].
  assert (HX : (val (of_nat k) / val den <= bpow 53)%R).
  { apply Rmult_le_reg_r with (val den); [ lra | ].
    replace (val (of_nat k) / val den * val den)%R with (val (of_nat k)) by (field; lra).
    pose proof (bpow_pos 53). nra. }
  pose proof (rounds_upper _ _ (bpow 53) Hr (nonneg_finite_val _ Hq) HX) as Hu.
  pose proof (bpow_ge_1 53 ltac:(lia)).
  rewrite Rabs_pos_eq in Hu by lra.
  change 54 with (1 + 53). rewrite bpow_double. lra.
Qed.

Lemma unit_below (x : number) : nonneg_finite x -> (val x <= 1 + / 400)%R -> below 1 x.
Proof.
  intros Hx Hv. split; [ exact Hx | ].
  change 1 with (1 + 0). rewrite bpow_double, bpow_0. lra.
Qed.

Lemma below_finite (E : Z) (x : number) : below E x -> finite x.
Proof. intros [H _]. apply nonneg_finite_finite. exact H. Qed.

(** *** The three authenticity formulas never produce NaN *)

Section Authenticity.
Variables (h c : number).
Hypothesis Hh : below 1 h.
Hypothesis Hc : below 1 c.

Lemma psychological_not_nan (pen : number) :
  finite pen -> not_nan (1 - h * 0.4 + c * 0.3 - pen).
Proof.
  intros Hpen.
  assert (H04 : below 2 (h * 0.4)).
  { apply (below_mul_const 1); [ lia | exact Hh | literal_finite | ].
    literal_value 0.4%float V. rewrite V. lra. }
  assert (H03 : below 2 (c * 0.3)).
  { apply (below_mul_const 1); [ lia | exact Hc | literal_finite | ].
    literal_value 0.3%float V. rewrite V. lra. }
  apply sub_not_nan_finite; [ | exact Hpen ].
  apply add_not_nan_finite; [ | apply (below_finite 2); exact H03 ].
  apply sub_finite_not_nan; [ literal_finite | apply (below_finite 2); exact H04 ].
Qed.

Lemma conversational_not_nan : not_nan (1 - h * 0.3 + c * 0.2).
Proof.
  assert (H03 : below 2 (h * 0.3)).
  { apply (below_mul_const 1); [ lia | exact Hh | literal_finite | ].
    literal_value 0.3%float V. rewrite V. lra. }
  assert (H02 : below 2 (c * 0.2)).
  { apply (below_mul_const 1); [ lia | exact Hc | literal_finite | ].
    literal_value 0.2%float V. rewrite V. lra. }
  apply add_not_nan_finite; [ | apply (below_finite 2); exact H02 ].
  apply sub_finite_not_nan; [ literal_finite | apply (below_finite 2); exact H03 ].
Qed.

Lemma enhanced_not_nan (p d w : number) :
  below 1 p -> below 1 d -> below 54 w ->
  not_nan (p * 0.3 + d * 0.3 + w * 0.2 + (1 - h) * 0.2).
Proof.
  intros Hp Hd Hw.
  assert (V03 : (val 0.3 <= 1)%R) by (literal_value 0.3%float V; rewrite V; lra).
  assert (V02 : (val 0.2 <= 1)%R) by (literal_value 0.2%float V; rewrite V; lra).
  assert (T1 : below 2 (p * 0.3))
    by (apply (below_mul_const 1); [ lia | exact Hp | literal_finite | exact V03 ]).
  assert (T2 : below 2 (d * 0.3))
    by (apply (below_mul_const 1); [ lia | exact Hd | literal_finite | exact V03 ]).
  assert (T3 : below 55 (w * 0.2))
    by (apply (below_mul_const 54); [ lia | exact Hw | literal_finite | exact V02 ]).
  assert (T12 : below 4 (p * 0.3 + d * 0.3))
    by (apply (below_add 2); [ lia | exact T1 | exact T2 ]).
  assert (T123 : below 57 (p * 0.3 + d * 0.3 + w * 0.2)).
  { apply (below_add 55); [ lia | | exact T3 ].
    apply (below_weaken 4); [ lia | exact T12 ]. }
  apply add_finite_not_nan; [ apply (below_finite 57); exact T123 | ].
  apply (mul_not_nan_const _ 0.2 false 7205759403792794 (-55));
    [ vm_compute; reflexivity | ].
  apply sub_finite_not_nan; [ literal_finite | apply (below_finite 1); exact Hh ].
Qed.

End Authenticity.

Lemma literal_15 : nonneg_finite 15 /\ (1 <= val 15)%R.
Proof. split; [ literal_finite | literal_value 15%float V; rewrite V; lra ]. Qed.

Lemma literal_30 : nonneg_finite 30 /\ (1 <= val 30)%R.
Proof. split; [ literal_finite | literal_value 30%float V; rewrite V; lra ]. Qed.

Lemma capped_unit (n : nat) (c : number) :
  Z.of_nat n < 2 ^ 53 -> nonneg_finite c /\ (1 <= val c)%R ->
  in_unit (round2 (Math_min 1 (of_nat n / c))) = true.
Proof.
  intros Hn [Hc Hc1]. destruct (capped_spec n c Hn Hc Hc1) as [Hv Hle].
  apply unit_of_bounded; [ exact Hv | lra ].
Qed.

Lemma capped_below (n : nat) (c : number) :
  Z.of_nat n < 2 ^ 53 -> nonneg_finite c /\ (1 <= val c)%R ->
  below 1 (Math_min 1 (of_nat n / c)).
Proof.
  intros Hn [Hc Hc1]. destruct (capped_spec n c Hn Hc Hc1) as [Hv Hle].
  apply unit_below; [ exact Hv | lra ].
Qed.

Lemma labels_psychological (words : list string) :
  In (detectEmotion PsychologicalQuestionnaire.emotionKeywords words) emotionLabels.
Proof.
  pose proof (detectEmotion_label PsychologicalQuestionnaire.emotionKeywords words) as H.
  cbn in H |- *. intuition.
Qed.

Lemma labels_enhanced (words : list string) :
  In (detectEmotion EnhancedPsychQuestionnaire.emotionKeywords words) emotionLabels.
Proof.
  pose proof (detectEmotion_label EnhancedPsychQuestionnaire.emotionKeywords words) as H.
  cbn in H |- *. intuition.
Qed.

Lemma labels_conversational (words : list string) :
  In (detectEmotion ConversationalAI.emotionKeywords words) emotionLabels.
Proof.
  pose proof (detectEmotion_label ConversationalAI.emotionKeywords words) as H.
  cbn in H |- *. intuition.
Qed.

Lemma tokens_small (text : string) :
  Z.of_nat (String.length text) < 2 ^ 32 -> Z.of_nat (List.length (tokens text)) < 2 ^ 53.
Proof. intros H. pose proof (tokens_length text). lia. Qed.

(** The analysis of the psychological questionnaire is well formed, and
    its authenticity is at least 0.3. *)
Lemma psychological_well_formed (text : string) :
  Z.of_nat (String.length text) < 2 ^ 32 ->
  In (emotion (PsychologicalQuestionnaire.analyzeResponse text)) emotionLabels /\
  tone_in_unit (tone (PsychologicalQuestionnaire.analyzeResponse text)) = true /\
  (0.3 <=? authenticity (tone (PsychologicalQuestionnaire.analyzeResponse text)))%float = true.
Proof.
  intros Hlen. pose proof (tokens_small text Hlen) as Hn.
  unfold PsychologicalQuestionnaire.analyzeResponse.
  set (words := tokens text) in *. set (n := List.length words) in *.
  cbn [emotion tone]. unfold tone_in_unit.
  cbn [confidence energy verbosity hesitation authenticity].
  pose proof (countContaining_le words PsychologicalQuestionnaire.energetic) as He.
  pose proof (countContaining_le words PsychologicalQuestionnaire.hesitant) as Hh.
  fold n in He, Hh.
  destruct (ratio_spec _ n He Hn) as [Hen Hev].
  destruct (ratio_spec _ n Hh Hn) as [Hhn Hhv].
  set (energy := (of_nat (countContaining words PsychologicalQuestionnaire.energetic)
                  / Math_max (of_nat n) 1)%float) in *.
  set (hes := (of_nat (countContaining words PsychologicalQuestionnaire.hesitant)
               / Math_max (of_nat n) 1)%float) in *.
  set (pen := if gt energy 0.3 then 0.1%float else 0%float).
  assert (Hpen : finite pen) by (unfold pen; destruct (gt energy 0.3); literal_finite).
  pose proof (psychological_not_nan hes (Math_min 1 (of_nat n / 15))
                (unit_below _ Hhn Hhv) (capped_below n 15 Hn literal_15) pen Hpen) as Hnan.
  destruct (clamp_floor _ Hnan) as [Hfin [Hlo Hhi]].
  split; [ apply labels_psychological | ].
  split.
  - rewrite (capped_unit n 15 Hn literal_15), (capped_unit n 30 Hn literal_30).
    rewrite (unit_of_bounded _ Hen Hev), (unit_of_bounded _ Hhn Hhv).
    rewrite unit_of_bounded; [ reflexivity | exact Hfin | lra ].
  - apply floor_of_bounded; [ exact Hfin | exact Hlo | lra ].
Qed.

Lemma enhanced_well_formed (text : string) :
  Z.of_nat (String.length text) < 2 ^ 32 ->
  In (emotion (EnhancedPsychQuestionnaire.analyzeResponse text)) emotionLabels /\
  tone_in_unit (tone (EnhancedPsychQuestionnaire.analyzeResponse text)) = true /\
  (0.3 <=? authenticity (tone (EnhancedPsychQuestionnaire.analyzeResponse text)))%float = true.
Proof.
  intros Hlen. pose proof (tokens_small text Hlen) as Hn.
  unfold EnhancedPsychQuestionnaire.analyzeResponse.
  set (words := tokens text) in *. set (n := List.length words) in *.
  cbn [emotion tone]. unfold tone_in_unit.
  cbn [confidence energy verbosity hesitation authenticity].
  pose proof (countContaining_le words EnhancedPsychQuestionnaire.energetic) as He.
  pose proof (countContaining_le words EnhancedPsychQuestionnaire.hesitant) as Hh.
  pose proof (filter_length_le (array_includes EnhancedPsychQuestionnaire.pronouns) words)
    as Hp.
  pose proof (filter_length_le (fun word => (6 <? String.length word)%nat) words) as Hd.
  pose proof (keywordMatches_le words
                (List.concat (map snd EnhancedPsychQuestionnaire.emotionKeywords))) as Hw.
  fold n in He, Hh, Hp, Hd.
  destruct (ratio_spec _ n He Hn) as [Hen Hev].
  destruct (ratio_spec _ n Hh Hn) as [Hhn Hhv].
  destruct (ratio_spec _ n Hp Hn) as [Hpn Hpv].
  destruct (ratio_spec _ n Hd Hn) as [Hdn Hdv].
  assert (Hwk : Z.of_nat (keywordMatches words
                   (List.concat (map snd EnhancedPsychQuestionnaire.emotionKeywords)))
                < 2 ^ 53).
  { apply Z.le_lt_trans with (Z.of_nat (List.length
       (List.concat (map snd EnhancedPsychQuestionnaire.emotionKeywords)))).
    - apply Nat2Z.inj_le. exact Hw.
    - vm_compute. reflexivity. }
  pose proof (ratio_below _ n Hwk Hn) as Hwb.
  pose proof (enhanced_not_nan _ (unit_below _ Hhn Hhv) _ _ _
                (unit_below _ Hpn Hpv) (unit_below _ Hdn Hdv) Hwb) as Hnan.
  destruct (clamp_floor _ Hnan) as [Hfin [Hlo Hhi]].
  split; [ apply labels_enhanced | ].
  split.
  - rewrite (capped_unit n 15 Hn literal_15), (capped_unit n 30 Hn literal_30).
    rewrite (unit_of_bounded _ Hen Hev), (unit_of_bounded _ Hhn Hhv).
    rewrite unit_of_bounded; [ reflexivity | exact Hfin | lra ].
  - apply floor_of_bounded; [ exact Hfin | exact Hlo | lra ].
Qed.

Lemma conversational_well_formed (message : string) :
  Z.of_nat (String.length message) < 2 ^ 32 ->
  In (emotion (ConversationalAI.analyzeUserResponse message)) emotionLabels /\
  tone_in_unit (tone (ConversationalAI.analyzeUserResponse message)) = true.
Proof.
  intros Hlen. pose proof (split_space_length message) as [Hn1 Hn2].
  unfold ConversationalAI.analyzeUserResponse.
  set (words := split_space (toLowerCase message)) in *.
  set (n := List.length words) in *.
  assert (Hn : Z.of_nat n < 2 ^ 53) by lia.
  cbn [emotion tone]. unfold tone_in_unit.
  cbn [confidence energy verbosity hesitation authenticity].
  pose proof (countContaining_le words ConversationalAI.energetic) as He.
  pose proof (countContaining_le words ConversationalAI.hesitant) as Hh.
  fold n in He, Hh.
  destruct (ratio_plain_spec _ n He Hn1 Hn) as [Hen Hev].
  destruct (ratio_plain_spec _ n Hh Hn1 Hn) as [Hhn Hhv].
  pose proof (conversational_not_nan _ (Math_min 1 (of_nat n / 15))
                (unit_below _ Hhn Hhv) (capped_below n 15 Hn literal_15)) as Hnan.
  destruct (clamp_unit _ Hnan) as [Hfin Hhi].
  split; [ apply labels_conversational | ].
  rewrite (capped_unit n 15 Hn literal_15), (capped_unit n 30 Hn literal_30).
  rewrite (unit_of_bounded _ Hen Hev), (unit_of_bounded _ Hhn Hhv).
  rewrite unit_of_bounded; [ reflexivity | exact Hfin | lra ].
Qed.

(** C5. For every text (the empty one and those without a letter
    included) the analyzers of the psychological questionnaire and of the
    conversational service return a result whose emotion is one of the
    fixed labels and whose five tone fields lie in [0, 1]; so does the
    analyzer of the enhanced questionnaire. The analyzers are total
    functions: no step of theirs can throw. Texts have fewer than 2^32 code
    units, which every engine's limit on string lengths guarantees. *)
Theorem analysis_well_formed : forall s : string,
  Z.of_nat (String.length s) < 2 ^ 32 ->
  (In (emotion (PsychologicalQuestionnaire.analyzeResponse s)) emotionLabels /\
   tone_in_unit (tone (PsychologicalQuestionnaire.analyzeResponse s)) = true) /\
  (In (emotion (ConversationalAI.analyzeUserResponse s)) emotionLabels /\
   tone_in_unit (tone (ConversationalAI.analyzeUserResponse s)) = true) /\
  (In (emotion (EnhancedPsychQuestionnaire.analyzeResponse s)) emotionLabels /\
   tone_in_unit (tone (EnhancedPsychQuestionnaire.analyzeResponse s)) = true).
Proof.
  intros s Hlen.
  destruct (psychological_well_formed s Hlen) as (Hp1 & Hp2 & _).
  destruct (conversational_well_formed s Hlen) as (Hc1 & Hc2).
  destruct (enhanced_well_formed s Hlen) as (He1 & He2 & _).
  repeat split; assumption.
Qed.

Lemma analysis_well_formed_witness :
  (Z.of_nat (String.length "") < 2 ^ 32 /\
   In (emotion (PsychologicalQuestionnaire.analyzeResponse "")) emotionLabels /\
   tone_in_unit (tone (PsychologicalQuestionnaire.analyzeResponse "")) = true) /\
  (Z.of_nat (String.length "12 + 30 = ?!") < 2 ^ 32 /\
   In (emotion (ConversationalAI.analyzeUserResponse "12 + 30 = ?!")) emotionLabels /\
   tone_in_unit (tone (ConversationalAI.analyzeUserResponse "12 + 30 = ?!")) = true).
Proof.
  assert (H0 : Z.of_nat (String.length "") < 2 ^ 32) by (vm_compute; reflexivity).
  assert (H1 : Z.of_nat (String.length "12 + 30 = ?!") < 2 ^ 32)
    by (vm_compute; reflexivity).
  destruct (analysis_well_formed "" H0) as ((Ha & Hb) & _).
  destruct (analysis_well_formed "12 + 30 = ?!" H1) as (_ & (Hc & Hd) & _).
  repeat split; assumption.
Defined.

(** C8 (as the code has it). In both questionnaire flows the returned
    authenticity is at least 0.3 for every text. On the empty text both
    return the emotion 'neutral' and a confidence, energy, verbosity and
    hesitation of 0; the authenticity is exactly 0.3 in the enhanced flow,
    and 1 in the psychological flow, whose formula starts from 1. *)
Theorem authenticity_floor : forall s : string,
  (Z.of_nat (String.length s) < 2 ^ 32 ->
   (0.3 <=? authenticity (tone (PsychologicalQuestionnaire.analyzeResponse s)))%float = true /\
   (0.3 <=? authenticity (tone (EnhancedPsychQuestionnaire.analyzeResponse s)))%float = true) /\
  EnhancedPsychQuestionnaire.analyzeResponse "" =
    {| emotion := "neutral";
       tone := {| confidence := 0; energy := 0; verbosity := 0; hesitation := 0;
                  authenticity := 0.3 |} |} /\
  PsychologicalQuestionnaire.analyzeResponse "" =
    {| emotion := "neutral";
       tone := {| confidence := 0; energy := 0; verbosity := 0; hesitation := 0;
                  authenticity := 1 |} |}.
Proof.
  intros s. split; [ | split; vm_compute; reflexivity ].
  intros Hlen.
  destruct (psychological_well_formed s Hlen) as (_ & _ & Hp).
  destruct (enhanced_well_formed s Hlen) as (_ & _ & He).
  split; assumption.
Qed.

Lemma authenticity_floor_witness :
  Z.of_nat (String.length "maybe, perhaps, possibly") < 2 ^ 32 /\
  (0.3 <=? authenticity (tone (PsychologicalQuestionnaire.analyzeResponse
                                 "maybe, perhaps, possibly")))%float = true /\
  (0.3 <=? authenticity (tone (EnhancedPsychQuestionnaire.analyzeResponse
                                 "maybe, perhaps, possibly")))%float = true.
Proof.
  assert (H : Z.of_nat (String.length "maybe, perhaps, possibly") < 2 ^ 32)
    by (vm_compute; reflexivity).
  split; [ exact H | ].
  exact (proj1 (authenticity_floor "maybe, perhaps, possibly") H).
Defined.

(** C8, refuted as stated: in the psychological flow the empty text has
    authenticity 1, not 0.3. *)
Lemma empty_text_authenticity_is_one :
  authenticity (tone (PsychologicalQuestionnaire.analyzeResponse "")) = 1%float /\
  (authenticity (tone (PsychologicalQuestionnaire.analyzeResponse "")) =? 0.3)%float = false /\
  authenticity (tone (PsychologicalQuestionnaire.analyzeResponse "")) <> 0.3%float.
Proof.
  split; [ vm_compute; reflexivity | ].
  split; [ vm_compute; reflexivity | ].
  intros H.
  pose proof (f_equal (fun x => (x <=? 0.3)%float) H) as E.
  vm_compute in E. discriminate E.
Qed.

End AnalyzerFacts.

(** ** More on binary64 arithmetic: differences and rounding to cents *)

Module Binary64More.
Import Binary64 Spec Binary64Facts AnalyzerFacts.

Local Open Scope R_scope.

(** Difference of two non-negative numbers, the larger one first. *)
Lemma sub_nn (x y : number) :
  nonneg_finite x -> nonneg_finite y -> val y <= val x -> val x < bpow 970 ->
  nonneg_finite (x - y) /\ rounds (val (x - y)) (val x - val y).
Proof.
  unfold nonneg_finite, val.
  pose proof (Prim2SF_valid (x - y)) as V. rewrite sub_spec in *.
  destruct (Prim2SF x) as [sx | sx | | [] mx ex] eqn:Ex; try tauto;
  destruct (Prim2SF y) as [sy | sy | | [] my ey] eqn:Ey; try tauto; intros _ _ Hle Hbig;
    cbn [valR] in *.
  - rewrite Rminus_0_r. split; [ | destruct sx, sy; cbn; apply rounds_zero ].
    destruct sx, sy; exact I.
  - exfalso. pose proof (val_finite_pos my ey). lra.
  - cbn. rewrite Rminus_0_r. split; [ exact I | ].
    apply rounds_refl. apply Rlt_le, val_finite_pos.
  - unfold SF64sub, SFsub in *. cbn [cond_Zopp] in *.
    set (ez := Z.min ex ey) in *.
    pose proof (shl_align_val mx ex ez) as Hvx.
    pose proof (shl_align_val my ey ez) as Hvy.
    destruct (shl_align_spec mx ex ez) as (Hsx & _).
    destruct (shl_align_spec my ey ez) as (Hsy & _).
    replace (Z.min ex ez) with ez in Hsx by (subst ez; lia).
    replace (Z.min ey ez) with ez in Hsy by (subst ez; lia).
    rewrite Hsx in Hvx. rewrite Hsy in Hvy.
    set (a := fst (shl_align mx ex ez)) in *. set (b := fst (shl_align my ey ez)) in *.
    assert (Hab : (Zpos b <= Zpos a)%Z).
    { apply le_IZR. apply Rmult_le_reg_r with (bpow ez); [ apply bpow_pos | lra ]. }
    assert (Ed : IZR (Zpos mx) * bpow ex - IZR (Zpos my) * bpow ey
                 = IZR (Zpos a - Zpos b) * bpow ez).
    { rewrite minus_IZR, <- Hvx, <- Hvy. ring. }
    destruct (Zpos a - Zpos b)%Z as [| d | d] eqn:Ediff; [ | | lia ].
    + cbn. split; [ exact I | ]. rewrite Ed. rewrite Rmult_0_l. apply rounds_zero.
    + cbn [binary_normalize] in *. unfold binary_round in *.
      pose proof (shl_align_val d ez
                    (fexp prec emax (Zpos (digits2_pos d) + ez))) as Hv.
      destruct (shl_align d ez (fexp prec emax (Zpos (digits2_pos d) + ez)))
        as [mz ez'].
      cbn [fst snd] in Hv.
      assert (E : IZR (Zpos mx) * bpow ex - IZR (Zpos my) * bpow ey
                  = IZR (Zpos mz) * bpow ez').
      { rewrite Ed, Hv. reflexivity. }
      rewrite E in *.
      assert (Hsmall : IZR (Zpos mz) * bpow ez' < bpow 970).
      { rewrite <- E. pose proof (val_finite_pos my ey). lra. }
      apply binary_round_aux_error; try assumption; try lia.
      split; [ lra | ].
      apply Rmult_le_compat_r; [ apply Rlt_le, bpow_pos | apply IZR_le; lia ].
Qed.

Local Open Scope Z_scope.

(** The two-decimal rounding of a number between [lo / 100] and
    [hi / 100] is [k / 100] for an integer [k] between [lo] and [hi]. *)
Lemma round2_between (v : number) (lo hi : Z) :
  nonneg_finite v -> 1 <= lo -> hi <= 1000 ->
  (IZR lo - 2 / 5 <= 100 * val v <= IZR hi + 2 / 5)%R ->
  exists k, lo <= k <= hi /\ round2 v = (of_Z k / 100)%float.
Proof.
  intros Hv Hlo1 Hhi Hb. unfold round2.
  literal_value 100%float H100.
  assert (N100 : nonneg_finite 100) by literal_nonneg.
  pose proof (nonneg_finite_val v Hv) as Hv0.
  assert (Hhi' : (IZR hi <= 1000)%R) by (apply IZR_le in Hhi; exact Hhi).
  assert (Hlo' : (1 <= IZR lo)%R) by (apply IZR_le in Hlo1; exact Hlo1).
  assert (B11 : (bpow 11 = 2048)%R).
  { rewrite (bpow_IZR 11) by lia. replace (2 ^ 11) with 2048 by reflexivity. reflexivity. }
  assert (Hbig : (val v * val 100 < bpow 970)%R).
  { apply Rle_lt_trans with (bpow 11); [ | apply bpow_lt; lia ].
    rewrite B11, H100. lra. }
  destruct (mul_nn v 100 Hv N100 Hbig) as [Hy Hr].
  set (y := (v * 100)%float) in *.
  pose proof (nonneg_finite_val y Hy) as Hy0.
  assert (Hup : (val y <= 100 * val v + / 50)%R).
  { pose proof (rounds_upper _ _ (val v * val 100) Hr Hy0 (Rle_refl _)) as H.
    rewrite Rabs_pos_eq in H by (rewrite H100; lra). rewrite H100 in H. lra. }
  assert (Hlow : (100 * val v - / 50 <= val y)%R).
  { pose proof (rounds_lower _ _ (val v * val 100) Hr Hy0) as H.
    rewrite H100 in H. lra. }
  assert (Hy52 : (val y < bpow 52)%R).
  { apply Rle_lt_trans with (bpow 11); [ | apply bpow_lt; lia ]. rewrite B11. lra. }
  destruct (Math_round_cases y Hy Hy52) as [(_ & _ & Hval) | (k & Hk & Hround & Hkv)].
  - exfalso. lra.
  - assert (Hklo : lo <= k).
    { assert (Hlt : (IZR (lo - 1) < IZR k)%R) by (rewrite minus_IZR; lra).
      apply lt_IZR in Hlt. lia. }
    assert (Hkhi : k <= hi).
    { assert (Hlt : (IZR k < IZR (hi + 1))%R) by (rewrite plus_IZR; lra).
      apply lt_IZR in Hlt. lia. }
    exists k. split; [ lia | ]. rewrite Hround.
    destruct (Z.eqb_spec k 0); [ lia | reflexivity ].
Qed.

(** A quotient of a count by a constant that is at least 1. *)
Lemma ratio_lower (n : nat) (c : number) (B : R) :
  Z.of_nat n < 2 ^ 53 -> nonneg_finite c -> (1 <= val c)%R ->
  (0 <= B <= IZR (Z.of_nat n) / val c)%R ->
  nonneg_finite (of_nat n / c) /\ (B - / 100000 * B - / 100000 <= val (of_nat n / c))%R.
Proof.
  intros Hn Hc Hc1 HB.
  destruct (of_nat_exact n Hn) as [Hnn Hnv].
  assert (Hbig : (val (of_nat n) < bpow 970 * val c)%R).
  { rewrite Hnv. pose proof (nat_below_bpow n Hn) as H53.
    assert (bpow 53 < bpow 970)%R by (apply bpow_lt; lia).
    pose proof (bpow_pos 970). nra. }
  destruct (div_nn (of_nat n) c Hnn Hc ltac:(lra) Hbig) as [Hq Hr].
  split; [ exact Hq | ].
  rewrite Hnv in Hr.
  apply (rounds_lower _ _ B Hr); [ apply nonneg_finite_val; exact Hq | exact HB ].
Qed.

(** Integers, as [Math.round] and [Math.floor] return them. *)
Lemma of_Z_exact (k : Z) :
  0 <= k < 2 ^ 53 -> nonneg_finite (of_Z k) /\ val (of_Z k) = IZR k.
Proof.
  intros Hk. pose proof (of_nat_exact (Z.to_nat k)) as H.
  unfold of_nat in H. rewrite Z2Nat.id in H by lia. apply H. lia.
Qed.

(** A number is determined by its specification. *)
Lemma Prim2SF_eq (x y : number) : Prim2SF x = Prim2SF y -> x = y.
Proof.
  intros H. rewrite <- (SF2Prim_Prim2SF x), <- (SF2Prim_Prim2SF y), H. reflexivity.
Qed.

(** [0 / y] is [0] for a positive [y]. *)
Lemma zero_div (y : number) :
  nonneg_finite y -> (0 < val y)%R -> (PrimFloat.zero / y)%float = PrimFloat.zero.
Proof.
  unfold nonneg_finite, val. intros Hy Hpos. apply Prim2SF_eq. rewrite div_spec.
  replace (Prim2SF PrimFloat.zero) with (S754_zero false) by (vm_compute; reflexivity).
  destruct (Prim2SF y) as [sy | sy | | [] my ey]; cbn [valR] in *;
    try contradiction; try lra.
  reflexivity.
Qed.

(** [x / 0] is [+Infinity] for a positive [x]. *)
Lemma div_zero (x : number) :
  nonneg_finite x -> (0 < val x)%R -> (x / PrimFloat.zero)%float = infinity.
Proof.
  unfold nonneg_finite, val. intros Hx Hpos. apply Prim2SF_eq. rewrite div_spec.
  replace (Prim2SF PrimFloat.zero) with (S754_zero false) by (vm_compute; reflexivity).
  replace (Prim2SF infinity) with (S754_infinity false) by (vm_compute; reflexivity).
  destruct (Prim2SF x) as [sx | sx | | [] mx ex]; cbn [valR] in *;
    try contradiction; try lra.
  reflexivity.
Qed.

(** [Math.min(1, q)] is [1] as soon as [q] is at least [1]. *)
Lemma Math_min_one_above (q : number) :
  nonneg_finite q -> (1 <= val q)%R -> Math_min 1 q = 1%float.
Proof.
  intros Hq Hv.
  destruct (Math_min_one q (finite_not_nan _ (nonneg_finite_finite _ Hq))) as [E | [_ Hlt]];
    [ exact E | exfalso ].
  apply ltb_val in Hlt; [ | exact Hq | literal_nonneg ].
  literal_value 1%float V1. rewrite V1 in Hlt. lra.
Qed.

(** The quotient of a count by a divisor that is at least 1. *)
Lemma ratio_value (n : nat) (c : number) :
  Z.of_nat n < 2 ^ 53 -> nonneg_finite c -> (1 <= val c)%R ->
  nonneg_finite (of_nat n / c) /\ rounds (val (of_nat n / c)) (IZR (Z.of_nat n) / val c).
Proof.
  intros Hn Hc Hc1.
  destruct (of_nat_exact n Hn) as [Hnn Hnv].
  assert (Hbig : (val (of_nat n) < bpow 970 * val c)%R).
  { rewrite Hnv. pose proof (nat_below_bpow n Hn) as H53.
    assert (bpow 53 < bpow 970)%R by (apply bpow_lt; lia).
    pose proof (bpow_pos 970). nra. }
  destruct (div_nn (of_nat n) c Hnn Hc ltac:(lra) Hbig) as [Hq Hr].
  rewrite Hnv in Hr. split; assumption.
Qed.

End Binary64More.

(** ** psychologyService.ts: analysing and storing an answer *)

Module SessionServiceFacts.
Import Binary64 Spec Binary64Facts AnalyzerFacts Binary64More Notions.

Local Open Scope Z_scope.

Lemma literal_20 : nonneg_finite 20 /\ (1 <= val 20)%R.
Proof. split; [ literal_finite | literal_value 20%float V; rewrite V; lra ]. Qed.

Lemma literal_50 : nonneg_finite 50 /\ (1 <= val 50)%R.
Proof. split; [ literal_finite | literal_value 50%float V; rewrite V; lra ]. Qed.

Lemma labels_session (words : list string) :
  In (detectEmotion PsychologyService.emotionKeywords words) sessionLabels.
Proof.
  pose proof (detectEmotion_label PsychologyService.emotionKeywords words) as H.
  cbn in H |- *. intuition.
Qed.

(** The value of [1 - h * 0.3 + c * 0.2] for a hesitation [h] and a
    confidence [c] that is at least a twentieth. *)
Lemma plain_authenticity_value (h c : number) :
  nonneg_finite h -> (val h <= 1 + / 400)%R ->
  nonneg_finite c -> (499 / 10000 <= val c <= 1)%R ->
  nonneg_finite (1 - h * 0.3 + c * 0.2) /\
  (708 / 1000 <= val (1 - h * 0.3 + c * 0.2) <= 1201 / 1000)%R.
Proof.
  intros Hh Hhv Hc Hcv.
  literal_value 0.3%float V3. literal_value 0.2%float V2. literal_value 1%float V1.
  assert (N3 : nonneg_finite 0.3) by literal_nonneg.
  assert (N2 : nonneg_finite 0.2) by literal_nonneg.
  assert (N1 : nonneg_finite 1) by literal_nonneg.
  pose proof (nonneg_finite_val h Hh) as Hh0.
  assert (B970 : (4 <= bpow 970)%R).
  { apply Rle_trans with (bpow 2); [ | apply bpow_le; lia ].
    rewrite (bpow_IZR 2) by lia. replace (2 ^ 2) with 4 by reflexivity. lra. }
  destruct (mul_nn h 0.3 Hh N3) as [Ht1 Rt1]; [ rewrite V3; lra | ].
  pose proof (nonneg_finite_val _ Ht1) as Ht10.
  assert (Ut1 : (val (h * 0.3) <= 301 / 1000)%R).
  { pose proof (rounds_upper _ _ (301 / 1000 - / 5000) Rt1 Ht10) as H.
    rewrite Rabs_pos_eq in H by lra. rewrite V3 in H. lra. }
  destruct (sub_nn 1 (h * 0.3) N1 Ht1) as [Hs Rs]; [ rewrite V1; lra | rewrite V1; lra | ].
  pose proof (nonneg_finite_val _ Hs) as Hs0.
  rewrite V1 in Rs.
  assert (Ls : (6989 / 10000 <= val (1 - h * 0.3))%R).
  { pose proof (rounds_lower _ _ (699 / 1000) Rs Hs0) as H. lra. }
  assert (Us : (val (1 - h * 0.3) <= 10001 / 10000)%R).
  { pose proof (rounds_upper _ _ 1 Rs Hs0) as H.
    rewrite Rabs_pos_eq in H by lra. lra. }
  destruct (mul_nn c 0.2 Hc N2) as [Ht2 Rt2]; [ rewrite V2; lra | ].
  pose proof (nonneg_finite_val _ Ht2) as Ht20.
  assert (Lt2 : (99 / 10000 <= val (c * 0.2))%R).
  { pose proof (rounds_lower _ _ (998 / 100000) Rt2 Ht20) as H.
    rewrite V2 in H. lra. }
  assert (Ut2 : (val (c * 0.2) <= 2001 / 10000)%R).
  { pose proof (rounds_upper _ _ (20001 / 100000) Rt2 Ht20) as H.
    rewrite Rabs_pos_eq in H by lra. rewrite V2 in H. lra. }
  destruct (add_nn (1 - h * 0.3) (c * 0.2) Hs Ht2) as [Ha Ra]; [ lra | ].
  pose proof (nonneg_finite_val _ Ha) as Ha0.
  split; [ exact Ha | split ].
  - pose proof (rounds_lower _ _ (7088 / 10000) Ra Ha0) as H. lra.
  - pose proof (rounds_upper _ _ (12002 / 10000) Ra Ha0) as H.
    rewrite Rabs_pos_eq in H by lra. lra.
Qed.

(** [Math.min(1, n / c)] for a count [n >= 1] and a divisor [c] between 1
    and 20 is at least a twentieth, up to rounding. *)
Lemma capped_lower (n : nat) (c : number) :
  (1 <= n)%nat -> Z.of_nat n < 2 ^ 53 ->
  nonneg_finite c -> (1 <= val c <= 20)%R ->
  nonneg_finite (Math_min 1 (of_nat n / c)) /\
  (499 / 10000 <= val (Math_min 1 (of_nat n / c)) <= 1)%R.
Proof.
  intros Hn1 Hn Hc Hcv.
  destruct (capped_spec n c Hn Hc ltac:(lra)) as [Hm Hle].
  split; [ exact Hm | split; [ | exact Hle ] ].
  assert (HB : (0 <= / 20 <= IZR (Z.of_nat n) / val c)%R).
  { split; [ lra | ].
    assert (H1 : (1 <= IZR (Z.of_nat n))%R) by (apply IZR_le; lia).
    apply Rmult_le_reg_r with (val c); [ lra | ].
    unfold Rdiv. rewrite Rmult_assoc, Rinv_l by lra. lra. }
  destruct (ratio_lower n c (/ 20) Hn Hc ltac:(lra) HB) as [Hq Hlo].
  destruct (Math_min_one (of_nat n / c) (finite_not_nan _ (nonneg_finite_finite _ Hq)))
    as [-> | [-> _]].
  - literal_value 1%float V1. rewrite V1. lra.
  - lra.
Qed.

(** X1. Whatever the answer, the session's analysis is well formed: the
    emotion is one of the six labels of the table, the five tone fields and
    the confidence level lie in [0, 1]. Answers have fewer than 2^32 code
    units. *)
Theorem session_analysis_well_formed (answer : string) (method : PsychologySession.ResponseMethod) :
  Z.of_nat (String.length answer) < 2 ^ 32 ->
  In (PsychologyService.emotion (PsychologyService.analyzeResponse answer method))
     sessionLabels /\
  tone_in_unit (PsychologyService.tone (PsychologyService.analyzeResponse answer method))
    = true /\
  in_unit (PsychologyService.confidenceLevel (PsychologyService.analyzeResponse answer method))
    = true.
Proof.
  intros Hlen. pose proof (split_space_length answer) as [Hn1 Hn2].
  unfold PsychologyService.analyzeResponse.
  set (words := split_space (toLowerCase answer)) in *.
  set (n := List.length words) in *.
  assert (Hn : Z.of_nat n < 2 ^ 53) by lia.
  cbn [PsychologyService.emotion PsychologyService.tone PsychologyService.confidenceLevel].
  unfold tone_in_unit.
  cbn [confidence energy verbosity hesitation authenticity].
  pose proof (countContaining_le words PsychologyService.energetic) as He.
  pose proof (countContaining_le words PsychologyService.hesitant) as Hh.
  fold n in He, Hh.
  destruct (ratio_plain_spec _ n He Hn1 Hn) as [Hen Hev].
  destruct (ratio_plain_spec _ n Hh Hn1 Hn) as [Hhn Hhv].
  pose proof (conversational_not_nan _ (Math_min 1 (of_nat n / 20))
                (unit_below _ Hhn Hhv) (capped_below n 20 Hn literal_20)) as Hnan.
  destruct (clamp_unit _ Hnan) as [Hfin Hhi].
  split; [ apply labels_session | ].
  rewrite (capped_unit n 20 Hn literal_20), (capped_unit n 50 Hn literal_50).
  rewrite (unit_of_bounded _ Hen Hev), (unit_of_bounded _ Hhn Hhv).
  rewrite unit_of_bounded; [ split; reflexivity | exact Hfin | lra ].
Qed.

Lemma session_analysis_well_formed_witness :
  Z.of_nat (String.length "maybe I am really happy!") < 2 ^ 32 /\
  In (PsychologyService.emotion
        (PsychologyService.analyzeResponse "maybe I am really happy!" PsychologySession.text))
     sessionLabels /\
  tone_in_unit (PsychologyService.tone
        (PsychologyService.analyzeResponse "maybe I am really happy!" PsychologySession.text))
    = true /\
  in_unit (PsychologyService.confidenceLevel
        (PsychologyService.analyzeResponse "maybe I am really happy!" PsychologySession.text))
    = true.
Proof.
  split; [ vm_compute; reflexivity | ].
  apply (session_analysis_well_formed "maybe I am really happy!" PsychologySession.text).
  vm_compute. reflexivity.
Defined.

Lemma table_honesty (k : Z) :
  71 <= k <= 120 ->
  (0.71 <=? of_Z k / 100)%float = true /\ (of_Z k / 100 <=? 1.2)%float = true.
Proof.
  intros Hk.
  assert (H : forallb (fun n => (0.71 <=? of_Z (Z.of_nat n) / 100)%float
                                && (of_Z (Z.of_nat n) / 100 <=? 1.2)%float) (seq 71 50) = true)
    by (vm_compute; reflexivity).
  rewrite forallb_forall in H. specialize (H (Z.to_nat k)).
  rewrite Z2Nat.id in H by lia. apply andb_true_iff. apply H. apply in_seq. lia.
Qed.

Lemma table_authenticity (k : Z) :
  71 <= k <= 100 ->
  (0.71 <=? of_Z k / 100)%float = true /\ (of_Z k / 100 <=? 1)%float = true.
Proof.
  intros Hk.
  assert (H : forallb (fun n => (0.71 <=? of_Z (Z.of_nat n) / 100)%float
                                && (of_Z (Z.of_nat n) / 100 <=? 1)%float) (seq 71 30) = true)
    by (vm_compute; reflexivity).
  rewrite forallb_forall in H. specialize (H (Z.to_nat k)).
  rewrite Z2Nat.id in H by lia. apply andb_true_iff. apply H. apply in_seq. lia.
Qed.

(** X2. The honesty score of the session lies between 0.71 and 1.2 for
    every answer: the floor [Math.max(0.3, ...)] never applies, and the
    score is not confined to [0, 1]. The authenticity of the tone, which is
    clamped, lies between 0.71 and 1. *)
Theorem session_honesty_range (answer : string) (method : PsychologySession.ResponseMethod) :
  Z.of_nat (String.length answer) < 2 ^ 32 ->
  let analysis := PsychologyService.analyzeResponse answer method in
  ((0.71 <=? PsychologyService.honestyScore analysis)%float = true /\
   (PsychologyService.honestyScore analysis <=? 1.2)%float = true) /\
  ((0.71 <=? authenticity (PsychologyService.tone analysis))%float = true /\
   (authenticity (PsychologyService.tone analysis) <=? 1)%float = true).
Proof.
  intros Hlen analysis. subst analysis.
  pose proof (split_space_length answer) as [Hn1 Hn2].
  unfold PsychologyService.analyzeResponse.
  set (words := split_space (toLowerCase answer)) in *.
  set (n := List.length words) in *.
  assert (Hn : Z.of_nat n < 2 ^ 53) by lia.
  cbn [PsychologyService.honestyScore PsychologyService.tone authenticity].
  pose proof (countContaining_le words PsychologyService.hesitant) as Hh. fold n in Hh.
  destruct (ratio_plain_spec _ n Hh Hn1 Hn) as [Hhn Hhv].
  destruct literal_20 as [N20 V20].
  assert (V20' : (1 <= val 20 <= 20)%R)
    by (literal_value 20%float V; rewrite V; lra).
  destruct (capped_lower n 20 Hn1 Hn N20 V20') as [Hcn Hcv].
  destruct (plain_authenticity_value _ _ Hhn Hhv Hcn Hcv) as [Ha Hav].
  set (a := (1 - of_nat (countContaining words PsychologyService.hesitant) / of_nat n * 0.3
             + Math_min 1 (of_nat n / 20) * 0.2)%float) in *.
  assert (Hnan : not_nan a) by (apply finite_not_nan, nonneg_finite_finite; exact Ha).
  literal_value 0.3%float V3. literal_value 1%float V1.
  split.
  - (* the floor never applies *)
    assert (Hmax : Math_max 0.3 a = a).
    { destruct (Math_max_floor a Hnan) as [E | [E _]]; [ | exact E ].
      exfalso. unfold Math_max in E. rewrite (is_nan_false a Hnan) in E.
      change (is_nan 0.3) with false in E. cbn [orb] in E.
      assert (Hlt : (0.3 <? a)%float = true).
      { apply ltb_val; [ literal_nonneg | exact Ha | rewrite V3; lra ]. }
      rewrite Hlt in E.
      assert (Hv : val a = val 0.3) by (rewrite E; reflexivity).
      rewrite V3 in Hv. lra. }
    rewrite Hmax.
    destruct (round2_between a 71 120 Ha ltac:(lia) ltac:(lia)) as (k & Hk & ->).
    + change (IZR 71) with 71%R. change (IZR 120) with 120%R. lra.
    + apply table_honesty. exact Hk.
  - (* the clamped authenticity *)
    assert (Hclamp : nonneg_finite (Math_max 0 (Math_min 1 a)) /\
                     (708 / 1000 <= val (Math_max 0 (Math_min 1 a)) <= 1)%R).
    { destruct (clamp_unit a Hnan) as [Hf Hle]. split; [ exact Hf | split; [ | exact Hle ] ].
      destruct (Math_min_one a Hnan) as [E | [E Hlt]]; rewrite E.
      - replace (Math_max 0 1) with 1%float by (vm_compute; reflexivity).
        rewrite V1. lra.
      - assert (Hpos : (0 <? a)%float = true).
        { apply ltb_val; [ literal_nonneg | exact Ha | ].
          replace (val 0) with 0%R by (vm_compute; reflexivity). lra. }
        rewrite (Math_max_zero_pos a Hpos). lra. }
    destruct Hclamp as [Hf Hv].
    destruct (round2_between _ 71 100 Hf ltac:(lia) ltac:(lia)) as (k & Hk & ->).
    + change (IZR 71) with 71%R. change (IZR 100) with 100%R. lra.
    + apply table_authenticity. exact Hk.
Qed.

Lemma session_honesty_range_witness :
  Z.of_nat (String.length "maybe") < 2 ^ 32 /\
  (let analysis := PsychologyService.analyzeResponse "maybe" PsychologySession.text in
   ((0.71 <=? PsychologyService.honestyScore analysis)%float = true /\
    (PsychologyService.honestyScore analysis <=? 1.2)%float = true) /\
   ((0.71 <=? authenticity (PsychologyService.tone analysis))%float = true /\
    (authenticity (PsychologyService.tone analysis) <=? 1)%float = true)).
Proof.
  split; [ vm_compute; reflexivity | ].
  apply (session_honesty_range "maybe" PsychologySession.text).
  vm_compute. reflexivity.
Defined.

(** [Math.min(1, n / 20)] is exactly 1 from twenty words on. *)
Lemma capped_full (n : nat) :
  (20 <= n)%nat -> Z.of_nat n < 2 ^ 53 -> Math_min 1 (of_nat n / 20) = 1%float.
Proof.
  intros H20 Hn.
  destruct (Nat.eq_dec n 20) as [-> | Hne]; [ vm_compute; reflexivity | ].
  destruct literal_20 as [N20 V20].
  literal_value 20%float V.
  assert (HB : (0 <= 21 / 20 <= IZR (Z.of_nat n) / val 20)%R).
  { split; [ lra | ]. rewrite V.
    assert (H21 : (21 <= IZR (Z.of_nat n))%R)
      by (change 21%R with (IZR 21); apply IZR_le; lia).
    lra. }
  destruct (ratio_lower n 20 (21 / 20) Hn N20 V20 HB) as [Hq Hlo].
  apply Math_min_one_above; [ exact Hq | lra ].
Qed.

(** X3. An answer of at least twenty words (the pieces between single
    spaces) none of which contains a hesitation marker gets the honesty
    score 1.2, above 1, while the authenticity of its tone is 1. *)
Theorem session_honesty_exceeds_one (answer : string) (method : PsychologySession.ResponseMethod) :
  Z.of_nat (String.length answer) < 2 ^ 32 ->
  (20 <= List.length (split_space (toLowerCase answer)))%nat ->
  countContaining (split_space (toLowerCase answer)) PsychologyService.hesitant = 0%nat ->
  PsychologyService.honestyScore (PsychologyService.analyzeResponse answer method)
    = 1.2%float /\
  authenticity (PsychologyService.tone (PsychologyService.analyzeResponse answer method))
    = 1%float.
Proof.
  intros Hlen H20 Hnone.
  pose proof (split_space_length answer) as [Hn1 Hn2].
  unfold PsychologyService.analyzeResponse.
  set (words := split_space (toLowerCase answer)) in *.
  set (n := List.length words) in *.
  assert (Hn : Z.of_nat n < 2 ^ 53) by lia.
  cbn [PsychologyService.honestyScore PsychologyService.tone authenticity].
  rewrite Hnone. change (of_nat 0) with PrimFloat.zero.
  destruct (of_nat_exact n Hn) as [Hnn Hnv].
  rewrite zero_div; [ | exact Hnn | rewrite Hnv; apply IZR_lt; lia ].
  rewrite (capped_full n H20 Hn).
  split; vm_compute; reflexivity.
Qed.

Lemma session_honesty_exceeds_one_witness :
  PsychologyService.honestyScore
    (PsychologyService.analyzeResponse
       "we went up the hill at dawn and saw the sun rise over the bay and then we ate bread"
       PsychologySession.text) = 1.2%float /\
  authenticity (PsychologyService.tone
    (PsychologyService.analyzeResponse
       "we went up the hill at dawn and saw the sun rise over the bay and then we ate bread"
       PsychologySession.text)) = 1%float.
Proof.
  apply (session_honesty_exceeds_one
           "we went up the hill at dawn and saw the sun rise over the bay and then we ate bread"
           PsychologySession.text).
  - vm_compute. reflexivity.
  - vm_compute. lia.
  - vm_compute. reflexivity.
Defined.

(** *** Storing answers *)

Lemma submitAnswer_session (reply : completion (option string))
    (s : PsychologySession.t) (a : PsychologySession.PsychAnswer) :
  let s' := fst (fst (PsychologyService.submitAnswer reply s a)) in
  PsychologySession.questions s' = PsychologySession.questions s /\
  List.length (PsychologySession.responses s') = S (List.length (PsychologySession.responses s)) /\
  PsychologySession.currentQuestionIndex s' =
    (PsychologySession.currentQuestionIndex s
     + match reply with Return None => 1 | _ => 0 end)%nat.
Proof.
  unfold PsychologyService.submitAnswer.
  destruct reply as [[message |] | e]; cbn;
    (split; [ reflexivity | split; [ rewrite length_app; cbn; lia | lia ] ]).
Qed.

Lemma submitAll_session (calls : list (completion (option string) * PsychologySession.PsychAnswer)) :
  forall s : PsychologySession.t,
    let s' := PsychologyService.submitAll s calls in
    PsychologySession.questions s' = PsychologySession.questions s /\
    List.length (PsychologySession.responses s') =
      (List.length (PsychologySession.responses s) + List.length calls)%nat /\
    PsychologySession.currentQuestionIndex s' =
      (PsychologySession.currentQuestionIndex s + PsychologyService.saved calls)%nat.
Proof.
  induction calls as [| [reply a] calls IH]; intros s; cbn zeta.
  - cbn. repeat split; lia.
  - unfold PsychologyService.submitAll in *. cbn [fold_left fst snd].
    destruct (submitAnswer_session reply s a) as (Hq & Hr & Hi).
    destruct (IH (fst (fst (PsychologyService.submitAnswer reply s a)))) as (Hq' & Hr' & Hi').
    rewrite Hq', Hr', Hi', Hq, Hr, Hi. unfold PsychologyService.saved. cbn [filter fst].
    split; [ reflexivity | split; [ cbn [List.length]; lia | ] ].
    destruct reply as [[message |] | e]; cbn [List.length]; lia.
Qed.

Lemma submitAnswer_stored (reply : completion (option string))
    (s : PsychologySession.t) (a : PsychologySession.PsychAnswer) :
  let s' := fst (fst (PsychologyService.submitAnswer reply s a)) in
  PsychologySession.sessionId s' = PsychologySession.sessionId s /\
  PsychologySession.userId s' = PsychologySession.userId s /\
  exists stored, PsychologySession.responses s' = (PsychologySession.responses s ++ [stored])%list /\
                 storedFor a stored.
Proof.
  unfold PsychologyService.submitAnswer.
  destruct reply as [[message |] | e]; cbn [fst PsychologySession.sessionId
    PsychologySession.userId PsychologySession.responses];
    (split; [ reflexivity | split; [ reflexivity | ] ]);
    eexists; (split; [ reflexivity | ]); unfold storedFor;
    cbn [PsychologySession.questionId PsychologySession.questionText PsychologySession.answer
         PsychologySession.responseMethod PsychologySession.responseTimeSeconds
         PsychologySession.emotionDetected PsychologySession.toneAnalysis];
    repeat (split; [ reflexivity | ]); reflexivity.
Qed.

Lemma submitAll_stored (calls : list (completion (option string) * PsychologySession.PsychAnswer)) :
  forall s : PsychologySession.t,
    let s' := PsychologyService.submitAll s calls in
    PsychologySession.sessionId s' = PsychologySession.sessionId s /\
    PsychologySession.userId s' = PsychologySession.userId s /\
    exists stored, PsychologySession.responses s' = (PsychologySession.responses s ++ stored)%list /\
                   Forall2 storedFor (map snd calls) stored.
Proof.
  induction calls as [| [reply a] calls IH]; intros s; cbn zeta.
  - cbn. split; [ reflexivity | split; [ reflexivity | ] ].
    exists []. split; [ rewrite app_nil_r; reflexivity | constructor ].
  - unfold PsychologyService.submitAll in *. cbn [fold_left fst snd map].
    destruct (submitAnswer_stored reply s a) as (Hs & Hu & e & He & Hstored).
    destruct (IH (fst (fst (PsychologyService.submitAnswer reply s a))))
      as (Hs' & Hu' & stored & Hr & Hall).
    split; [ rewrite Hs'; exact Hs | split; [ rewrite Hu'; exact Hu | ] ].
    exists (e :: stored). split; [ | constructor; assumption ].
    rewrite Hr, He, <- app_assoc. reflexivity.
Qed.

(** X4. After any run of [submitAnswer] calls, whatever the database
    replied to each: [getResponses()] is what it was, followed by every
    submitted answer in the order of the calls, each as it was submitted
    with the analyzer's emotion and tone, so completion counts the
    attempts; the question pointer has advanced only past the answers
    whose insertion succeeded; the question bank and the identifiers of
    the session are untouched. *)
Theorem submissions_counted
    (s : PsychologySession.t)
    (calls : list (completion (option string) * PsychologySession.PsychAnswer)) :
  let s' := PsychologyService.submitAll s calls in
  (exists stored,
     PsychologySession.getResponses s' = (PsychologySession.getResponses s ++ stored)%list /\
     Forall2 storedFor (map snd calls) stored) /\
  List.length (PsychologySession.getResponses s') =
    (List.length (PsychologySession.getResponses s) + List.length calls)%nat /\
  PsychologySession.isComplete s' =
    (Nat.min 8 (List.length (PsychologySession.questions s))
       <=? List.length (PsychologySession.responses s) + List.length calls)%nat /\
  PsychologySession.getCurrentQuestion s' =
    nth_error (PsychologySession.questions s)
      (PsychologySession.currentQuestionIndex s + PsychologyService.saved calls) /\
  PsychologySession.questions s' = PsychologySession.questions s /\
  PsychologySession.sessionId s' = PsychologySession.sessionId s /\
  PsychologySession.userId s' = PsychologySession.userId s.
Proof.
  intros s'. destruct (submitAll_session calls s) as (Hq & Hr & Hi). fold s' in Hq, Hr, Hi.
  destruct (submitAll_stored calls s) as (Hs & Hu & stored & Hstored & Hall).
  fold s' in Hs, Hu, Hstored.
  split; [ exists stored; split; [ exact Hstored | exact Hall ] | ].
  unfold PsychologySession.getResponses, PsychologySession.isComplete,
    PsychologySession.getCurrentQuestion.
  rewrite Hq, Hr, Hi. split; [ reflexivity | split; [ reflexivity | ] ].
  split; [ | split; [ reflexivity | split; [ exact Hs | exact Hu ] ] ].
  destruct (Nat.leb_spec (List.length (PsychologySession.questions s))
              (PsychologySession.currentQuestionIndex s + PsychologyService.saved calls))
    as [Hle | Hlt]; [ | reflexivity ].
  symmetry. apply nth_error_None. exact Hle.
Qed.

(** *** Progress *)

Lemma progress_table (m r : nat) :
  (1 <= m <= 8)%nat -> (r < m)%nat ->
  (100 <=? Math_round (of_nat r / of_nat m * 100))%float = false.
Proof.
  intros Hm Hr.
  assert (H : forallb (fun m' => forallb (fun r' =>
                negb (100 <=? Math_round (of_nat r' / of_nat m' * 100))%float)
                (seq 0 m')) (seq 1 8) = true) by (vm_compute; reflexivity).
  rewrite forallb_forall in H. specialize (H m ltac:(apply in_seq; lia)).
  rewrite forallb_forall in H. specialize (H r ltac:(apply in_seq; lia)).
  apply negb_true_iff in H. exact H.
Qed.

Lemma progress_full (m r : nat) :
  (1 <= m <= 8)%nat -> (m <= r)%nat -> Z.of_nat r < 2 ^ 32 ->
  (100 <=? Math_round (of_nat r / of_nat m * 100))%float = true.
Proof.
  intros Hm Hr Hr32.
  assert (Hr53 : Z.of_nat r < 2 ^ 53) by lia.
  assert (Hm53 : Z.of_nat m < 2 ^ 53) by lia.
  destruct (of_nat_exact m Hm53) as [Hmn Hmv].
  assert (Hm1 : (1 <= IZR (Z.of_nat m))%R) by (apply IZR_le; lia).
  assert (Hrm : (IZR (Z.of_nat m) <= IZR (Z.of_nat r))%R) by (apply IZR_le; lia).
  assert (Hr32' : (IZR (Z.of_nat r) <= bpow 32)%R).
  { rewrite (bpow_IZR 32) by lia. apply IZR_le. lia. }
  assert (B32 : (bpow 32 = 4294967296)%R).
  { rewrite (bpow_IZR 32) by lia. replace (2 ^ 32) with 4294967296 by reflexivity.
    reflexivity. }
  destruct (ratio_value r (of_nat m) Hr53 Hmn ltac:(lra)) as [Hq Rq].
  rewrite Hmv in Rq.
  pose proof (nonneg_finite_val _ Hq) as Hq0.
  set (x := (IZR (Z.of_nat r) / IZR (Z.of_nat m))%R) in *.
  assert (Hx : (1 <= x <= bpow 32)%R).
  { unfold x. split.
    - apply Rmult_le_reg_r with (IZR (Z.of_nat m)); [ lra | ].
      unfold Rdiv. rewrite Rmult_assoc, Rinv_l by lra. lra.
    - apply Rmult_le_reg_r with (IZR (Z.of_nat m)); [ lra | ].
      unfold Rdiv. rewrite Rmult_assoc, Rinv_l by lra. nra. }
  assert (Lq : (9999 / 10000 <= val (of_nat r / of_nat m))%R).
  { pose proof (rounds_lower _ _ 1 Rq Hq0) as H. lra. }
  assert (Uq : (val (of_nat r / of_nat m) <= bpow 33)%R).
  { pose proof (rounds_upper _ _ (bpow 32) Rq Hq0 ltac:(lra)) as H.
    rewrite Rabs_pos_eq in H by (rewrite B32; lra).
    replace (bpow 33) with (2 * bpow 32)%R by (rewrite <- bpow_double; reflexivity).
    rewrite B32 in *. lra. }
  literal_value 100%float V100.
  assert (N100 : nonneg_finite 100) by literal_nonneg.
  assert (B40 : (128 * bpow 33 = bpow 40)%R).
  { replace 40 with (33 + 7) by lia. rewrite bpow_scale by lia.
    replace (2 ^ 7) with 128 by reflexivity. reflexivity. }
  assert (B3340 : (bpow 33 <= bpow 40)%R) by (apply bpow_le; lia).
  pose proof (bpow_pos 33) as P33.
  destruct (mul_nn (of_nat r / of_nat m) 100 Hq N100) as [Hy Ry].
  { apply Rle_lt_trans with (bpow 40); [ | apply bpow_lt; lia ].
    rewrite V100, <- B40. nra. }
  set (y := (of_nat r / of_nat m * 100)%float) in *.
  pose proof (nonneg_finite_val _ Hy) as Hy0.
  rewrite V100 in Ry.
  assert (Ly : (999 / 10 <= val y)%R).
  { pose proof (rounds_lower _ _ (9999 / 100) Ry Hy0) as H. lra. }
  assert (Uy : (val y <= bpow 41)%R).
  { pose proof (rounds_upper _ _ (100 * bpow 33) Ry Hy0 ltac:(lra)) as H.
    rewrite Rabs_pos_eq in H by lra.
    replace (bpow 41) with (2 * bpow 40)%R by (rewrite <- bpow_double; reflexivity).
    rewrite <- B40. lra. }
  assert (Hy52 : (val y < bpow 52)%R).
  { apply Rle_lt_trans with (bpow 41); [ exact Uy | apply bpow_lt; lia ]. }
  destruct (Math_round_cases y Hy Hy52) as [(_ & _ & Hval) | (k & Hk & Hround & Hkv)].
  - exfalso. lra.
  - assert (Hk100 : 100 <= k).
    { assert (Hlt : (IZR 99 < IZR k)%R) by (change (IZR 99) with 99%R; lra).
      apply lt_IZR in Hlt. lia. }
    assert (Hk53 : k < 2 ^ 53).
    { assert (Hlt : (IZR k < IZR (2 ^ 53))%R).
      { rewrite <- bpow_IZR by lia.
        assert (bpow 41 + / 2 < bpow 53)%R.
        { replace 53 with (41 + 12) by lia. rewrite bpow_scale by lia.
          replace (2 ^ 12) with 4096 by reflexivity.
          pose proof (bpow_ge_1 41 ltac:(lia)). lra. }
        lra. }
      apply lt_IZR in Hlt. exact Hlt. }
    rewrite Hround. destruct (Z.eqb_spec k 0); [ lia | ].
    destruct (of_Z_exact k ltac:(lia)) as [Hkn Hkv'].
    apply leb_val; [ literal_nonneg | exact Hkn | ].
    rewrite V100, Hkv'. apply IZR_le in Hk100. lra.
Qed.

(** X5. For a session whose question bank is not empty, the progress
    [getProgress()] reaches 100 exactly when [isComplete()] holds. *)
Theorem progress_full_iff_complete (s : PsychologySession.t) :
  PsychologySession.questions s <> [] ->
  Z.of_nat (List.length (PsychologySession.responses s)) < 2 ^ 32 ->
  (100 <=? PsychologySession.getProgress s)%float = PsychologySession.isComplete s.
Proof.
  intros Hq Hr. unfold PsychologySession.getProgress, PsychologySession.isComplete.
  set (m := Nat.min 8 (List.length (PsychologySession.questions s))).
  set (r := List.length (PsychologySession.responses s)) in *.
  assert (Hm : (1 <= m <= 8)%nat).
  { subst m. destruct (PsychologySession.questions s); [ congruence | cbn [List.length]; lia ]. }
  destruct (Nat.leb_spec m r) as [Hle | Hlt].
  - apply progress_full; assumption.
  - apply progress_table; assumption.
Qed.

Lemma progress_full_iff_complete_witness :
  (100 <=? PsychologySession.getProgress Samples.shortSession)%float
    = PsychologySession.isComplete Samples.shortSession.
Proof.
  apply (progress_full_iff_complete Samples.shortSession).
  - discriminate.
  - vm_compute. reflexivity.
Defined.

(** X6. A session whose question bank is empty (one that was never
    initialised, or for which no template is active) is complete at once,
    and its progress is not a percentage: NaN as long as it holds no
    response, +Infinity afterwards. *)
Theorem progress_of_empty_bank (s : PsychologySession.t) :
  PsychologySession.questions s = [] ->
  Z.of_nat (List.length (PsychologySession.responses s)) < 2 ^ 32 ->
  PsychologySession.isComplete s = true /\
  PsychologySession.getCurrentQuestion s = None /\
  (PsychologySession.responses s = [] -> is_nan (PsychologySession.getProgress s) = true) /\
  (PsychologySession.responses s <> [] -> PsychologySession.getProgress s = infinity).
Proof.
  intros Hq Hr.
  unfold PsychologySession.isComplete, PsychologySession.getCurrentQuestion,
    PsychologySession.getProgress.
  rewrite Hq. cbn [List.length Nat.min Nat.leb].
  split; [ reflexivity | split; [ reflexivity | split ] ].
  - intros ->. vm_compute. reflexivity.
  - intros Hne. change (of_nat 0) with PrimFloat.zero.
    set (r := List.length (PsychologySession.responses s)) in *.
    assert (Hr1 : (1 <= r)%nat).
    { subst r. destruct (PsychologySession.responses s); [ congruence | cbn; lia ]. }
    destruct (of_nat_exact r ltac:(lia)) as [Hrn Hrv].
    rewrite div_zero; [ vm_compute; reflexivity | exact Hrn | ].
    rewrite Hrv. apply IZR_lt. lia.
Qed.

Lemma progress_of_empty_bank_witness :
  PsychologySession.isComplete (PsychologySession.new "id" "user") = true /\
  PsychologySession.getCurrentQuestion (PsychologySession.new "id" "user") = None /\
  (PsychologySession.responses (PsychologySession.new "id" "user") = [] ->
   is_nan (PsychologySession.getProgress (PsychologySession.new "id" "user")) = true) /\
  (PsychologySession.responses (PsychologySession.new "id" "user") <> [] ->
   PsychologySession.getProgress (PsychologySession.new "id" "user") = infinity).
Proof.
  apply (progress_of_empty_bank (PsychologySession.new "id" "user")).
  - reflexivity.
  - vm_compute. reflexivity.
Defined.

End SessionServiceFacts.

(** ** The words of a message split at single spaces *)

Module WordFacts.
Import Binary64 Spec Binary64Facts AnalyzerFacts Binary64More Notions.

Lemma chars_append (a b : string) :
  list_ascii_of_string (a ++ b) = (list_ascii_of_string a ++ list_ascii_of_string b)%list.
Proof. induction a as [| c a IH]; cbn; [ reflexivity | rewrite IH; reflexivity ]. Qed.

Lemma prefix_chars (k : string) : forall w : string,
  String.prefix k w = true ->
  forall c, In c (list_ascii_of_string k) -> In c (list_ascii_of_string w).
Proof.
  induction k as [| a k IH]; intros w H c Hc; [ contradiction | ].
  destruct w as [| b w]; cbn in H; [ discriminate | ].
  destruct (ascii_dec a b) as [-> | _]; [ | discriminate ].
  destruct Hc as [<- | Hc]; [ left; reflexivity | right; apply (IH w H c Hc) ].
Qed.

(** A keyword that occurs in a word has all its code units in the word. *)
Lemma includes_chars (keyword : string) : forall word : string,
  includes word keyword = true ->
  forall c, In c (list_ascii_of_string keyword) -> In c (list_ascii_of_string word).
Proof.
  induction word as [| b word IH]; intros H c Hc; cbn [includes] in H.
  - destruct (String.prefix keyword "") eqn:E; [ | discriminate ].
    apply (prefix_chars keyword "" E c Hc).
  - destruct (String.prefix keyword (String b word)) eqn:E.
    + apply (prefix_chars keyword _ E c Hc).
    + right. apply (IH H c Hc).
Qed.

(** No piece of [s.split(sep)] contains the separator. *)
Lemma split_on_pieces (sep : ascii) (s : string) : forall tok : string,
  ~ In sep (list_ascii_of_string tok) ->
  forall w, In w (split_on sep tok s) -> ~ In sep (list_ascii_of_string w).
Proof.
  induction s as [| c s IH]; intros tok Htok w Hw; cbn [split_on] in Hw.
  - destruct Hw as [<- | []]. exact Htok.
  - destruct (Ascii.eqb_spec c sep) as [-> | Hne].
    + destruct Hw as [<- | Hw]; [ exact Htok | ].
      apply (IH EmptyString); [ intros [] | exact Hw ].
    + apply (IH (tok ++ String c EmptyString)%string); [ | exact Hw ].
      rewrite chars_append. intros Hin. apply in_app_or in Hin.
      destruct Hin as [Hin | [Hin | []]]; [ exact (Htok Hin) | congruence ].
Qed.

Lemma split_space_pieces (s word : string) :
  In word (split_space s) -> ~ In " "%char (list_ascii_of_string word).
Proof. apply split_on_pieces. intros []. Qed.

(** A marker that contains a space occurs in no word of the message. *)
Lemma spaced_marker (s word marker : string) :
  In word (split_space s) -> In " "%char (list_ascii_of_string marker) ->
  includes word marker = false.
Proof.
  intros Hw Hm. destruct (includes word marker) eqn:E; [ exfalso | reflexivity ].
  apply (split_space_pieces s word Hw). apply (includes_chars marker word E). exact Hm.
Qed.

Lemma countContaining_ext (words markers markers' : list string) :
  (forall word, In word words ->
     existsb (fun marker => includes word marker) markers
     = existsb (fun marker => includes word marker) markers') ->
  countContaining words markers = countContaining words markers'.
Proof.
  intros H. unfold countContaining. f_equal. apply filter_ext_in. exact H.
Qed.

Lemma hesitant_conversational (s : string) :
  countContaining (split_space s) ConversationalAI.hesitant
  = countContaining (split_space s) singleWordMarkers.
Proof.
  apply countContaining_ext. intros word Hw.
  unfold ConversationalAI.hesitant, singleWordMarkers. cbn [existsb].
  rewrite (spaced_marker s word "i think" Hw), (spaced_marker s word "sort of" Hw);
    [ | cbn; tauto | cbn; tauto ].
  rewrite !orb_false_r. reflexivity.
Qed.

Lemma hesitant_session (s : string) :
  countContaining (split_space s) PsychologyService.hesitant
  = countContaining (split_space s) singleWordMarkers.
Proof.
  apply countContaining_ext. intros word Hw.
  unfold PsychologyService.hesitant, singleWordMarkers. cbn [existsb].
  rewrite (spaced_marker s word "i think" Hw); [ | cbn; tauto ].
  rewrite !orb_false_r. reflexivity.
Qed.

(** X7. The hesitation markers 'i think' and 'sort of' never count: the
    conversational analyzer and the session analyzer split the message at
    single spaces, so no word contains a space. Their hesitation is the
    share of the words containing one of 'maybe', 'perhaps', 'probably',
    'might'. *)
Theorem spaced_markers_never_count (message : string) (method : PsychologySession.ResponseMethod) :
  let words := split_space (toLowerCase message) in
  (forall word, In word words ->
     includes word "i think" = false /\ includes word "sort of" = false) /\
  hesitation (tone (ConversationalAI.analyzeUserResponse message))
    = round2 (of_nat (countContaining words singleWordMarkers) / of_nat (List.length words)) /\
  hesitation (PsychologyService.tone (PsychologyService.analyzeResponse message method))
    = round2 (of_nat (countContaining words singleWordMarkers) / of_nat (List.length words)).
Proof.
  intros words. split; [ | split ].
  - intros word Hw.
    split; apply (spaced_marker (toLowerCase message) word _ Hw); cbn; tauto.
  - unfold ConversationalAI.analyzeUserResponse. cbn [tone hesitation].
    fold words. unfold words. rewrite hesitant_conversational. reflexivity.
  - unfold PsychologyService.analyzeResponse. cbn [PsychologyService.tone hesitation].
    fold words. unfold words. rewrite hesitant_session. reflexivity.
Qed.

Local Open Scope Z_scope.

Lemma table_minimum (lo : Z) (c : number) :
  forallb (fun n => (c <=? of_Z (Z.of_nat n) / 100)%float)
          (seq (Z.to_nat lo) (101 - Z.to_nat lo)) = true ->
  forall k, 0 <= lo -> lo <= k <= 100 -> (c <=? of_Z k / 100)%float = true.
Proof.
  intros H k Hlo Hk. rewrite forallb_forall in H. specialize (H (Z.to_nat k)).
  rewrite Z2Nat.id in H by lia. apply H. apply in_seq. lia.
Qed.

(** The rounded value of [Math.min(1, n / c)] for a count [n >= 1]. *)
Lemma capped_minimum (n : nat) (c lo : number) (d k0 : Z) :
  (1 <= n)%nat -> Z.of_nat n < 2 ^ 53 ->
  nonneg_finite c -> val c = IZR d -> 1 <= d <= 100 ->
  1 <= k0 -> (IZR k0 - 2 / 5 <= 100 / IZR d - / 100)%R ->
  forallb (fun n => (lo <=? of_Z (Z.of_nat n) / 100)%float)
          (seq (Z.to_nat k0) (101 - Z.to_nat k0)) = true ->
  (lo <=? round2 (Math_min 1 (of_nat n / c)))%float = true.
Proof.
  intros Hn1 Hn Hc Hcv Hd Hk0 Hmargin Htable.
  assert (Hd1 : (1 <= IZR d <= 100)%R).
  { split; [ change 1%R with (IZR 1) | change 100%R with (IZR 100) ]; apply IZR_le; lia. }
  destruct (capped_spec n c Hn Hc ltac:(lra)) as [Hm Hle].
  assert (HB : (0 <= / IZR d <= IZR (Z.of_nat n) / val c)%R).
  { split; [ apply Rlt_le, Rinv_0_lt_compat; lra | ].
    rewrite Hcv.
    assert (H1 : (1 <= IZR (Z.of_nat n))%R) by (apply IZR_le; lia).
    unfold Rdiv. rewrite <- (Rmult_1_l (/ IZR d)) at 1.
    apply Rmult_le_compat_r; [ apply Rlt_le, Rinv_0_lt_compat; lra | exact H1 ]. }
  destruct (ratio_lower n c (/ IZR d) Hn Hc ltac:(lra) HB) as [Hq Hlo].
  assert (Hinv : (/ IZR d <= 1)%R).
  { rewrite <- Rinv_1. apply Rinv_le_contravar; lra. }
  assert (Hinv0 : (0 < / IZR d)%R) by (apply Rinv_0_lt_compat; lra).
  assert (Hval : (/ IZR d - / 50000 <= val (Math_min 1 (of_nat n / c)))%R).
  { destruct (Math_min_one (of_nat n / c) (finite_not_nan _ (nonneg_finite_finite _ Hq)))
      as [-> | [-> _]].
    - literal_value 1%float V1. rewrite V1. lra.
    - lra. }
  destruct (round2_between _ k0 100 Hm Hk0 ltac:(lia)) as (k & Hk & ->).
  - change (IZR 100) with 100%R. unfold Rdiv in Hmargin. lra.
  - apply (table_minimum k0 lo Htable); lia.
Qed.

(** X8. Splitting at single spaces always yields at least one piece, so
    every message, the empty one included, counts as at least one word:
    the conversational analyzer never reports a confidence below 0.07 or
    a verbosity below 0.03, and the session analyzer never a confidence
    below 0.05 or a verbosity below 0.02. *)
Theorem one_word_minimum (message : string) (method : PsychologySession.ResponseMethod) :
  Z.of_nat (String.length message) < 2 ^ 32 ->
  ((0.07 <=? confidence (tone (ConversationalAI.analyzeUserResponse message)))%float = true /\
   (0.03 <=? verbosity (tone (ConversationalAI.analyzeUserResponse message)))%float = true) /\
  ((0.05 <=? confidence (PsychologyService.tone
                           (PsychologyService.analyzeResponse message method)))%float = true /\
   (0.02 <=? verbosity (PsychologyService.tone
                          (PsychologyService.analyzeResponse message method)))%float = true).
Proof.
  intros Hlen. pose proof (split_space_length message) as [Hn1 Hn2].
  unfold ConversationalAI.analyzeUserResponse, PsychologyService.analyzeResponse.
  cbn [tone PsychologyService.tone confidence verbosity].
  set (n := List.length (split_space (toLowerCase message))) in *.
  assert (Hn : Z.of_nat n < 2 ^ 53) by lia.
  repeat split.
  - apply (capped_minimum n 15 0.07 15 7 Hn1 Hn); try lia;
      [ literal_nonneg | literal_value 15%float V; rewrite V; lra | lra
      | vm_compute; reflexivity ].
  - apply (capped_minimum n 30 0.03 30 3 Hn1 Hn); try lia;
      [ literal_nonneg | literal_value 30%float V; rewrite V; lra | lra
      | vm_compute; reflexivity ].
  - apply (capped_minimum n 20 0.05 20 5 Hn1 Hn); try lia;
      [ literal_nonneg | literal_value 20%float V; rewrite V; lra | lra
      | vm_compute; reflexivity ].
  - apply (capped_minimum n 50 0.02 50 2 Hn1 Hn); try lia;
      [ literal_nonneg | literal_value 50%float V; rewrite V; lra | lra
      | vm_compute; reflexivity ].
Qed.

Lemma one_word_minimum_witness :
  ((0.07 <=? confidence (tone (ConversationalAI.analyzeUserResponse "")))%float = true /\
   (0.03 <=? verbosity (tone (ConversationalAI.analyzeUserResponse "")))%float = true) /\
  ((0.05 <=? confidence (PsychologyService.tone
                (PsychologyService.analyzeResponse "" PsychologySession.voice)))%float = true /\
   (0.02 <=? verbosity (PsychologyService.tone
                (PsychologyService.analyzeResponse "" PsychologySession.voice)))%float = true).
Proof.
  apply (one_word_minimum "" PsychologySession.voice). vm_compute. reflexivity.
Defined.

End WordFacts.

(** ** Trimming and splitting at white space *)

Module TextFacts.
Import Spec AnalyzerFacts.

Lemma isWhiteSpace_toLowerChar (c : ascii) : isWhiteSpace (toLowerChar c) = isWhiteSpace c.
Proof. destruct c as [[] [] [] [] [] [] [] []]; reflexivity. Qed.

Lemma toLowerCase_append (a b : string) :
  toLowerCase (a ++ b) = (toLowerCase a ++ toLowerCase b)%string.
Proof. induction a as [| c a IH]; cbn; [ reflexivity | rewrite IH; reflexivity ]. Qed.

(** Lower-casing commutes with splitting at white space. *)
Lemma split_run_lower (s : string) : forall (inrun : bool) (tok : string),
  split_run inrun (toLowerCase tok) (toLowerCase s) = map toLowerCase (split_run inrun tok s).
Proof.
  induction s as [| c s IH]; intros inrun tok; cbn [split_run toLowerCase map].
  - reflexivity.
  - rewrite isWhiteSpace_toLowerChar. destruct (isWhiteSpace c).
    + destruct inrun; [ apply IH | ].
      cbn [map]. f_equal. apply (IH true EmptyString).
    + rewrite <- IH. rewrite toLowerCase_append. reflexivity.
Qed.

Lemma trimStart_length (s : string) : (String.length (trimStart s) <= String.length s)%nat.
Proof. induction s as [| c s IH]; cbn; [ lia | destruct (isWhiteSpace c); cbn; lia ]. Qed.

(** A string that [trimStart] leaves alone does not start with white space. *)
Lemma trimStart_fixed (c : ascii) (r : string) :
  trimStart (String c r) = String c r -> isWhiteSpace c = false.
Proof.
  cbn. destruct (isWhiteSpace c); [ | reflexivity ].
  intros H. pose proof (trimStart_length r) as Hl. rewrite H in Hl. cbn in Hl. lia.
Qed.

Lemma trimStart_idempotent (s : string) : trimStart (trimStart s) = trimStart s.
Proof.
  induction s as [| c s IH]; cbn; [ reflexivity | ].
  destruct (isWhiteSpace c) eqn:E; [ exact IH | cbn; rewrite E; reflexivity ].
Qed.

(** A non-empty string that [trimEnd] leaves alone does not end with white
    space: its tail is empty and its head is not white space, or its tail
    is a non-empty string of the same kind. *)
Lemma trimEnd_fixed (c : ascii) (r : string) :
  trimEnd (String c r) = String c r ->
  (r = EmptyString /\ isWhiteSpace c = false) \/ (r <> EmptyString /\ trimEnd r = r).
Proof.
  cbn [trimEnd]. destruct (trimEnd r) as [| c' r'] eqn:E.
  - destruct (isWhiteSpace c); [ discriminate | ].
    intros H. injection H as <-. left. split; reflexivity.
  - intros H. injection H as <-. right. split; [ discriminate | reflexivity ].
Qed.

Lemma trimEnd_idempotent (s : string) : trimEnd (trimEnd s) = trimEnd s.
Proof.
  induction s as [| c s IH]; [ reflexivity | ].
  cbn [trimEnd]. destruct (trimEnd s) as [| c' r'] eqn:E.
  - destruct (isWhiteSpace c) eqn:Ec; [ reflexivity | cbn; rewrite Ec; reflexivity ].
  - cbn [trimEnd] in IH |- *. rewrite IH. reflexivity.
Qed.

Lemma trimEnd_keeps_start (s : string) : trimStart s = s -> trimStart (trimEnd s) = trimEnd s.
Proof.
  destruct s as [| c r]; [ reflexivity | ].
  intros H. apply trimStart_fixed in H.
  cbn [trimEnd]. rewrite H. destruct (trimEnd r); cbn [trimStart]; rewrite H; reflexivity.
Qed.

(** What [trim] returns is trimmed at both ends. *)
Lemma trim_fixed (s : string) : trimStart (trim s) = trim s /\ trimEnd (trim s) = trim s.
Proof.
  unfold trim. split.
  - apply trimEnd_keeps_start. apply trimStart_idempotent.
  - apply trimEnd_idempotent.
Qed.

Lemma trim_idempotent (s : string) : trim (trim s) = trim s.
Proof.
  destruct (trim_fixed s) as [H1 H2]. unfold trim at 1. rewrite H1, H2. reflexivity.
Qed.

Lemma append_nonempty (tok : string) (c : ascii) : (tok ++ String c EmptyString)%string <> EmptyString.
Proof. destruct tok; discriminate. Qed.

(** The pieces of a string that does not end with white space are not
    empty, provided the piece being read is not empty or a word starts. *)
Lemma split_run_nonempty (s : string) : forall (inrun : bool) (tok : string),
  trimEnd s = s ->
  (s = EmptyString -> tok <> EmptyString) ->
  (tok = EmptyString -> inrun = false -> trimStart s = s) ->
  Forall (fun w => w <> EmptyString) (split_run inrun tok s).
Proof.
  induction s as [| c r IH]; intros inrun tok Hend Hempty Hstart; cbn [split_run].
  - constructor; [ apply Hempty; reflexivity | constructor ].
  - destruct (trimEnd_fixed c r Hend) as [[-> Hc] | [Hr Her]].
    + rewrite Hc. cbn [split_run]. constructor; [ apply append_nonempty | constructor ].
    + destruct (isWhiteSpace c) eqn:Ec.
      * assert (IHr : Forall (fun w => w <> EmptyString) (split_run true EmptyString r)).
        { apply IH; [ exact Her | intros E; contradiction | intros _ E; discriminate ]. }
        destruct inrun.
        -- apply IH; [ exact Her | intros E; contradiction | intros _ E; discriminate ].
        -- constructor; [ | exact IHr ].
           intros ->. specialize (Hstart eq_refl eq_refl).
           apply trimStart_fixed in Hstart. congruence.
      * apply IH; [ exact Her | intros E; contradiction | ].
        intros E. exfalso. exact (append_nonempty tok c E).
Qed.

Lemma filter_all {A} (f : A -> bool) (l : list A) :
  Forall (fun x => f x = true) l -> filter f l = l.
Proof.
  induction 1 as [| x l Hx _ IH]; cbn; [ reflexivity | rewrite Hx, IH; reflexivity ].
Qed.

(** For a text that is trimmed and not empty, the number of pieces of
    [text.split(/\s+/)] is the number of words the analyzers count. *)
Lemma trimmed_word_count (t : string) :
  trimStart t = t -> trimEnd t = t -> t <> EmptyString ->
  List.length (split_whitespace t) = wordCountOf t /\ (1 <= wordCountOf t)%nat.
Proof.
  intros Hs He Hne.
  assert (Hall : Forall (fun w => w <> EmptyString) (split_whitespace t)).
  { apply split_run_nonempty; [ exact He | intros E; contradiction | intros _ _; exact Hs ]. }
  unfold wordCountOf, tokens, split_whitespace in *.
  change EmptyString with (toLowerCase EmptyString) at 2 3.
  rewrite split_run_lower.
  rewrite filter_all.
  - rewrite length_map. split; [ reflexivity | ].
    destruct (split_run false EmptyString t) eqn:E; [ | cbn; lia ].
    destruct t; cbn in E; [ discriminate | ].
    destruct (isWhiteSpace a); [ discriminate | ].
    exfalso. revert E. clear. generalize (String a EmptyString).
    induction t as [| c t IH]; intros tok; cbn; [ discriminate | ].
    destruct (isWhiteSpace c); [ discriminate | apply IH ].
  - apply Forall_map. apply Forall_impl with (2 := Hall).
    intros w Hw. rewrite toLowerCase_length.
    destruct w; [ contradiction | reflexivity ].
Qed.

Lemma falsy_false (s : string) : falsy s = false -> s <> EmptyString.
Proof. destruct s; [ discriminate | discriminate ]. Qed.

End TextFacts.

(** ** PsychologicalQuestionnaire.tsx: the course of a questionnaire *)

Module PsychologicalFlowFacts.
Import Spec Notions TextFacts AggregatorFacts.
Import PsychologicalQuestionnaire PsychologicalQuestionnaireComponent.

Lemma firstn_repeat {A} (x : A) (k : nat) : firstn k (repeat x k) = repeat x k.
Proof. rewrite <- (repeat_length x k) at 1. apply firstn_all. Qed.

Lemma repeat_snoc {A} (x : A) (k : nat) : repeat x (S k) = (repeat x k ++ [x])%list.
Proof. cbn [repeat]. apply repeat_cons. Qed.

(** The question shown once [n] answers are recorded. *)
Lemma question_at (n : nat) :
  exists q, nth_error PSYCHOLOGICAL_QUESTIONS (Nat.min n 8) = Some q /\
            id q = of_nat (Nat.min n 8 + 1).
Proof.
  do 8 (destruct n as [| n]; [ cbn; eexists; split; reflexivity | ]).
  replace (Nat.min (S (S (S (S (S (S (S (S n)))))))) 8) with 8 by lia.
  cbn. eexists. split; reflexivity.
Qed.

Lemma psychologicalAsked_full (n : nat) :
  (9 <= n)%nat ->
  psychologicalAsked n = (map id PSYCHOLOGICAL_QUESTIONS ++ repeat 9%float (n - 9))%list.
Proof.
  intros Hn. unfold psychologicalAsked. apply firstn_all2.
  rewrite length_app, repeat_length, length_map. cbn [List.length PSYCHOLOGICAL_QUESTIONS]. lia.
Qed.

Lemma psychologicalAsked_next (n : nat) :
  psychologicalAsked (S n) = (psychologicalAsked n ++ [of_nat (Nat.min n 8 + 1)])%list.
Proof.
  destruct (Nat.le_gt_cases 9 n) as [Hge | Hlt].
  - rewrite !psychologicalAsked_full by lia.
    replace (S n - 9) with (S (n - 9)) by lia. rewrite repeat_snoc, app_assoc.
    replace (Nat.min n 8) with 8 by lia. reflexivity.
  - do 9 (destruct n as [| n]; [ reflexivity | ]). lia.
Qed.

(** One submission keeps the invariant; what it delivers holds the answers
    recorded so far, at least nine of them. *)
Lemma handleSubmitAnswer_invariant (userName : string) (r : Readings) (s : State) :
  psychologicalInvariant s ->
  psychologicalInvariant (fst (handleSubmitAnswer userName r s)) /\
  Forall (fun d => name d = userName /\
                   PsychologicalQuestionnaire.answers d
                     = answers (fst (handleSubmitAnswer userName r s)) /\
                   (9 <= List.length (PsychologicalQuestionnaire.answers d))%nat)
         (snd (handleSubmitAnswer userName r s)).
Proof.
  intros Hinv. pose proof Hinv as (Hidx & Hids & Hrec).
  unfold handleSubmitAnswer, currentQuestion. rewrite Hidx.
  set (n := List.length (answers s)) in *.
  destruct (question_at n) as (q & -> & Hid).
  destruct (falsy (trim (currentAnswer s))) eqn:Ef; [ split; [ exact Hinv | constructor ] | ].
  set (t := trim (currentAnswer s)) in *.
  pose proof (falsy_false t Ef) as Hne.
  destruct (trim_fixed (currentAnswer s)) as [Hs He]. fold t in Hs, He.
  destruct (trimmed_word_count t Hs He Hne) as [Hwc Hwc1].
  set (a := {| questionId := id q; question := text q;
               PsychologicalQuestionnaire.answer := t;
               responseTime := Math_floor ((submittedAt r - startTime s) / 1000);
               wordCount := of_nat (List.length (split_whitespace t));
               emotionDetected := emotion (analyzeResponse t);
               toneAnalysis := tone (analyzeResponse t) |}).
  assert (Ha : recordedPsychological a).
  { unfold recordedPsychological, a.
    cbn [PsychologicalQuestionnaire.answer wordCount emotionDetected toneAnalysis].
    split; [ exact Hne | split; [ unfold t; apply trim_idempotent | ] ].
    split; [ rewrite Hwc; reflexivity | split; [ exact Hwc1 | split; reflexivity ] ]. }
  assert (Hlen : List.length (answers s ++ [a]) = S n)
    by (rewrite length_app; cbn; lia).
  assert (Hmap : map questionId (answers s ++ [a]) = psychologicalAsked (S n)).
  { rewrite map_app, Hids, psychologicalAsked_next. cbn [map a questionId]. rewrite Hid.
    reflexivity. }
  assert (Hall : Forall recordedPsychological (answers s ++ [a])).
  { apply Forall_app. split; [ exact Hrec | constructor; [ exact Ha | constructor ] ]. }
  change (List.length PSYCHOLOGICAL_QUESTIONS - 1)%nat with 8%nat.
  destruct (Nat.ltb_spec (Nat.min n 8) 8) as [Hlt | Hge].
  - cbn [fst snd]. split; [ | constructor ].
    unfold psychologicalInvariant. cbn [answers currentQuestionIndex].
    rewrite Hlen. split; [ lia | split; assumption ].
  - destruct (generate_returns userName (completedAt r) (answers s ++ [a])%list
                (allowDataUsage s)) as (d & Hd & Hname & Hans & _).
    rewrite Hd. cbn [fst snd]. split.
    + unfold psychologicalInvariant. cbn [answers currentQuestionIndex].
      rewrite Hlen. split; [ lia | split; assumption ].
    + constructor; [ | constructor ].
      cbn [answers]. rewrite Hans, Hlen. repeat split; [ exact Hname | lia ].
Qed.

Lemma dispatch_invariant (userName : string) (s : State) (e : Event) :
  psychologicalInvariant s ->
  psychologicalInvariant (fst (dispatch userName s e)) /\
  Forall (fun d => name d = userName /\
                   PsychologicalQuestionnaire.answers d = answers (fst (dispatch userName s e)) /\
                   (9 <= List.length (PsychologicalQuestionnaire.answers d))%nat)
         (snd (dispatch userName s e)).
Proof.
  intros Hinv. destruct e as [checked | | value | r]; cbn [dispatch];
    try (split; [ exact Hinv | constructor ]).
  apply handleSubmitAnswer_invariant. exact Hinv.
Qed.

(** What a run of the component reaches and delivers. *)
Lemma run_invariant (userName : string) (mounted : number) (events : list Event) :
  psychologicalInvariant (fst (run userName mounted events)) /\
  Forall (fun d => name d = userName /\
                   Forall recordedPsychological (PsychologicalQuestionnaire.answers d) /\
                   exists n, (9 <= n)%nat /\
                     map questionId (PsychologicalQuestionnaire.answers d)
                       = psychologicalAsked n)
         (snd (run userName mounted events)).
Proof.
  unfold run. induction events as [| e events IH] using rev_ind.
  - cbn [fold_left fst snd]. split; [ | constructor ].
    unfold psychologicalInvariant, initial.
    cbn [answers currentQuestionIndex List.length map].
    split; [ reflexivity | split; [ reflexivity | constructor ] ].
  - rewrite fold_left_app. cbn [fold_left].
    set (st := fold_left _ events _) in *. destruct IH as [Hinv Hout].
    destruct (dispatch_invariant userName (fst st) e Hinv) as [Hinv' Hnew].
    destruct (dispatch userName (fst st) e) as [s' delivered]. cbn [fst snd] in *.
    split; [ exact Hinv' | ].
    apply Forall_app. split; [ exact Hout | ].
    apply Forall_impl with (2 := Hnew). intros d (Hname & Hans & H9).
    destruct Hinv' as (_ & Hids & Hrec).
    split; [ exact Hname | ]. rewrite Hans. split; [ exact Hrec | ].
    exists (List.length (answers s')). split; [ rewrite <- Hans; exact H9 | exact Hids ].
Qed.

(** X9. Whatever the user does, every answer the psychological
    questionnaire records is trimmed and not blank, and the word count
    stored with it (the pieces of [split(/\s+/)]) is the number of words
    the analyzer counted in it, at least one. *)
Theorem recorded_answers_are_counted (userName : string) (mounted : number)
    (events : list Event) :
  Forall recordedPsychological (answers (fst (run userName mounted events))).
Proof. destruct (run_invariant userName mounted events) as [(_ & _ & H) _]. exact H. Qed.

(** X10. Whatever the user does, the index of the current question never
    passes the last question (the component never sees itself as
    complete), and every profile handed to [onComplete] is built from at
    least nine answers, the first nine of which answer the nine questions
    in their order: the aggregation never runs on an empty list. *)
Theorem profiles_cover_the_nine_questions (userName : string) (mounted : number)
    (events : list Event) :
  (currentQuestionIndex (fst (run userName mounted events)) <= 8)%nat /\
  isComplete (fst (run userName mounted events)) = false /\
  Forall (fun d => name d = userName /\
                   firstn 9 (map questionId (PsychologicalQuestionnaire.answers d))
                     = map id PSYCHOLOGICAL_QUESTIONS)
         (snd (run userName mounted events)).
Proof.
  destruct (run_invariant userName mounted events) as [(Hidx & _ & _) Hout].
  split; [ rewrite Hidx; lia | split ].
  - unfold isComplete. rewrite Hidx. apply Nat.leb_gt. cbn. lia.
  - apply Forall_impl with (2 := Hout). intros d (Hname & _ & n & Hn & Hids).
    split; [ exact Hname | ]. rewrite Hids. unfold psychologicalAsked.
    rewrite firstn_firstn. replace (Nat.min 9 n) with 9 by lia.
    rewrite firstn_app. cbn [map PSYCHOLOGICAL_QUESTIONS id List.length].
    replace (9 - 9) with 0 by lia. cbn [firstn]. rewrite app_nil_r. reflexivity.
Qed.

End PsychologicalFlowFacts.

(** ** EnhancedPsychQuestionnaire.tsx: the course of a questionnaire *)

Module EnhancedFlowFacts.
Import Spec Notions TextFacts.
Import EnhancedPsychQuestionnaireComponent.

Lemma repeat_end {A} (x : A) (k : nat) : repeat x (S k) = (repeat x k ++ [x])%list.
Proof. cbn [repeat]. apply repeat_cons. Qed.

Lemma enhancedAsked_full (n : nat) :
  (9 <= n)%nat ->
  enhancedAsked n = ([1; 2; 3; 3; 4; 5; 6; 7; 8] ++ repeat 8 (n - 9))%list%float.
Proof.
  intros Hn. unfold enhancedAsked. apply firstn_all2.
  rewrite length_app, repeat_length. cbn [List.length]. lia.
Qed.

Lemma enhancedAsked_next (n : nat) :
  enhancedAsked (S n)
  = (enhancedAsked n ++ [of_nat ((if (n <=? 2)%nat then n else Nat.min (n - 1) 7) + 1)])%list.
Proof.
  destruct (Nat.le_gt_cases 9 n) as [Hge | Hlt].
  - rewrite !enhancedAsked_full by lia.
    replace (S n - 9) with (S (n - 9)) by lia. rewrite repeat_end, app_assoc.
    destruct (Nat.leb_spec n 2); [ lia | ].
    replace (Nat.min (n - 1) 7) with 7 by lia. reflexivity.
  - do 9 (destruct n as [| n]; [ reflexivity | ]). lia.
Qed.

(** The question at an index of a list whose identifiers are 1, 2, ... *)
Lemma question_numbered (qs : list Question) (len i : nat) :
  map id qs = map of_nat (seq 1 len) -> (i < len)%nat ->
  exists q, nth_error qs i = Some q /\ id q = of_nat (i + 1).
Proof.
  intros Hids Hi.
  assert (H : nth_error (map id qs) i = Some (of_nat (i + 1))).
  { rewrite Hids, nth_error_map, nth_error_seq.
    destruct (Nat.ltb_spec i len); [ | lia ].
    cbn [option_map]. replace (1 + i) with (i + 1) by lia. reflexivity. }
  rewrite nth_error_map in H. destruct (nth_error qs i) as [q |]; [ | discriminate ].
  exists q. split; [ reflexivity | ]. cbn [option_map] in H. congruence.
Qed.

Lemma generateNextQuestion_id (snapshot : list Question) (generated : completion string)
    (random : number) (currentAnswers : list Answer) :
  (3 <= List.length currentAnswers)%nat ->
  exists q, generateNextQuestion snapshot generated random currentAnswers = Some q /\
            id q = of_nat (List.length snapshot + 1).
Proof.
  intros H3. unfold generateNextQuestion.
  destruct (Nat.ltb_spec (List.length currentAnswers) 3); [ lia | ].
  destruct generated; eexists; split; reflexivity.
Qed.

(** One submission keeps the invariant; a delivery holds the answers
    recorded so far, at least nine of them. *)
Lemma handleSubmitAnswer_enhanced (P : Type) (userName : string) (r : Readings P) (s : State) :
  enhancedInvariant s ->
  enhancedInvariant (fst (handleSubmitAnswer P userName r s)) /\
  Forall (fun d => deliveredAnswers P d = answers (fst (handleSubmitAnswer P userName r s)) /\
                   (9 <= List.length (deliveredAnswers P d))%nat)
         (snd (handleSubmitAnswer P userName r s)).
Proof.
  intros Hinv. pose proof Hinv as (Hidx & Hqs & Hids & Hrec).
  unfold handleSubmitAnswer, currentQuestion.
  set (n := List.length (answers s)) in *.
  set (len := if (n <=? 2)%nat then 3 else Nat.min (n + 1) 9) in *.
  set (i := if (n <=? 2)%nat then n else Nat.min (n - 1) 7) in *.
  assert (Hlenq : List.length (questions s) = len).
  { rewrite <- (length_map id), Hqs, length_map, length_seq. reflexivity. }
  assert (Hi : (i < len)%nat) by (subst i len; destruct (Nat.leb_spec n 2); lia).
  rewrite Hidx.
  destruct (question_numbered (questions s) len i Hqs Hi) as (q & -> & Hid).
  destruct (falsy (trim (currentAnswer s))) eqn:Ef; [ split; [ exact Hinv | constructor ] | ].
  set (t := trim (currentAnswer s)) in *.
  pose proof (falsy_false t Ef) as Hne.
  destruct (trim_fixed (currentAnswer s)) as [Hs He]. fold t in Hs, He.
  destruct (trimmed_word_count t Hs He Hne) as [Hwc Hwc1].
  set (a := {| questionId := id q; question := text q; answer := t;
               responseTime := Math_floor ((submittedAt P r - startTime s) / 1000);
               wordCount := of_nat (List.length (split_whitespace t));
               emotionDetected := emotion (EnhancedPsychQuestionnaire.analyzeResponse t);
               toneAnalysis := tone (EnhancedPsychQuestionnaire.analyzeResponse t) |}).
  assert (Ha : recordedEnhanced a).
  { unfold recordedEnhanced, a. cbn [answer wordCount emotionDetected toneAnalysis].
    split; [ exact Hne | split; [ unfold t; apply trim_idempotent | ] ].
    split; [ rewrite Hwc; reflexivity | split; [ exact Hwc1 | split; reflexivity ] ]. }
  assert (Hlen : List.length (answers s ++ [a]) = S n)
    by (rewrite length_app; cbn; lia).
  assert (Hmap : map questionId (answers s ++ [a]) = enhancedAsked (S n)).
  { rewrite map_app, Hids, enhancedAsked_next. cbn [map a questionId]. rewrite Hid.
    reflexivity. }
  assert (Hall : Forall recordedEnhanced (answers s ++ [a])).
  { apply Forall_app. split; [ exact Hrec | constructor; [ exact Ha | constructor ] ]. }
  rewrite Hlen, Hlenq.
  set (questions' := if (S n <? 9)%nat && (3 <=? S n)%nat then _ else _).
  assert (Hqs' : map id questions'
                 = map of_nat (seq 1 (if (S n <=? 2)%nat then 3 else Nat.min (S n + 1) 9))).
  { subst questions'.
    destruct (Nat.ltb_spec (S n) 9) as [H9 | H9];
      destruct (Nat.leb_spec 3 (S n)) as [H3 | H3]; cbn [andb].
    - destruct (generateNextQuestion_id (questions s) (generated P r) (random P r)
                  (answers s ++ [a])%list ltac:(lia)) as (q' & -> & Hid').
      rewrite map_app, Hqs. cbn [map]. rewrite Hid', Hlenq.
      destruct (Nat.leb_spec (S n) 2); [ lia | ].
      replace (Nat.min (S n + 1) 9) with (S len)
        by (subst len; destruct (Nat.leb_spec n 2); lia).
      rewrite seq_S, map_app. cbn [map]. do 3 f_equal. lia.
    - rewrite Hqs. do 2 f_equal. subst len.
      destruct (Nat.leb_spec n 2); destruct (Nat.leb_spec (S n) 2); lia.
    - rewrite Hqs. do 2 f_equal. subst len.
      destruct (Nat.leb_spec n 2); destruct (Nat.leb_spec (S n) 2); lia.
    - lia. }
  destruct (Nat.ltb_spec i (len - 1)) as [Hadv | Hstay];
    destruct (Nat.ltb_spec (S n) 9) as [H9 | H9]; cbn [andb fst snd].
  - split; [ | constructor ].
    unfold enhancedInvariant. cbn [answers currentQuestionIndex questions].
    rewrite Hlen. split; [ | split; [ exact Hqs' | split; assumption ] ].
    subst i len. destruct (Nat.leb_spec n 2); destruct (Nat.leb_spec (S n) 2); lia.
  - split.
    + unfold enhancedInvariant. cbn [answers currentQuestionIndex questions].
      rewrite Hlen. split; [ | split; [ exact Hqs' | split; assumption ] ].
      subst i len. destruct (Nat.leb_spec n 2); destruct (Nat.leb_spec (S n) 2); lia.
    + destruct (Nat.leb_spec 9 (S n)); [ | lia ].
      constructor; [ | constructor ].
      cbn [answers]. unfold generateFinalProfile.
      destruct (analysed P r); cbn [deliveredAnswers full_answers basic_answers];
        rewrite Hlen; split; [ reflexivity | lia | reflexivity | lia ].
  - split.
    + unfold enhancedInvariant. cbn [answers currentQuestionIndex questions].
      rewrite Hlen. split; [ | split; [ exact Hqs' | split; assumption ] ].
      subst i len. destruct (Nat.leb_spec n 2); destruct (Nat.leb_spec (S n) 2); lia.
    + destruct (Nat.leb_spec 9 (S n)); [ lia | constructor ].
  - split.
    + unfold enhancedInvariant. cbn [answers currentQuestionIndex questions].
      rewrite Hlen. split; [ | split; [ exact Hqs' | split; assumption ] ].
      subst i len. destruct (Nat.leb_spec n 2); destruct (Nat.leb_spec (S n) 2); lia.
    + destruct (Nat.leb_spec 9 (S n)); [ | lia ].
      constructor; [ | constructor ].
      cbn [answers]. unfold generateFinalProfile.
      destruct (analysed P r); cbn [deliveredAnswers full_answers basic_answers];
        rewrite Hlen; split; [ reflexivity | lia | reflexivity | lia ].
Qed.

Lemma dispatch_enhanced (P : Type) (userName : string) (s : State) (e : Event P) :
  enhancedInvariant s ->
  enhancedInvariant (fst (dispatch P userName s e)) /\
  Forall (fun d => deliveredAnswers P d = answers (fst (dispatch P userName s e)) /\
                   (9 <= List.length (deliveredAnswers P d))%nat)
         (snd (dispatch P userName s e)).
Proof.
  intros Hinv. destruct e as [option | checked | | value | r]; cbn [dispatch];
    try (split; [ exact Hinv | constructor ]).
  apply handleSubmitAnswer_enhanced. exact Hinv.
Qed.

Lemma run_enhanced (P : Type) (userName : string) (mounted : number) (events : list (Event P)) :
  enhancedInvariant (fst (run P userName mounted events)) /\
  Forall (fun d => Forall recordedEnhanced (deliveredAnswers P d) /\
                   exists n, (9 <= n)%nat /\
                     map questionId (deliveredAnswers P d) = enhancedAsked n)
         (snd (run P userName mounted events)).
Proof.
  unfold run. induction events as [| e events IH] using rev_ind.
  - cbn [fold_left fst snd]. split; [ | constructor ].
    unfold enhancedInvariant, initial.
    cbn [answers currentQuestionIndex questions List.length map].
    split; [ reflexivity | split; [ reflexivity | split; [ reflexivity | constructor ] ] ].
  - rewrite fold_left_app. cbn [fold_left].
    set (st := fold_left _ events _) in *. destruct IH as [Hinv Hout].
    destruct (dispatch_enhanced P userName (fst st) e Hinv) as [Hinv' Hnew].
    destruct (dispatch P userName (fst st) e) as [s' delivered]. cbn [fst snd] in *.
    split; [ exact Hinv' | ].
    apply Forall_app. split; [ exact Hout | ].
    apply Forall_impl with (2 := Hnew). intros d (Hans & H9).
    destruct Hinv' as (_ & _ & Hids & Hrec).
    rewrite Hans. split; [ exact Hrec | ].
    exists (List.length (answers s')). split; [ rewrite <- Hans; exact H9 | exact Hids ].
Qed.

(** X11. In the enhanced questionnaire the callback that moves to the
    next question tests the question list of the render in which the
    answer was submitted, which does not hold the question generated
    during that submission. Whatever the user does and whatever the
    question generator returns: the third submission does not advance, so
    the third question is answered twice; the index never passes 7 and
    stays inside the list, which never holds more than nine questions (the
    component never sees itself as complete); and what [onComplete]
    receives starts with answers to the questions 1, 2, 3, 3, 4, 5, 6, 7,
    8: the ninth question is generated and never answered. *)
Theorem enhanced_flow_repeats_third_question (P : Type) (userName : string)
    (mounted : number) (events : list (Event P)) :
  let s := fst (run P userName mounted events) in
  ((currentQuestionIndex s <= 7)%nat /\
   (currentQuestionIndex s < List.length (questions s) <= 9)%nat /\
   isComplete s = false) /\
  Forall (fun d => firstn 9 (map questionId (deliveredAnswers P d))
                   = [1; 2; 3; 3; 4; 5; 6; 7; 8]%float)
         (snd (run P userName mounted events)).
Proof.
  intros s. subst s.
  destruct (run_enhanced P userName mounted events) as [(Hidx & Hqs & _ & _) Hout].
  set (s := fst (run P userName mounted events)) in *.
  set (n := List.length (answers s)) in *.
  assert (Hlenq : List.length (questions s) = if (n <=? 2)%nat then 3 else Nat.min (n + 1) 9).
  { rewrite <- (length_map id), Hqs, length_map, length_seq. reflexivity. }
  assert (Hi : (currentQuestionIndex s <= 7
                /\ currentQuestionIndex s < List.length (questions s) <= 9)%nat)
    by (rewrite Hidx, Hlenq; destruct (Nat.leb_spec n 2); lia).
  split; [ split; [ apply Hi | split; [ apply Hi | ] ] | ].
  - unfold isComplete. destruct (Nat.leb_spec (List.length (questions s)) (currentQuestionIndex s));
      [ lia | reflexivity ].
  - apply Forall_impl with (2 := Hout). intros d (_ & m & Hm & Hids).
    rewrite Hids, enhancedAsked_full by exact Hm.
    rewrite firstn_app. cbn [List.length].
    replace (9 - 9) with 0 by lia. cbn [firstn]. rewrite app_nil_r. reflexivity.
Qed.

(** X12. Whatever the user does, every answer the enhanced questionnaire
    records is trimmed and not blank, and the word count stored with it is
    the number of words the analyzer counted in it, at least one. *)
Theorem enhanced_answers_are_counted (P : Type) (userName : string) (mounted : number)
    (events : list (Event P)) :
  Forall recordedEnhanced (answers (fst (run P userName mounted events))).
Proof. destruct (run_enhanced P userName mounted events) as [(_ & _ & _ & H) _]. exact H. Qed.

End EnhancedFlowFacts.

(** ** reportService.ts: what decides the archetype *)

Module ReportFacts.
Import ReportService.

Lemma prefix_before_space (kw : string) : forall x b : string,
  ~ In " "%char (list_ascii_of_string kw) ->
  String.prefix kw (x ++ String " " b) = String.prefix kw x.
Proof.
  induction kw as [| k kw IH]; intros x b Hkw; [ destruct x; reflexivity | ].
  destruct x as [| c x]; cbn [append String.prefix].
  - destruct (ascii_dec k " ") as [-> | _]; [ | reflexivity ].
    exfalso. apply Hkw. left. reflexivity.
  - destruct (ascii_dec k c); [ | reflexivity ].
    apply IH. intros H. apply Hkw. right. exact H.
Qed.

(** A keyword without a space occurs in [a + ' ' + b] exactly when it
    occurs in [a] or in [b]. *)
Lemma includes_around_space (kw : string) (b : string) : forall a : string,
  ~ In " "%char (list_ascii_of_string kw) -> kw <> EmptyString ->
  includes (a ++ String " " b) kw = includes a kw || includes b kw.
Proof.
  intros a Hkw Hne. induction a as [| c a IH].
  - pose proof (prefix_before_space kw EmptyString b Hkw) as H0. cbn [append] in H0.
    cbn [append includes]. rewrite H0.
    destruct kw; [ contradiction | reflexivity ].
  - change (String c a ++ String " " b)%string with (String c (a ++ String " " b)).
    cbn [includes].
    change (String c (a ++ String " " b)) with (String c a ++ String " " b)%string.
    rewrite (prefix_before_space kw (String c a) b Hkw), IH.
    destruct (String.prefix kw (String c a)); reflexivity.
Qed.

Lemma includes_join (kw : string) (l : list string) :
  ~ In " "%char (list_ascii_of_string kw) -> kw <> EmptyString ->
  includes (join " " l) kw = existsb (fun v => includes v kw) l.
Proof.
  intros Hkw Hne. induction l as [| x l IH].
  - cbn. destruct kw; [ contradiction | reflexivity ].
  - destruct l as [| y l].
    + cbn [join existsb]. rewrite orb_false_r. reflexivity.
    + change (join " " (x :: y :: l)) with (x ++ String " " (join " " (y :: l)))%string.
      rewrite (includes_around_space kw _ x Hkw Hne), IH. reflexivity.
Qed.

Lemma toLowerCase_join (l : list string) :
  toLowerCase (join " " l) = join " " (map toLowerCase l).
Proof.
  induction l as [| x l IH]; [ reflexivity | ].
  destruct l as [| y l]; [ reflexivity | ].
  change (join " " (x :: y :: l)) with (x ++ String " " (join " " (y :: l)))%string.
  rewrite TextFacts.toLowerCase_append. cbn [toLowerCase]. rewrite IH. reflexivity.
Qed.

(** Whether a keyword occurs in the joined text only depends on which
    values the record holds. *)
Lemma mentions_by_value (kw : string) (d : object value) :
  ~ In " "%char (list_ascii_of_string kw) -> kw <> EmptyString ->
  includes (toLowerCase (join " " (map (fun entry => elementString (snd entry)) d))) kw
  = existsb (fun v => includes (toLowerCase (elementString v)) kw) (map snd d).
Proof.
  intros Hkw Hne. rewrite toLowerCase_join, (includes_join kw _ Hkw Hne).
  induction d as [| [k v] d IH]; [ reflexivity | ].
  cbn [map existsb snd]. rewrite IH. reflexivity.
Qed.

Lemma existsb_same_members {A} (f : A -> bool) (l l' : list A) :
  (forall x, In x l <-> In x l') -> existsb f l = existsb f l'.
Proof.
  intros H. apply eq_true_iff_eq. rewrite !existsb_exists.
  split; intros (x & Hx & Hf); exists x; (split; [ apply H; exact Hx | exact Hf ]).
Qed.

Ltac plain_keyword := cbn; intuition discriminate.

(** X13. The archetype of the final report only depends on which values
    the conversation record holds: the names of the keys, the order of the
    entries and their multiplicity play no role, because no keyword
    contains the space that joins the values. *)
Theorem archetype_depends_on_values_only (d d' : object value) :
  (forall v, In v (map snd d) <-> In v (map snd d')) ->
  determineArchetype d = determineArchetype d'.
Proof.
  intros H. unfold determineArchetype.
  rewrite !(mentions_by_value _ d), !(mentions_by_value _ d');
    try discriminate; try plain_keyword.
  rewrite !(existsb_same_members _ (map snd d) (map snd d') H). reflexivity.
Qed.

Lemma archetype_depends_on_values_only_witness :
  determineArchetype
    [("name", VString "Ada"); ("birthPlace", VString "Stuttgart")]
  = determineArchetype
    [("place", VString "Stuttgart"); ("who", VString "Ada"); ("again", VString "Stuttgart")].
Proof.
  apply archetype_depends_on_values_only.
  intros v. cbn. tauto.
Defined.

End ReportFacts.

(** ** Regular expressions: what a match has read *)

Module RegExpFacts.
Import RegExp Notions.

Lemma substring_prefix (w b : string) : substring 0 (String.length w) (w ++ b) = w.
Proof.
  induction w as [| c w IH]; cbn.
  - destruct b; reflexivity.
  - rewrite IH. reflexivity.
Qed.

(** The part of a string between a prefix and a suffix. *)
Lemma substring_middle (a w b : string) :
  substring (String.length a) (String.length w) (a ++ w ++ b) = w.
Proof.
  induction a as [| c a IH]; cbn [String.length append substring].
  - apply substring_prefix.
  - exact IH.
Qed.

Lemma append_assoc (a b c : string) : ((a ++ b) ++ c = a ++ (b ++ c))%string.
Proof. induction a as [| x a IH]; cbn; [ reflexivity | rewrite IH; reflexivity ]. Qed.

Lemma length_append (a b : string) :
  String.length (a ++ b) = String.length a + String.length b.
Proof. induction a as [| x a IH]; cbn; [ reflexivity | rewrite IH; reflexivity ]. Qed.

Lemma clear_rest (inner : list nat) (x : state) :
  rest (clear inner x) = rest x /\ pos (clear inner x) = pos x.
Proof. split; reflexivity. Qed.

(** A repetition of a class reads code units of the class, at least
    [min] of them, then calls its continuation. *)
Lemma many_reads (test : ascii -> bool) (input : string) :
  forall (min : nat) (c : continuation) (p : nat) (cs : list (nat * (nat * nat)))
         (z : state),
    many test min c input p cs = Some z ->
    exists w input',
      input = (w ++ input')%string /\
      Forall (fun ch => test ch = true) (list_ascii_of_string w) /\
      min <= String.length w /\
      c {| rest := input'; pos := p + String.length w; caps := cs |} = Some z.
Proof.
  induction input as [| ch input IH]; intros min c p cs z H; cbn [many] in H.
  - destruct (Nat.eqb_spec min 0) as [-> | _]; [ | discriminate ].
    exists EmptyString, EmptyString. cbn. rewrite Nat.add_0_r.
    repeat split; [ constructor | lia | exact H ].
  - assert (Hstop : (if (min =? 0)%nat
                     then c {| rest := String ch input; pos := p; caps := cs |}
                     else None) = Some z ->
                    exists w input',
                      String ch input = (w ++ input')%string /\
                      Forall (fun ch => test ch = true) (list_ascii_of_string w) /\
                      min <= String.length w /\
                      c {| rest := input'; pos := p + String.length w; caps := cs |} = Some z).
    { destruct (Nat.eqb_spec min 0) as [-> | _]; [ | discriminate ].
      intros Hc. exists EmptyString, (String ch input). cbn. rewrite Nat.add_0_r.
      repeat split; [ constructor | lia | exact Hc ]. }
    destruct (test ch) eqn:Et; [ | exact (Hstop H) ].
    destruct (many test (Nat.pred min) c input (S p) cs) as [z' |] eqn:Em;
      [ | exact (Hstop H) ].
    injection H as <-.
    destruct (IH _ _ _ _ _ Em) as (w & input' & -> & Hw & Hmin & Hc).
    exists (String ch w), input'. cbn [append list_ascii_of_string String.length].
    repeat split.
    + constructor; [ exact Et | exact Hw ].
    + lia.
    + rewrite <- Hc. do 2 f_equal. lia.
Qed.

Lemma atLeast_reads (m : continuation -> continuation) (inner : list nat) :
  readsThenCalls m -> forall min : nat, readsThenCalls (fun c => atLeast m inner min c).
Proof.
  intros Hm. induction min as [| min IH]; intros c x z H; cbn [atLeast] in H.
  - exists x, EmptyString. cbn. rewrite Nat.add_0_r. repeat split. exact H.
  - destruct (Hm _ _ _ H) as (y1 & w1 & Hr1 & Hp1 & H1).
    destruct (IH _ _ _ H1) as (y2 & w2 & Hr2 & Hp2 & H2).
    exists y2, (w1 ++ w2)%string. cbn [clear rest pos] in Hr1, Hp1.
    repeat split; [ | | exact H2 ].
    + rewrite Hr1, Hr2, append_assoc. reflexivity.
    + rewrite Hp2, Hp1, length_append. lia.
Qed.

Lemma atMost_reads (m : continuation -> continuation) (inner : list nat) :
  readsThenCalls m -> forall extra : nat, readsThenCalls (fun c => atMost m inner extra c).
Proof.
  intros Hm. induction extra as [| extra IH]; intros c x z H; cbn [atMost] in H.
  - exists x, EmptyString. cbn. rewrite Nat.add_0_r. repeat split. exact H.
  - destruct (m _ (clear inner x)) as [z' |] eqn:Em.
    + injection H as <-.
      destruct (Hm _ _ _ Em) as (y1 & w1 & Hr1 & Hp1 & H1).
      destruct (pos y1 =? pos x)%nat; [ discriminate | ].
      destruct (IH _ _ _ H1) as (y2 & w2 & Hr2 & Hp2 & H2).
      exists y2, (w1 ++ w2)%string. cbn [clear rest pos] in Hr1, Hp1.
      repeat split; [ | | exact H2 ].
      * rewrite Hr1, Hr2, append_assoc. reflexivity.
      * rewrite Hp2, Hp1, length_append. lia.
    + exists x, EmptyString. cbn. rewrite Nat.add_0_r. repeat split. exact H.
Qed.

Lemma matcher_reads (r : regex) : readsThenCalls (matcher r).
Proof.
  induction r as [| test | r1 IH1 r2 IH2 | r1 IH1 r2 IH2 | k r1 IH1 | min extra r1 IH1
                  | min test]; intros c x z H; cbn [matcher] in H.
  - exists x, EmptyString. cbn. rewrite Nat.add_0_r. repeat split. exact H.
  - destruct (rest x) as [| ch input'] eqn:Er; [ discriminate | ].
    destruct (test ch); [ | discriminate ].
    eexists; exists (String ch EmptyString). cbn [append].
    repeat split; [ | | exact H ]; cbn [rest pos String.length]; [ reflexivity | lia ].
  - destruct (IH1 _ _ _ H) as (y1 & w1 & Hr1 & Hp1 & H1).
    destruct (IH2 _ _ _ H1) as (y2 & w2 & Hr2 & Hp2 & H2).
    exists y2, (w1 ++ w2)%string.
    repeat split; [ | | exact H2 ].
    + rewrite Hr1, Hr2, append_assoc. reflexivity.
    + rewrite Hp2, Hp1, length_append. lia.
  - destruct (matcher r1 c x) as [z' |] eqn:E1.
    + injection H as <-. apply (IH1 _ _ _ E1).
    + apply (IH2 _ _ _ H).
  - destruct (IH1 _ _ _ H) as (y1 & w1 & Hr1 & Hp1 & H1).
    eexists; exists w1. repeat split; [ | | exact H1 ]; cbn [rest pos]; assumption.
  - destruct (atLeast_reads (matcher r1) (groupsOf r1) IH1 min _ _ _ H)
      as (y1 & w1 & Hr1 & Hp1 & H1).
    destruct (atMost_reads (matcher r1) (groupsOf r1) IH1 extra _ _ _ H1)
      as (y2 & w2 & Hr2 & Hp2 & H2).
    exists y2, (w1 ++ w2)%string.
    repeat split; [ | | exact H2 ].
    + rewrite Hr1, Hr2, append_assoc. reflexivity.
    + rewrite Hp2, Hp1, length_append. lia.
  - destruct (many_reads test _ _ _ _ _ _ H) as (w & input' & Hr & _ & _ & Hc).
    eexists; exists w. repeat split; [ | | exact Hc ]; cbn [rest pos]; [ exact Hr | reflexivity ].
Qed.

(** Where the leftmost match starts. *)
Lemma search_found (r : regex) (input : string) :
  forall (start st : nat) (z : state),
    search r input start = Some (st, z) ->
    exists pre input', input = (pre ++ input')%string /\ st = start + String.length pre /\
      matcher r Some {| rest := input'; pos := st; caps := [] |} = Some z.
Proof.
  induction input as [| ch input IH]; intros start st z H; cbn [search] in H.
  - destruct (matcher r Some _) as [z' |] eqn:Em; [ | discriminate ].
    injection H as <- <-. exists EmptyString, EmptyString. cbn. rewrite Nat.add_0_r.
    repeat split. exact Em.
  - destruct (matcher r Some _) as [z' |] eqn:Em.
    + injection H as <- <-. exists EmptyString, (String ch input). cbn.
      rewrite Nat.add_0_r. repeat split. exact Em.
    + destruct (IH _ _ _ H) as (pre & input' & -> & -> & Hm).
      exists (String ch pre), input'. cbn [append String.length].
      replace (start + S (String.length pre)) with (S start + String.length pre) by lia.
      repeat split. exact Hm.
Qed.

Lemma chars_in_append (a b : string) (ch : ascii) :
  In ch (list_ascii_of_string (a ++ b)) <->
  In ch (list_ascii_of_string a) \/ In ch (list_ascii_of_string b).
Proof.
  induction a as [| x a IH]; cbn; [ tauto | rewrite IH; tauto ].
Qed.

(** The patterns that end with white space and a captured run of a
    class: when they match, the first group is defined, is not empty,
    and is made of code units of the class that occur in the input. *)
Lemma trailing_group (head : regex) (test : ascii -> bool) (s : string) (m : Match) :
  exec (Seq head (Seq (Many 1 isWhiteSpace) (Group 1 (Many 1 test)))) s = Some m ->
  exists g, group m 1 = Some g /\ g <> EmptyString /\
            Forall (fun ch => test ch = true /\ In ch (list_ascii_of_string s))
                   (list_ascii_of_string g).
Proof.
  unfold exec. intros H.
  destruct (search _ s 0) as [[start z] |] eqn:Es; [ | discriminate ].
  injection H as <-. cbn [group].
  destruct (search_found _ _ _ _ _ Es) as (pre & input0 & -> & -> & Hm).
  cbn [matcher] in Hm.
  destruct (matcher_reads head _ _ _ Hm) as (y1 & w1 & Hr1 & Hp1 & H1).
  cbn [rest pos] in Hr1, Hp1.
  destruct (many_reads _ _ _ _ _ _ _ H1) as (w2 & input2 & Hr2 & _ & _ & H2).
  cbn [rest pos caps] in H2.
  destruct (many_reads _ _ _ _ _ _ _ H2) as (w3 & input3 & -> & Hw3 & Hmin & H3).
  cbn [rest pos caps] in H3. injection H3 as <-.
  cbn [caps setcap find fst Nat.eqb].
  eexists. split; [ reflexivity | ].
  rewrite Hp1. cbn [Nat.add].
  replace (String.length pre + String.length w1 + String.length w2 + String.length w3
           - (String.length pre + String.length w1 + String.length w2))
    with (String.length w3) by lia.
  rewrite Hr1, Hr2.
  replace (pre ++ w1 ++ w2 ++ w3 ++ input3)%string
    with (((pre ++ w1) ++ w2) ++ w3 ++ input3)%string
    by (rewrite !append_assoc; reflexivity).
  replace (String.length pre + String.length w1 + String.length w2)
    with (String.length ((pre ++ w1) ++ w2)) by (rewrite !length_append; reflexivity).
  rewrite substring_middle.
  split; [ destruct w3; [ cbn in Hmin; lia | discriminate ] | ].
  rewrite Forall_forall in Hw3 |- *. intros ch Hch. split; [ apply Hw3; exact Hch | ].
  rewrite !chars_in_append. tauto.
Qed.

End RegExpFacts.

(** ** conversationalAI.ts: extraction, phases and the course of a
    conversation *)

Module ConversationFacts.
Import RegExp RegExpFacts Notions.
Import ConversationalAIService.

(** *** Records *)

Lemma get_set_same {V} (o : object V) (k : string) (v : V) : get (set o k v) k = Some v.
Proof.
  induction o as [| [k' w] o IH]; cbn [set get].
  - rewrite String.eqb_refl. reflexivity.
  - destruct (String.eqb_spec k' k) as [-> | Hne]; cbn [get].
    + rewrite String.eqb_refl. reflexivity.
    + destruct (String.eqb_spec k' k); [ contradiction | exact IH ].
Qed.

Lemma get_set_other {V} (o : object V) (k k' : string) (v : V) :
  k <> k' -> get (set o k v) k' = get o k'.
Proof.
  intros Hne. induction o as [| [k0 w] o IH]; cbn [set get].
  - destruct (String.eqb_spec k k'); [ contradiction | reflexivity ].
  - destruct (String.eqb_spec k0 k) as [-> | Hk]; cbn [get].
    + destruct (String.eqb_spec k k'); [ contradiction | reflexivity ].
    + destruct (String.eqb_spec k0 k'); [ reflexivity | exact IH ].
Qed.

Lemma extends_refl (o : object value) : extends o o.
Proof. split; intros; [ assumption | reflexivity ]. Qed.

Lemma extends_trans (a b c : object value) : extends a b -> extends b c -> extends a c.
Proof.
  intros [H1 H2] [H3 H4]. split.
  - intros k v Hk Hv. apply H3; [ apply H1; assumption | exact Hv ].
  - intros k Hk. rewrite H4, H2 by exact Hk. reflexivity.
Qed.

(** Writing a key whose value is falsy or missing extends the record. *)
Lemma set_extends (o : object value) (k : string) (v : value) :
  holds o k = false -> In k ["name"; "birthDate"; "birthTime"; "birthPlace"] ->
  extends o (set o k v).
Proof.
  intros Hk Hin. split.
  - intros k' v' Hget Hv. destruct (string_dec k k') as [<- | Hne].
    + unfold holds in Hk. rewrite Hget in Hk. congruence.
    + rewrite get_set_other by exact Hne. exact Hget.
  - intros k' Hk'. apply get_set_other. intros <-. contradiction.
Qed.

(** *** One step of the extraction *)

Lemma extractDate_extends (content : string) (o : object value) (pattern : regex) :
  extends o (extractDate content o pattern) /\
  get (extractDate content o pattern) "name" = get o "name".
Proof.
  unfold extractDate. destruct (exec pattern content); [ | split; [ apply extends_refl | reflexivity ] ].
  destruct (holds o "birthDate") eqn:E; cbn [negb];
    [ split; [ apply extends_refl | reflexivity ] | ].
  split; [ apply set_extends; [ exact E | cbn; tauto ] | ].
  apply get_set_other. discriminate.
Qed.

Lemma extractDates_extends (content : string) (patterns : list regex) :
  forall o : object value,
    extends o (fold_left (extractDate content) patterns o) /\
    get (fold_left (extractDate content) patterns o) "name" = get o "name".
Proof.
  induction patterns as [| p patterns IH]; intros o; cbn [fold_left].
  - split; [ apply extends_refl | reflexivity ].
  - destruct (extractDate_extends content o p) as [H1 N1].
    destruct (IH (extractDate content o p)) as [H2 N2].
    split; [ apply (extends_trans _ _ _ H1 H2) | rewrite N2; exact N1 ].
Qed.

Lemma extractTime_extends (content : string) (o : object value) :
  extends o (extractTime content o) /\ get (extractTime content o) "name" = get o "name".
Proof.
  unfold extractTime. destruct (exec timePattern content);
    [ | split; [ apply extends_refl | reflexivity ] ].
  destruct (holds o "birthTime") eqn:E; cbn [negb];
    [ split; [ apply extends_refl | reflexivity ] | ].
  split; [ apply set_extends; [ exact E | cbn; tauto ] | ].
  apply get_set_other. discriminate.
Qed.

(** The place is read without an exception: the group the pattern
    captures is defined whenever the pattern matches. *)
Lemma extractPlace_returns (content : string) (o : object value) :
  exists o', extractPlace content o = Return o' /\ extends o o' /\
             get o' "name" = get o "name".
Proof.
  unfold extractPlace.
  destruct (includes content "born in" || includes content "from");
    [ | exists o; split; [ reflexivity | split; [ apply extends_refl | reflexivity ] ] ].
  destruct (exec placePattern content) as [m |] eqn:Em;
    [ | exists o; split; [ reflexivity | split; [ apply extends_refl | reflexivity ] ] ].
  destruct (holds o "birthPlace") eqn:E; cbn [negb];
    [ exists o; split; [ reflexivity | split; [ apply extends_refl | reflexivity ] ] | ].
  destruct (trailing_group _ _ _ _ Em) as (g & -> & _).
  eexists. split; [ reflexivity | split ].
  - apply set_extends; [ exact E | cbn; tauto ].
  - apply get_set_other. discriminate.
Qed.

Lemma extractBirth_returns (o : object value) (msg : ConversationMessage) :
  exists o', extractBirth o msg = Return o' /\ extends o o' /\ get o' "name" = get o "name".
Proof.
  unfold extractBirth.
  destruct (extractDates_extends (toLowerCase (content msg)) datePatterns o) as [H1 N1].
  destruct (extractTime_extends (toLowerCase (content msg))
              (fold_left (extractDate (toLowerCase (content msg))) datePatterns o)) as [H2 N2].
  destruct (extractPlace_returns (toLowerCase (content msg))
              (extractTime (toLowerCase (content msg))
                 (fold_left (extractDate (toLowerCase (content msg))) datePatterns o)))
    as (o' & -> & H3 & N3).
  exists o'. split; [ reflexivity | split ].
  - apply (extends_trans _ _ _ (extends_trans _ _ _ H1 H2) H3).
  - rewrite N3, N2, N1. reflexivity.
Qed.

Lemma forEach_returns (userMessages : list ConversationMessage) :
  forall o : object value,
    exists o', forEach userMessages o = Return o' /\ extends o o' /\
               get o' "name" = get o "name".
Proof.
  induction userMessages as [| msg more IH]; intros o; cbn [forEach].
  - exists o. split; [ reflexivity | split; [ apply extends_refl | reflexivity ] ].
  - destruct (extractBirth_returns o msg) as (o1 & -> & H1 & N1).
    destruct (IH o1) as (o2 & -> & H2 & N2).
    exists o2. split; [ reflexivity | split ].
    + apply (extends_trans _ _ _ H1 H2).
    + rewrite N2. exact N1.
Qed.

Lemma extractName_extends (userMessages : list ConversationMessage) (o : object value) :
  extends o (extractName userMessages o).
Proof.
  unfold extractName. destruct (holds o "name") eqn:E; cbn [negb andb];
    [ apply extends_refl | ].
  destruct userMessages as [| first more]; [ apply extends_refl | ].
  cbn [List.length Nat.leb].
  destruct (exec namePattern (toLowerCase (content first))).
  - apply set_extends; [ exact E | cbn; tauto ].
  - destruct (List.length (split_space (toLowerCase (content first))) <=? 3)%nat;
      [ apply set_extends; [ exact E | cbn; tauto ] | apply extends_refl ].
Qed.

(** The call returns, and what it returns. *)
Lemma update_returns (messages : list ConversationMessage) (currentData : object value) :
  exists extracted,
    updatePhaseAndExtractData messages currentData
      = Return (phaseOf (userMessageCount messages) extracted, extracted) /\
    extends currentData extracted /\
    get extracted "name"
      = get (extractName (filter isUser messages) currentData) "name".
Proof.
  unfold updatePhaseAndExtractData, userMessageCount.
  destruct (forEach_returns (filter isUser messages)
              (extractName (filter isUser messages) currentData)) as (o' & -> & H & N).
  exists o'. split; [ reflexivity | split; [ | exact N ] ].
  apply (extends_trans _ _ _ (extractName_extends _ _) H).
Qed.

(** X14. Extraction never throws and never revises: whatever the
    messages and the record so far, [updatePhaseAndExtractData] returns;
    every value of the record that was truthy is still there, whatever the
    later messages say; no key other than name, birthDate, birthTime and
    birthPlace is written; and the phase is 'completion' exactly from the
    eighth user message on. *)
Theorem extraction_never_revises (messages : list ConversationMessage)
    (currentData : object value) :
  exists phase extracted,
    updatePhaseAndExtractData messages currentData = Return (phase, extracted) /\
    extends currentData extracted /\
    (phase = completion <-> 8 <= userMessageCount messages).
Proof.
  destruct (update_returns messages currentData) as (extracted & H & Hext & _).
  exists (phaseOf (userMessageCount messages) extracted), extracted.
  split; [ exact H | split; [ exact Hext | ] ].
  unfold phaseOf. destruct (Nat.leb_spec 8 (userMessageCount messages)) as [Hge | Hlt].
  - tauto.
  - split; [ | lia ].
    destruct (holds extracted "name" && holds extracted "birthDate");
      [ discriminate | destruct (holds extracted "name"); discriminate ].
Qed.

(** *** The name *)

Lemma lowered_letter (c : ascii) : letter (toLowerChar c) = true -> lowerLetter (toLowerChar c) = true.
Proof. destruct c as [[] [] [] [] [] [] [] []]; vm_compute; intros H; congruence. Qed.

Lemma chars_lowered (t : string) (ch : ascii) :
  In ch (list_ascii_of_string (toLowerCase t)) -> exists c, ch = toLowerChar c.
Proof.
  induction t as [| c t IH]; cbn; [ contradiction | ].
  intros [<- | H]; [ exists c; reflexivity | apply IH; exact H ].
Qed.

(** X15. A name found by the pattern (i'm, i am, my name is, call me) is
    read off the lower-cased message: it is a non-empty run of the letters
    a to z, whatever capitals the user typed. *)
Theorem name_by_pattern_is_lower_case (messages : list ConversationMessage)
    (currentData : object value) (first : ConversationMessage) (m : Match) :
  firstUserMessage messages = Some first ->
  holds currentData "name" = false ->
  exec namePattern (toLowerCase (content first)) = Some m ->
  exists phase extracted g,
    updatePhaseAndExtractData messages currentData = Return (phase, extracted) /\
    get extracted "name" = Some (VString g) /\
    g <> EmptyString /\
    Forall (fun ch => lowerLetter ch = true) (list_ascii_of_string g).
Proof.
  intros Hfirst Hname Hm.
  destruct (update_returns messages currentData) as (extracted & H & _ & N).
  unfold firstUserMessage in Hfirst.
  destruct (filter isUser messages) as [| first' more] eqn:Eu; [ discriminate | ].
  injection Hfirst as ->.
  unfold extractName in N. rewrite Hname in N. cbn [negb andb List.length Nat.leb] in N.
  rewrite Hm in N.
  destruct (trailing_group _ _ _ _ Hm) as (g & Hg & Hne & Hall).
  rewrite Hg, get_set_same in N.
  exists (phaseOf (userMessageCount messages) extracted), extracted, g.
  split; [ exact H | split; [ exact N | split; [ exact Hne | ] ] ].
  apply Forall_impl with (2 := Hall). intros ch [Hl Hin].
  destruct (chars_lowered _ _ Hin) as (c & ->). apply lowered_letter. exact Hl.
Qed.

(** X16. The name is only ever read off the first user message. If that
    message has more than three words and matches none of the forms, no
    later message can supply the name: as long as the record has no name,
    the phase is 'introduction' until the eighth user message completes
    the conversation, and the record returned has no name either. *)
Theorem no_name_in_first_reply_blocks_phases (messages : list ConversationMessage)
    (currentData : object value) (first : ConversationMessage) :
  firstUserMessage messages = Some first ->
  holds currentData "name" = false ->
  exec namePattern (toLowerCase (content first)) = None ->
  3 < List.length (split_space (toLowerCase (content first))) ->
  exists extracted,
    updatePhaseAndExtractData messages currentData
      = Return (if (8 <=? userMessageCount messages)%nat then completion else introduction,
                extracted) /\
    holds extracted "name" = false.
Proof.
  intros Hfirst Hname Hm Hlong.
  destruct (update_returns messages currentData) as (extracted & H & _ & N).
  unfold firstUserMessage in Hfirst.
  destruct (filter isUser messages) as [| first' more] eqn:Eu; [ discriminate | ].
  injection Hfirst as ->.
  unfold extractName in N. rewrite Hname in N. cbn [negb andb List.length Nat.leb] in N.
  rewrite Hm in N.
  destruct (Nat.leb_spec (List.length (split_space (toLowerCase (content first)))) 3);
    [ lia | ].
  assert (Hno : holds extracted "name" = false).
  { unfold holds in *. rewrite N. exact Hname. }
  exists extracted. split; [ | exact Hno ].
  rewrite H. unfold phaseOf. rewrite Hno. cbn [andb]. reflexivity.
Qed.

Lemma name_by_pattern_is_lower_case_witness :
  exists phase extracted g,
    updatePhaseAndExtractData
      [ConversationSamples.said "My name is ADA, I think"; ConversationSamples.said "Bob"] []
      = Return (phase, extracted) /\
    get extracted "name" = Some (VString g) /\
    g <> EmptyString /\
    Forall (fun ch => lowerLetter ch = true) (list_ascii_of_string g).
Proof.
  eapply (name_by_pattern_is_lower_case _ _ (ConversationSamples.said "My name is ADA, I think")).
  - reflexivity.
  - reflexivity.
  - vm_compute. reflexivity.
Defined.

Lemma no_name_in_first_reply_blocks_phases_witness :
  exists extracted,
    updatePhaseAndExtractData
      [ConversationSamples.said "Hello there, nice to meet you";
       ConversationSamples.said "I'm Ada"] []
      = Return (if (8 <=? userMessageCount
                      [ConversationSamples.said "Hello there, nice to meet you";
                       ConversationSamples.said "I'm Ada"])%nat
                then completion else introduction, extracted) /\
    holds extracted "name" = false.
Proof.
  apply (no_name_in_first_reply_blocks_phases _ _
           (ConversationSamples.said "Hello there, nice to meet you")).
  - reflexivity.
  - reflexivity.
  - vm_compute. reflexivity.
  - vm_compute. lia.
Defined.

(** *** The course of a conversation *)

Lemma userMessageCount_snoc (messages : list ConversationMessage) (msg : ConversationMessage) :
  userMessageCount (messages ++ [msg])
    = userMessageCount messages + (if isUser msg then 1 else 0).
Proof.
  unfold userMessageCount. rewrite filter_app, length_app. cbn [filter].
  destruct (isUser msg); reflexivity.
Qed.

(** One exchange whose insertions and model call succeed. *)
Lemma continueConversation_returns (r : Replies) (state : ConversationState)
    (userMessage : string) (responseTimeSeconds : option number) :
  succeeds r ->
  exists state' aiResponse,
    continueConversation r state userMessage responseTimeSeconds
      = Return (state', aiResponse) /\
    firstn (List.length (messages state)) (messages state') = messages state /\
    List.length (messages state') = List.length (messages state) + 2 /\
    userMessageCount (messages state') = S (userMessageCount (messages state)) /\
    isComplete state' = (8 <=? userMessageCount (messages state'))%nat /\
    (currentPhase state' = completion <-> 8 <= userMessageCount (messages state')) /\
    nextAction aiResponse
      = (if (8 <=? userMessageCount (messages state'))%nat then complete else continue) /\
    data aiResponse = Some (extractedData state') /\
    extends (extractedData state) (extractedData state') /\
    sessionId state' = sessionId state /\ userId state' = userId state.
Proof.
  intros (Hu & Ha & text & Ht).
  unfold continueConversation. rewrite Hu, Ha, Ht. cbn [saveMessage].
  set (userMsg := {| id := userMessageId r; content := userMessage |}).
  destruct (update_returns (messages state ++ [userMsg]) (extractedData state))
    as (extracted & -> & Hext & _).
  assert (Hcount : userMessageCount (messages state ++ [userMsg])
                   = S (userMessageCount (messages state))).
  { rewrite userMessageCount_snoc. cbn [isUser role userMsg]. lia. }
  set (phase := phaseOf (userMessageCount (messages state ++ [userMsg])) extracted).
  set (assistantMsg := {| id := assistantMessageId r; content := text |}).
  assert (Hcount' : userMessageCount ((messages state ++ [userMsg]) ++ [assistantMsg])
                    = S (userMessageCount (messages state))).
  { rewrite userMessageCount_snoc, Hcount. cbn [isUser role assistantMsg]. lia. }
  assert (Hphase : phase = completion <-> 8 <= S (userMessageCount (messages state))).
  { unfold phase, phaseOf. rewrite Hcount.
    destruct (Nat.leb_spec 8 (S (userMessageCount (messages state)))) as [Hge | Hlt].
    - tauto.
    - split; [ | lia ].
      destruct (holds extracted "name" && holds extracted "birthDate");
        [ discriminate | destruct (holds extracted "name"); discriminate ]. }
  do 2 eexists. split; [ reflexivity | ].
  cbn [messages isComplete currentPhase nextAction data extractedData sessionId userId].
  rewrite Hcount'.
  split; [ rewrite <- app_assoc, firstn_app, Nat.sub_diag, firstn_all; cbn [firstn]; apply app_nil_r | ].
  split; [ rewrite !length_app; cbn [List.length]; lia | ].
  split; [ reflexivity | ].
  destruct (Nat.leb_spec 8 (S (userMessageCount (messages state)))) as [Hge | Hlt].
  - assert (E : phase = completion) by (apply Hphase; exact Hge). rewrite E.
    repeat (split; [ first [ reflexivity | tauto | exact Hext ] | ]). reflexivity.
  - assert (E : phase <> completion) by (intros E; apply Hphase in E; lia).
    split; [ destruct phase; congruence | ].
    split; [ split; [ intros E'; contradiction | lia ] | ].
    split; [ destruct phase; congruence | ].
    repeat (split; [ first [ reflexivity | exact Hext ] | ]). reflexivity.
Qed.

(** Any number of such exchanges, from any state. *)
Lemma converse_returns (exchanges : list (string * option number * Replies)) :
  forall state : ConversationState,
    Forall (fun exchange => succeeds (snd exchange)) exchanges ->
    exists final responses,
      converse state exchanges = Return (final, responses) /\
      firstn (List.length (messages state)) (messages final) = messages state /\
      List.length (messages final) = List.length (messages state) + 2 * List.length exchanges /\
      userMessageCount (messages final)
        = userMessageCount (messages state) + List.length exchanges /\
      isComplete final
        = match exchanges with
          | [] => isComplete state
          | _ :: _ => (8 <=? userMessageCount (messages final))%nat
          end /\
      map nextAction responses
        = map (fun n => if (8 <=? n)%nat then complete else continue)
              (seq (S (userMessageCount (messages state))) (List.length exchanges)) /\
      Forall (fun aiResponse =>
                exists extracted, data aiResponse = Some extracted /\
                                  extends (extractedData state) extracted /\
                                  extends extracted (extractedData final)) responses /\
      extends (extractedData state) (extractedData final) /\
      sessionId final = sessionId state /\ userId final = userId state.
Proof.
  induction exchanges as [| [[userMessage responseTimeSeconds] r] more IH];
    intros state Hall; cbn [converse].
  - exists state, []. split; [ reflexivity | ].
    rewrite firstn_all. cbn [List.length seq map].
    repeat (split; [ first [ reflexivity | lia | apply extends_refl | constructor ] | ]).
    reflexivity.
  - inversion Hall as [| ? ? Hr Hmore]; subst. cbn [snd] in Hr.
    destruct (continueConversation_returns r state userMessage responseTimeSeconds Hr)
      as (state' & aiResponse & -> & Hpre & Hlen & Hcount & Hdone & _ & Hnext & Hdata
          & Hext & Hsid & Huid).
    destruct (IH state' Hmore)
      as (final & responses & -> & Hpre' & Hlen' & Hcount' & Hdone' & Hnext' & Hall'
          & Hext' & Hsid' & Huid').
    exists final, (aiResponse :: responses). split; [ reflexivity | ].
    split.
    { rewrite <- Hpre at 2. rewrite <- Hpre'.
      rewrite firstn_firstn. f_equal. lia. }
    split; [ cbn [List.length]; lia | ].
    split; [ cbn [List.length]; lia | ].
    split.
    { rewrite Hdone'. destruct more as [| exchange more]; [ | reflexivity ].
      rewrite Hdone, Hcount'. cbn [List.length]. rewrite Nat.add_0_r. reflexivity. }
    split.
    { cbn [List.length seq map]. rewrite Hnext, Hcount, Hnext', Hcount. reflexivity. }
    split.
    { constructor.
      - exists (extractedData state'). repeat split; assumption || apply Hext || apply Hext'.
      - apply Forall_impl with (2 := Hall'). intros a (extracted & Hd & H1 & H2).
        exists extracted. split; [ exact Hd | split; [ | exact H2 ] ].
        apply (extends_trans _ _ _ Hext H1). }
    split; [ apply (extends_trans _ _ _ Hext Hext') | ].
    split; congruence.
Qed.

(** X17. A conversation opened by [startConversation] whose insertions
    and model calls all succeed never stops by itself: every exchange
    returns, adds the user's message and the reply to the history (one
    opening message and two per exchange), and the conversation counts as
    complete exactly from the eighth exchange on, whatever was extracted
    by then: the responses say 'continue' seven times and 'complete' from
    then on, also for the exchanges that follow the eighth. *)
Theorem conversation_completes_at_eighth_exchange (o : Opening) (user : string)
    (start : ConversationState) (exchanges : list (string * option number * Replies)) :
  startConversation o user = Return start ->
  Forall (fun exchange => succeeds (snd exchange)) exchanges ->
  exists final responses,
    converse start exchanges = Return (final, responses) /\
    List.length (messages final) = 1 + 2 * List.length exchanges /\
    userMessageCount (messages final) = List.length exchanges /\
    isComplete final = (8 <=? List.length exchanges)%nat /\
    map nextAction responses
      = map (fun n => if (8 <=? n)%nat then complete else continue)
            (seq 1 (List.length exchanges)).
Proof.
  intros Hstart Hall.
  assert (Hs : messages start <> [] /\ List.length (messages start) = 1 /\
               userMessageCount (messages start) = 0 /\ isComplete start = false).
  { unfold startConversation in Hstart.
    destruct (initialMessage o); [ | discriminate ].
    destruct (saveMessage (openingSaved o)); [ | discriminate ].
    injection Hstart as <-. cbn. repeat split. discriminate. }
  destruct Hs as (_ & Hlen & Hcount & Hdone).
  destruct (converse_returns exchanges start Hall)
    as (final & responses & H & _ & Hlen' & Hcount' & Hdone' & Hnext & _).
  exists final, responses. rewrite Hcount in *. rewrite Hlen in *.
  repeat split; try assumption.
  rewrite Hdone'. destruct exchanges as [| exchange exchanges]; [ exact Hdone | ].
  rewrite Hcount'. reflexivity.
Qed.

Lemma conversation_completes_at_eighth_exchange_witness :
  exists final responses,
    converse ConversationSamples.sampleStart ConversationSamples.sampleExchanges
      = Return (final, responses) /\
    List.length (messages final) = 1 + 2 * List.length ConversationSamples.sampleExchanges /\
    userMessageCount (messages final) = List.length ConversationSamples.sampleExchanges /\
    isComplete final = (8 <=? List.length ConversationSamples.sampleExchanges)%nat /\
    map nextAction responses
      = map (fun n => if (8 <=? n)%nat then complete else continue)
            (seq 1 (List.length ConversationSamples.sampleExchanges)).
Proof.
  apply (conversation_completes_at_eighth_exchange ConversationSamples.sampleOpening "u").
  - reflexivity.
  - repeat constructor; cbn; eexists; reflexivity.
Defined.



(** *** What the record holds *)

Lemma set_birthRecord (o : object value) (k text : string) :
  birthRecord o -> In k ["name"; "birthDate"; "birthTime"; "birthPlace"] ->
  birthRecord (set o k (VString text)).
Proof.
  intros Ho Hk. induction o as [| [k' w] o IH]; cbn [set].
  - constructor; [ | constructor ]. split; [ exact Hk | eexists; reflexivity ].
  - inversion Ho as [| ? ? Hhd Htl]; subst.
    destruct (String.eqb k' k); constructor; try assumption.
    + split; [ apply Hhd | eexists; reflexivity ].
    + apply IH. exact Htl.
Qed.

Lemma extractName_record (userMessages : list ConversationMessage) (o : object value) :
  birthRecord o -> birthRecord (extractName userMessages o).
Proof.
  intros Ho. unfold extractName.
  destruct (negb (holds o "name") && (1 <=? List.length userMessages)%nat); [ | exact Ho ].
  destruct userMessages as [| first more]; [ exact Ho | ].
  destruct (exec namePattern (toLowerCase (content first))) as [m |] eqn:Em.
  - destruct (trailing_group _ _ _ _ Em) as (g & -> & _).
    apply set_birthRecord; [ exact Ho | cbn; tauto ].
  - destruct (List.length (split_space (toLowerCase (content first))) <=? 3)%nat;
      [ apply set_birthRecord; [ exact Ho | cbn; tauto ] | exact Ho ].
Qed.

Lemma extractDate_record (content : string) (o : object value) (pattern : regex) :
  birthRecord o -> birthRecord (extractDate content o pattern).
Proof.
  intros Ho. unfold extractDate. destruct (exec pattern content); [ | exact Ho ].
  destruct (negb (holds o "birthDate"));
    [ apply set_birthRecord; [ exact Ho | cbn; tauto ] | exact Ho ].
Qed.

Lemma extractDates_record (content : string) (patterns : list regex) :
  forall o : object value,
    birthRecord o -> birthRecord (fold_left (extractDate content) patterns o).
Proof.
  induction patterns as [| p patterns IH]; intros o Ho; cbn [fold_left].
  - exact Ho.
  - apply IH. apply extractDate_record. exact Ho.
Qed.

Lemma extractTime_record (content : string) (o : object value) :
  birthRecord o -> birthRecord (extractTime content o).
Proof.
  intros Ho. unfold extractTime. destruct (exec timePattern content); [ | exact Ho ].
  destruct (negb (holds o "birthTime"));
    [ apply set_birthRecord; [ exact Ho | cbn; tauto ] | exact Ho ].
Qed.

Lemma extractPlace_record (content : string) (o o' : object value) :
  birthRecord o -> extractPlace content o = Return o' -> birthRecord o'.
Proof.
  intros Ho. unfold extractPlace.
  destruct (includes content "born in" || includes content "from");
    [ | intros [= <-]; exact Ho ].
  destruct (exec placePattern content) as [m |]; [ | intros [= <-]; exact Ho ].
  destruct (negb (holds o "birthPlace")); [ | intros [= <-]; exact Ho ].
  destruct (group m 1); [ | discriminate ].
  intros [= <-]. apply set_birthRecord; [ exact Ho | cbn; tauto ].
Qed.

Lemma forEach_record (userMessages : list ConversationMessage) :
  forall o o' : object value,
    birthRecord o -> forEach userMessages o = Return o' -> birthRecord o'.
Proof.
  induction userMessages as [| msg more IH]; intros o o' Ho; cbn [forEach].
  - intros [= <-]. exact Ho.
  - destruct (extractBirth o msg) as [o1 | e] eqn:E; [ | discriminate ].
    apply IH. unfold extractBirth in E. apply extractPlace_record in E; [ exact E | ].
    apply extractTime_record. apply extractDates_record. exact Ho.
Qed.

Lemma update_record (messages : list ConversationMessage) (currentData extracted : object value)
    (phase : Phase) :
  birthRecord currentData ->
  updatePhaseAndExtractData messages currentData = Return (phase, extracted) ->
  birthRecord extracted.
Proof.
  intros Ho. unfold updatePhaseAndExtractData.
  destruct (forEach _ _) as [o' | e] eqn:E; [ | discriminate ].
  intros [= _ <-]. apply forEach_record in E; [ exact E | ].
  apply extractName_record. exact Ho.
Qed.

Lemma continueConversation_record (r : Replies) (state state' : ConversationState)
    (userMessage : string) (responseTimeSeconds : option number) (aiResponse : AIResponse) :
  birthRecord (extractedData state) ->
  continueConversation r state userMessage responseTimeSeconds = Return (state', aiResponse) ->
  birthRecord (extractedData state') /\ data aiResponse = Some (extractedData state').
Proof.
  intros Ho. unfold continueConversation.
  destruct (saveMessage (userSaved r)); [ | discriminate ].
  destruct (updatePhaseAndExtractData _ _) as [[phase extracted] | e] eqn:E; [ | discriminate ].
  destruct (aiResponseText r); [ | discriminate ].
  destruct (saveMessage (assistantSaved r)); [ | discriminate ].
  intros [= <- <-]. cbn [extractedData data].
  split; [ apply (update_record _ _ _ _ Ho E) | reflexivity ].
Qed.

Lemma converse_record (exchanges : list (string * option number * Replies)) :
  forall (state final : ConversationState) (responses : list AIResponse),
    birthRecord (extractedData state) ->
    converse state exchanges = Return (final, responses) ->
    birthRecord (extractedData final) /\
    Forall (fun aiResponse => exists extracted, data aiResponse = Some extracted /\
                                                birthRecord extracted) responses.
Proof.
  induction exchanges as [| [[userMessage responseTimeSeconds] r] more IH];
    intros state final responses Ho; cbn [converse].
  - intros [= <- <-]. split; [ exact Ho | constructor ].
  - destruct (continueConversation r state userMessage responseTimeSeconds)
      as [[state' aiResponse] | e] eqn:E; [ | discriminate ].
    destruct (converse state' more) as [[final' responses'] | e] eqn:E'; [ | discriminate ].
    intros [= <- <-].
    destruct (continueConversation_record _ _ _ _ _ _ Ho E) as [Ho' Hd].
    destruct (IH _ _ _ Ho' E') as [Hf Hr].
    split; [ exact Hf | constructor; [ | exact Hr ] ].
    exists (extractedData state'). split; assumption.
Qed.

(** X19. The record a conversation hands on (to each response, and at
    the end to the report) never holds anything but the keys name,
    birthDate, birthTime and birthPlace, each with a string: whatever the
    user says in answer to the deep questions, no other entry is made. *)
Theorem conversation_record_has_four_keys (o : Opening) (user : string)
    (start final : ConversationState) (exchanges : list (string * option number * Replies))
    (responses : list AIResponse) :
  startConversation o user = Return start ->
  converse start exchanges = Return (final, responses) ->
  birthRecord (extractedData final) /\
  Forall (fun aiResponse => exists extracted, data aiResponse = Some extracted /\
                                              birthRecord extracted) responses.
Proof.
  intros Hstart. apply converse_record.
  unfold startConversation in Hstart.
  destruct (initialMessage o); [ | discriminate ].
  destruct (saveMessage (openingSaved o)); [ | discriminate ].
  injection Hstart as <-. constructor.
Qed.

Lemma conversation_record_has_four_keys_witness :
  birthRecord (extractedData ConversationSamples.sampleFinal) /\
  Forall (fun aiResponse => exists extracted, data aiResponse = Some extracted /\
                                              birthRecord extracted)
         (match converse ConversationSamples.sampleStart ConversationSamples.sampleExchanges with
          | Return (_, responses) => responses
          | Throw _ => []
          end).
Proof.
  apply (conversation_record_has_four_keys ConversationSamples.sampleOpening "u"
           ConversationSamples.sampleStart ConversationSamples.sampleFinal
           ConversationSamples.sampleExchanges).
  - reflexivity.
  - vm_compute. reflexivity.
Defined.

End ConversationFacts.

(** ** stateManager.ts: the loading flag around a wrapped call *)

Module StoreFacts.
Import StateManager.

Section Store.
Variables User FinalReport T : Type.

(** X20. [handleAsyncError] raises the loading flag and clears it again
    before the wrapped function is called ([setError] stops loading): what
    the function would do in a store that is loading, or that holds an
    error, never matters. When the promise has settled the store is not
    loading either, and the null of the catch branch is returned exactly
    when the promise was rejected. *)
Theorem wrapped_call_never_sees_loading
    (asyncFn other : AppState User FinalReport -> AppState User FinalReport * Settled T)
    (errorMessage : string) (s : AppState User FinalReport) :
  (forall s0, isLoading s0 = false -> error s0 = None -> asyncFn s0 = other s0) ->
  handleAsyncError asyncFn errorMessage s = handleAsyncError other errorMessage s /\
  isLoading (fst (handleAsyncError asyncFn errorMessage s)) = false /\
  (snd (handleAsyncError asyncFn errorMessage s) = None
   <-> exists reason, snd (asyncFn (setError None (setLoading true None s)))
                      = Rejected reason).
Proof.
  intros Hsame. unfold handleAsyncError.
  rewrite <- (Hsame (setError None (setLoading true None s))) by reflexivity.
  split; [ reflexivity | ].
  destruct (asyncFn (setError None (setLoading true None s))) as [s' [result | reason]];
    cbn [fst snd].
  - split; [ reflexivity | ]. split; [ discriminate | intros [r Hr]; discriminate ].
  - split; [ reflexivity | ]. split; [ intros _; exists reason; reflexivity | reflexivity ].
Qed.

End Store.

Lemma wrapped_call_never_sees_loading_witness :
  let asyncFn := fun s : AppState unit unit =>
                   (s, if isLoading s then Rejected OtherValue else Fulfilled 1) in
  let other := fun s : AppState unit unit => (s, Fulfilled 1) in
  handleAsyncError asyncFn "failed" (initial unit unit)
    = handleAsyncError other "failed" (initial unit unit) /\
  isLoading (fst (handleAsyncError asyncFn "failed" (initial unit unit))) = false /\
  (snd (handleAsyncError asyncFn "failed" (initial unit unit)) = None
   <-> exists reason, snd (asyncFn (setError None (setLoading true None (initial unit unit))))
                      = Rejected reason).
Proof.
  intros asyncFn other.
  apply (wrapped_call_never_sees_loading unit unit nat asyncFn other "failed"
           (initial unit unit)).
  intros s0 H _. unfold asyncFn, other. rewrite H. reflexivity.
Defined.

End StoreFacts.
